(** * EdgeFlow proxy: the edge handler (api/proxy/route.ts) and the
    service worker (public/sw.js), embedded and checked against their
    specification; with them the configuration route (api/config/route.ts)
    and the logs route (api/logs/route.ts).

    Strings are sequences of bytes ([string]); on ASCII text they agree with
    JavaScript's strings.  JavaScript objects used as string-keyed maps
    (header records) are [gmap string string].  Asynchronous functions are
    computations in a state-and-exception monad whose state carries the
    trace of calls made to the outside world. *)

From Stdlib Require Import ZArith List Ascii String Bool Lia.
From stdpp Require Import base option list gmap strings pretty.

Local Open Scope string_scope.
Local Open Scope Z_scope.

(** ** JavaScript strings *)

Module JS.

(** [s.startsWith(p)] *)
Fixpoint startsWith (s p : string) : bool :=
  match p with
  | EmptyString => true
  | String c p' =>
      match s with
      | EmptyString => false
      | String d s' => if Ascii.eqb c d then startsWith s' p' else false
      end
  end.

(** [s.includes(p)]: [p] occurs in [s] as a substring. *)
Fixpoint includes (s p : string) : bool :=
  startsWith s p ||
  match s with
  | EmptyString => false
  | String _ s' => includes s' p
  end.

(** [s.slice(n)] *)
Fixpoint slice (n : nat) (s : string) : string :=
  match n, s with
  | O, _ => s
  | S n', String _ s' => slice n' s'
  | S _, EmptyString => EmptyString
  end.

Definition is_upper (c : ascii) : bool :=
  let n := nat_of_ascii c in (Nat.leb 65 n && Nat.leb n 90)%bool.

Definition lower_char (c : ascii) : ascii :=
  if is_upper c then ascii_of_nat (nat_of_ascii c + 32) else c.

(** [s.toLowerCase()] on ASCII text. *)
Fixpoint toLowerCase (s : string) : string :=
  match s with
  | EmptyString => EmptyString
  | String c s' => String (lower_char c) (toLowerCase s')
  end.

(** [encodeURIComponent]: every byte outside [A-Z a-z 0-9 - _ . ! ~ * ' ( )]
    is written as [%HH] with upper-case hexadecimal digits. *)
Definition is_unreserved (c : ascii) : bool :=
  let n := nat_of_ascii c in
  ((Nat.leb 65 n && Nat.leb n 90) || (Nat.leb 97 n && Nat.leb n 122) ||
   (Nat.leb 48 n && Nat.leb n 57) ||
   existsb (Ascii.eqb c) ["-"; "_"; "."; "!"; "~"; "*"; "'"; "("; ")"]%char)%bool.

Definition hex_digit (n : nat) : ascii :=
  nth n ["0"; "1"; "2"; "3"; "4"; "5"; "6"; "7"; "8"; "9";
         "A"; "B"; "C"; "D"; "E"; "F"]%char "0"%char.

Fixpoint encodeURIComponent (s : string) : string :=
  match s with
  | EmptyString => EmptyString
  | String c s' =>
      if is_unreserved c then String c (encodeURIComponent s')
      else String "%" (String (hex_digit (nat_of_ascii c / 16))
                         (String (hex_digit (nat_of_ascii c mod 16))
                            (encodeURIComponent s')))
  end.

(** Errors a computation can be rejected with. *)
Inductive JsError :=
  | SyntaxError
  | TypeError
  | RangeError
  | TimeoutError
  | EdgeConfigError
  | DatabaseError
  | Error (message : string).

(** The result of awaiting a promise. *)
Inductive Settled (A : Type) :=
  | Fulfilled (a : A)
  | Rejected (e : JsError).
Arguments Fulfilled {A} a.
Arguments Rejected {A} e.

(** ** Function bodies with early [return], [throw] and state *)

Inductive Outcome (R A : Type) :=
  | Val (a : A)        (* the statement completed with a value *)
  | Return (r : R)     (* a [return r] was executed *)
  | Throw (e : JsError).
Arguments Val {R A} a.
Arguments Return {R A} r.
Arguments Throw {R A} e.

Definition M (St R A : Type) : Type := St -> Outcome R A * St.

Definition ret {St R A} (a : A) : M St R A := fun s => (Val a, s).

Definition bind {St R A B} (m : M St R A) (k : A -> M St R B) : M St R B :=
  fun s =>
    match m s with
    | (Val a, s') => k a s'
    | (Return r, s') => (Return r, s')
    | (Throw e, s') => (Throw e, s')
    end.

Definition return_ {St R A} (r : R) : M St R A := fun s => (Return r, s).
Definition throw {St R A} (e : JsError) : M St R A := fun s => (Throw e, s).

(** [await p] for a promise that has settled as [p]. *)
Definition await {St R A} (p : Settled A) : M St R A :=
  match p with
  | Fulfilled a => ret a
  | Rejected e => throw e
  end.

(** [try { body } catch (error) { handler }] *)
Definition try_catch {St R A} (body : M St R A) (handler : JsError -> M St R A)
  : M St R A :=
  fun s =>
    match body s with
    | (Throw e, s') => handler e s'
    | other => other
    end.

(** Calling an async function whose body is [body]: falling off the end
    with a value or returning one fulfils the promise, an uncaught
    exception rejects it. *)
Definition call {St R} (body : M St R R) (s : St) : Settled R * St :=
  match body s with
  | (Val r, s') => (Fulfilled r, s')
  | (Return r, s') => (Fulfilled r, s')
  | (Throw e, s') => (Rejected e, s')
  end.

Definition get_state {St R} : M St R St := fun s => (Val s, s).
Definition modify {St R} (f : St -> St) : M St R unit := fun s => (Val tt, f s).

End JS.

Export JS.

Notation "x <- m ;; k" := (bind m (fun x => k))
  (at level 100, m at next level, right associativity).
Notation "m ;;; k" := (bind m (fun _ => k))
  (at level 100, right associativity).

(** ** The runtime the handler runs on

    Regular expressions, the URL parser, the [Request] constructor and the
    UTF-8 decoder belong to the JavaScript runtime, not to the repository.
    The handler is embedded over any runtime that offers them; the two laws
    are facts of ECMAScript ([replace] leaves a string without a match
    untouched) and of the URL standard (the empty string does not parse). *)

Record URL := { hostname : string }.

Class Runtime := {
  RegExp : Type;
  (** [new RegExp(pattern, 'g')]; [None] is the SyntaxError it throws. *)
  RegExp_new : string -> option RegExp;
  (** [regex.test(s)] from index 0: the pattern matches somewhere in [s]. *)
  RegExp_test : RegExp -> string -> bool;
  (** [s.replace(regex, replacement)] *)
  String_replace : string -> RegExp -> string -> string;
  String_replace_no_match :
    forall re s r, RegExp_test re s = false -> String_replace s re r = s;
  (** [new URL(s)]; [None] is the TypeError it throws. *)
  URL_new : string -> option URL;
  URL_new_empty : URL_new "" = None;
  (** whether [new Request(url, {method, headers, body})] is accepted. *)
  Request_valid : string -> string -> gmap string string -> option string -> bool;
  (** [new TextDecoder('utf-8', {fatal: false}).decode(buffer)] *)
  TextDecoder_decode : string -> string;
}.

(** ** api/proxy/route.ts *)

Module Route.

Inductive RuleType := url | header | content.

Definition RuleType_eqb (a b : RuleType) : bool :=
  match a, b with
  | url, url | header, header | content, content => true
  | _, _ => false
  end.

Record TransformRule := {
  pattern : string;
  replacement : string;
  type : RuleType;
}.

Record ProxyConfig := {
  enabled : bool;
  cacheTTL : Z;
  maxContentLength : Z;
  allowedDomains : list string;
  blockedDomains : list string;
  transformRules : list TransformRule;
}.

Definition DEFAULT_CONFIG : ProxyConfig := {|
  enabled := true;
  cacheTTL := 3600;
  maxContentLength := 10 * 1024 * 1024;
  allowedDomains := [];
  blockedDomains := [];
  transformRules := [];
|}.

(** What [get('proxy-config')] can resolve to.  An object is read through
    the handler's cast [configData as unknown as ProxyConfig]. *)
Inductive ConfigData :=
  | CUndefined
  | CNull
  | CBoolean (b : bool)
  | CNumber (n : Z)
  | CString (s : string)
  | CArray (items : list string)
  | CObject (c : ProxyConfig).

Definition truthy (v : ConfigData) : bool :=
  match v with
  | CUndefined | CNull => false
  | CBoolean b => b
  | CNumber n => negb (n =? 0)
  | CString s => negb (String.eqb s "")
  | CArray _ | CObject _ => true
  end.

Definition typeof_is_object (v : ConfigData) : bool :=
  match v with
  | CNull | CArray _ | CObject _ => true
  | _ => false
  end.

Definition Array_isArray (v : ConfigData) : bool :=
  match v with CArray _ => true | _ => false end.

Definition as_ProxyConfig (v : ConfigData) : ProxyConfig :=
  match v with CObject c => c | _ => DEFAULT_CONFIG end.

(** The JSON body of the request, after
    [const { url, method = 'GET', headers = {}, body: requestBody } = body]. *)
Record ProxyBody := {
  pb_url : option string;
  pb_method : option string;
  pb_headers : option (gmap string string);
  pb_body : option string;
}.

(** The arguments of [new Request(url, {method, headers, body})]:
    [req_headers] is the record given as [headers], a plain object whose
    keys are compared exactly.  What the request's [Headers] object holds
    is [carries] below. *)
Record Request := {
  req_url : string;
  req_method : string;
  req_headers : gmap string string;
  req_body : option string;
}.

(** The origin's response.  [resp_headers] is the [Headers] object (names in
    lower case); [resp_body] is [None] for a null body and otherwise what
    [arrayBuffer()] settles to. *)
Record Response := {
  resp_status : Z;
  resp_statusText : string;
  resp_headers : gmap string string;
  resp_body : option (Settled string);
}.

Record Payload := {
  p_content : string;
  p_contentType : string;
  p_status : Z;
  p_statusText : string;
  p_headers : gmap string string;
  p_cacheable : bool;
}.

(** [NextResponse.json(body, {status})] *)
Inductive NextResponse :=
  | JsonError (error : string) (status : Z)
  | JsonPayload (p : Payload).

Definition http_status (r : NextResponse) : Z :=
  match r with
  | JsonError _ st => st
  | JsonPayload _ => 200
  end.

(** A row of the table [proxy_cache]; the database computes
    [expires_at]. *)
Record CacheRow := {
  cache_key : string;
  row_content : string;
  row_content_type : string;
  row_status : Z;
  row_status_text : string;
  row_headers : gmap string string;
}.

(** *** The statements sent to the database

    [sql] is the template tag of the driver: it sends the text of the
    template with [$1], [$2], ... where the template interpolates, and the
    interpolated values as the parameters of the call. *)

Inductive SqlValue :=
  | SqlText (s : string)
  | SqlNumber (n : Z)
  | SqlJson (object : gmap string string).  (* JSON.stringify(object) *)

Record Statement := {
  st_text : string;
  st_values : list SqlValue;
}.

Fixpoint template (i : nat) (strings : list string) : string :=
  match strings with
  | [] => EmptyString
  | [last] => last
  | s :: rest => s +:+ "$" +:+ pretty i +:+ template (S i) rest
  end.

Definition sql (strings : list string) (values : list SqlValue) : Statement :=
  {| st_text := template 1 strings; st_values := values |}.

(** PostgreSQL takes for the parameters of a statement the placeholders
    it finds outside string literals, the highest [$n] giving their
    number, and refuses a call that brings another number of values
    ('bind message supplies 7 parameters, but prepared statement
    requires 6').  [placeholders] reads statements without comments,
    quoted identifiers and dollar-quoted strings, as the handler's is. *)
Definition decimal_digit (c : ascii) : option nat :=
  let n := nat_of_ascii c in
  if (Nat.leb 48 n && Nat.leb n 57)%bool then Some (n - 48)%nat else None.

Fixpoint number_at (acc : nat) (s : string) : nat :=
  match s with
  | EmptyString => acc
  | String c rest =>
      match decimal_digit c with
      | Some d => number_at (10 * acc + d) rest
      | None => acc
      end
  end.

Fixpoint scan (quoted : bool) (highest : nat) (s : string) : nat :=
  match s with
  | EmptyString => highest
  | String c rest =>
      if Ascii.eqb c "'" then scan (negb quoted) highest rest
      else if quoted then scan quoted highest rest
      else if Ascii.eqb c "$"
      then scan quoted (Nat.max highest (number_at 0 rest)) rest
      else scan quoted highest rest
  end.

Definition placeholders (text : string) : nat := scan false 0 text.

Definition Postgres_binds (statement : Statement) : bool :=
  (placeholders (st_text statement) =? length (st_values statement))%nat.

(** The literal parts of the template on lines 242-247. *)
Definition newline : string := String (ascii_of_nat 10) EmptyString.

Definition INSERT_INTO_proxy_cache : list string :=
  [ newline +:+
    "        INSERT INTO proxy_cache (cache_key, content, content_type, status, status_text, headers, expires_at)" +:+
    newline +:+ "        VALUES (";
    ", ";
    ", ";
    "," +:+ newline +:+ "                ";
    ", ";
    ", ";
    "," +:+ newline +:+ "                NOW() + INTERVAL '";
    " seconds')" +:+ newline +:+ "      " ].

(** Calls that leave the handler, in the order they are made.
    [CallTransformContent] records an invocation of
    [ScramjetEngine.transformContent]. *)
Inductive Event :=
  | EdgeConfigGet
  | RequestJson
  | ConsoleLog (message : string)
  | ConsoleError (e : JsError)
  | FetchCall (req : Request)
  | ArrayBuffer (bytes : string)
  | CallTransformContent (body : string)
  | SqlInsert (statement : Statement).

Record State := {
  trace : list Event;
  proxy_cache : list CacheRow;
  draws : nat;
}.

Definition log_event (e : Event) (s : State) : State :=
  {| trace := trace s ++ [e]; proxy_cache := proxy_cache s; draws := draws s |}.

Definition next_draw (s : State) : State :=
  {| trace := trace s; proxy_cache := proxy_cache s; draws := S (draws s) |}.

Definition store_row (row : CacheRow) (s : State) : State :=
  {| trace := trace s; proxy_cache := proxy_cache s ++ [row]; draws := draws s |}.

(** Everything outside the handler that one request meets. *)
Record World := {
  w_config : Settled ConfigData;          (* get('proxy-config') *)
  w_body : Settled ProxyBody;             (* request.json() *)
  w_fetch : Request -> Settled Response;  (* fetch with the 30 s timeout *)
  w_now : Z;                              (* Date.now(), milliseconds *)
  w_insert : CacheRow -> Settled unit;    (* the answer to an INSERT that binds *)
  w_random : nat -> nat;                  (* the successive random draws *)
}.

Section Handler.
Context `{RT : Runtime}.
Variable w : World.

Abbreviation M := (JS.M State NextResponse).

Definition emit (e : Event) : M unit := modify (log_event e).

(** [Math.floor(Math.random() * n)]: the next draw, brought below [n]. *)
Definition random_below (n : nat) : M nat :=
  fun s => (Val (w_random w (draws s) mod n)%nat, next_draw s).

(** *** class ScramjetEngine *)

Definition censoredDomains : list string :=
  ["blocked-site.com"; "restricted-content.org"].

Definition shouldApplyDomainFronting (u : string) : bool :=
  existsb (fun domain => includes u domain) censoredDomains.

Definition frontDomains : list string :=
  ["google.com"; "cloudflare.com"; "aws.amazon.com"].

(** [u.replace(/^https?:\/\//, by)] where [by] has no [$]. *)
Definition replace_scheme (u by_ : string) : string :=
  if startsWith u "https://" then by_ +:+ slice 8 u
  else if startsWith u "http://" then by_ +:+ slice 7 u
  else u.

Definition applyDomainFronting (u : string) : M string :=
  i <- random_below (length frontDomains);;
  let randomFront := nth i frontDomains "" in
  ret (replace_scheme u
         ("https://" +:+ randomFront +:+ "/proxy?url=" +:+
          encodeURIComponent u +:+ "&")).

(** The loop over the rules of one type, shared by [rewriteUrl] and
    [transformContent]. *)
Fixpoint apply_rules (t : RuleType) (rules : list TransformRule) (text : string)
  : M string :=
  match rules with
  | [] => ret text
  | rule :: rest =>
      if RuleType_eqb (type rule) t then
        match RegExp_new (pattern rule) with
        | None => throw SyntaxError
        | Some regex =>
            apply_rules t rest (String_replace text regex (replacement rule))
        end
      else apply_rules t rest text
  end.

Definition rewriteUrl (config : ProxyConfig) (originalUrl : string) : M string :=
  rewrittenUrl <- apply_rules url (transformRules config) originalUrl;;
  if shouldApplyDomainFronting originalUrl
  then applyDomainFronting rewrittenUrl
  else ret rewrittenUrl.

Definition userAgents : list string :=
  ["Mozilla/5.0 (Windows NT 10.0; Win64; x64) AppleWebKit/537.36";
   "Mozilla/5.0 (Macintosh; Intel Mac OS X 10_15_7) AppleWebKit/537.36";
   "Mozilla/5.0 (X11; Linux x86_64) AppleWebKit/537.36"].

Definition generateRandomUserAgent : M string :=
  i <- random_below (length userAgents);;
  ret (nth i userAgents "").

Definition generateRandomIP : M string :=
  a <- random_below 256;;
  b <- random_below 256;;
  ret ("192.168." +:+ pretty a +:+ "." +:+ pretty b).

Definition sanitizeHeaders (headers : gmap string string)
  : M (gmap string string) :=
  let sanitized := headers in
  let sanitized := delete "cookie" sanitized in
  let sanitized := delete "referer" sanitized in
  let sanitized := delete "origin" sanitized in
  ua <- generateRandomUserAgent;;
  let sanitized := <["user-agent" := ua]> sanitized in
  ip <- generateRandomIP;;
  let sanitized := <["x-forwarded-for" := ip]> sanitized in
  let sanitized := <["x-proxy-engine" := "edgeflow-scramjet"]> sanitized in
  ret sanitized.

Definition transformContent (config : ProxyConfig) (body contentType : string)
  : M string :=
  emit (CallTransformContent body);;;
  if (length (transformRules config) =? 0)%nat then ret body
  else apply_rules content (transformRules config) body.

(** *** isCacheableResponse *)

(** [response.headers.get(name) || fallback] *)
Definition header_or (r : Response) (name fallback : string) : string :=
  match resp_headers r !! name with
  | Some v => if String.eqb v "" then fallback else v
  | None => fallback
  end.

Definition isCacheableResponse (response : Response) : bool :=
  let cacheControl := header_or response "cache-control" "" in
  let contentType := header_or response "content-type" "" in
  if resp_status response >=? 400 then false
  else if includes cacheControl "no-cache" ||
          includes cacheControl "no-store" ||
          includes contentType "application/json"
  then false
  else true.

(** *** export async function POST *)

Definition skippedHeaders : list string :=
  ["set-cookie"; "connection"; "transfer-encoding"].

Definition proxied_header (entry : string * string) : bool :=
  negb (existsb (String.eqb (toLowerCase (fst entry))) skippedHeaders).

(** [responseHeaders[key] = value] on the plain object: every key becomes
    a property of its own but [__proto__], whose assignment goes to the
    setter of [Object.prototype] and, for a string, does nothing. *)
Definition own_property (key : string) : bool :=
  negb (String.eqb key "__proto__").

(** Lines 205-257: from the origin's response to the handler's answer. *)
Definition respond (config : ProxyConfig) (originalUrl : string)
    (response : Response) : M NextResponse :=
  let contentType := header_or response "content-type" "text/plain" in
  body <-
    match resp_body response with
    | None => ret ""
    | Some arriving =>
        buffer <- await arriving;;
        emit (ArrayBuffer buffer);;;
        if Z.of_nat (String.length buffer) <? maxContentLength config
        then ret (TextDecoder_decode buffer)
        else return_ (JsonError "Content too large" 413)
    end;;
  transformedContent <- transformContent config body contentType;;
  let responseHeaders :=
    filter (fun entry =>
              proxied_header entry && own_property (fst entry) = true)
           (resp_headers response) in
  let responseHeaders := <["x-proxied-by" := "edgeflow"]> responseHeaders in
  let responseHeaders := <["x-cache-status" := "MISS"]> responseHeaders in
  let cacheable := isCacheableResponse response in
  (if cacheable then
     let cacheKey := "proxy:" +:+ originalUrl +:+ ":" +:+ pretty (w_now w) in
     let statement :=
       sql INSERT_INTO_proxy_cache
         [ SqlText cacheKey;
           SqlText transformedContent;
           SqlText contentType;
           SqlNumber (resp_status response);
           SqlText (resp_statusText response);
           SqlJson responseHeaders;
           SqlNumber (cacheTTL config) ] in
     emit (SqlInsert statement);;;
     if Postgres_binds statement then
       let row := {|
         cache_key := cacheKey;
         row_content := transformedContent;
         row_content_type := contentType;
         row_status := resp_status response;
         row_status_text := resp_statusText response;
         row_headers := responseHeaders;
       |} in
       await (w_insert w row);;;
       modify (store_row row)
     else throw DatabaseError
   else ret tt);;;
  return_ (JsonPayload {|
    p_content := transformedContent;
    p_contentType := contentType;
    p_status := resp_status response;
    p_statusText := resp_statusText response;
    p_headers := responseHeaders;
    p_cacheable := cacheable;
  |}).

(** Line 134: the configuration the request is served under. *)
Definition config_of (configData : ConfigData) : ProxyConfig :=
  if truthy configData && typeof_is_object configData &&
     negb (Array_isArray configData)
  then as_ProxyConfig configData
  else DEFAULT_CONFIG.

(** Lines 182-199: the engine rewrites the URL and the headers, and the
    request for the origin is built from them. *)
Definition proxyRequest_for (config : ProxyConfig) (body : ProxyBody)
    (originalUrl : string) : M Request :=
  let method := default "GET" (pb_method body) in
  let headers := default ∅ (pb_headers body) in
  let requestBody := pb_body body in
  rewrittenUrl <- rewriteUrl config originalUrl;;
  sanitizedHeaders <- sanitizeHeaders headers;;
  emit (ConsoleLog ("Proxying request: " +:+ method +:+ " " +:+
                    originalUrl +:+ " -> " +:+ rewrittenUrl));;;
  (if Request_valid rewrittenUrl method sanitizedHeaders requestBody
   then ret tt else throw TypeError);;;
  ret {| req_url := rewrittenUrl;
         req_method := method;
         req_headers := sanitizedHeaders;
         req_body := requestBody |}.

(** Lines 132-181: configuration, request body, URL and domain checks;
    then the request for the origin. *)
Definition prepare : M (ProxyConfig * string * Request) :=
  emit EdgeConfigGet;;;
  configData <- await (w_config w);;
  let config := config_of configData in
  (if negb (enabled config)
   then return_ (JsonError "Proxy service is disabled" 503)
   else ret tt);;;
  emit RequestJson;;;
  body <- await (w_body w);;
  match pb_url body with
  | None => return_ (JsonError "URL is required" 400)
  | Some originalUrl =>
      if String.eqb originalUrl ""
      then return_ (JsonError "URL is required" 400)
      else
        targetUrl <-
          match URL_new originalUrl with
          | Some parsed => ret parsed
          | None => return_ (JsonError "Invalid URL format" 400)
          end;;
        (if existsb (fun domain => includes (hostname targetUrl) domain)
              (blockedDomains config)
         then return_ (JsonError "Domain is blocked" 403)
         else ret tt);;;
        (if (0 <? length (allowedDomains config))%nat &&
            negb (existsb (fun domain => includes (hostname targetUrl) domain)
                    (allowedDomains config))
         then return_ (JsonError "Domain is not allowed" 403)
         else ret tt);;;
        proxyRequest <- proxyRequest_for config body originalUrl;;
        ret (config, originalUrl, proxyRequest)
  end.

Definition POST_try : M NextResponse :=
  prepared <- prepare;;
  let '(config, originalUrl, proxyRequest) := prepared in
  emit (FetchCall proxyRequest);;;
  response <- await (w_fetch w proxyRequest);;
  respond config originalUrl response.

Definition POST_catch (error : JsError) : M NextResponse :=
  emit (ConsoleError error);;;
  return_ (JsonError "Proxy request failed" 500).

(** A request starts with an empty trace, the table as it stands and no
    random number drawn. *)
Definition start (table : list CacheRow) : State :=
  {| trace := []; proxy_cache := table; draws := 0 |}.

Definition POST (table : list CacheRow) : Settled NextResponse * State :=
  call (try_catch POST_try POST_catch) (start table).

(** *** Vocabulary of the statements *)

(** The handler's two domain conditions (lines 167 and 174-175). *)
Definition blocked (config : ProxyConfig) (target : URL) : bool :=
  existsb (fun domain => includes (hostname target) domain)
    (blockedDomains config).

Definition not_allowed (config : ProxyConfig) (target : URL) : bool :=
  (0 <? length (allowedDomains config))%nat &&
  negb (existsb (fun domain => includes (hostname target) domain)
          (allowedDomains config)).

(** A rule of type [t] whose pattern the runtime refuses. *)
Definition invalid_rule (t : RuleType) (rule : TransformRule) : Prop :=
  type rule = t /\ RegExp_new (pattern rule) = None.

(** [s'] differs from [s] at most in the number of random draws. *)
Definition only_draws (s s' : State) : Prop :=
  trace s' = trace s /\ proxy_cache s' = proxy_cache s.






(** [buffer.byteLength] *)
Definition byteLength (buffer : string) : Z := Z.of_nat (String.length buffer).

(** The body arrived and is not below the cap (the 413 branch). *)
Definition oversized (config : ProxyConfig) (response : Response) : Prop :=
  exists buffer, resp_body response = Some (Fulfilled buffer) /\
                 maxContentLength config <= byteLength buffer.

(** The same world with another answer from the configuration store. *)
Definition with_config (c : Settled ConfigData) : World := {|
  w_config := c;
  w_body := w_body w;
  w_fetch := w_fetch w;
  w_now := w_now w;
  w_insert := w_insert w;
  w_random := w_random w;
|}.

(** No rule of type [t] matches [text]. *)
Definition matches_none (t : RuleType) (rules : list TransformRule)
    (text : string) : Prop :=
  forall rule re,
    In rule rules -> type rule = t ->
    RegExp_new (pattern rule) = Some re -> RegExp_test re text = false.

End Handler.

(** *** export async function GET *)

(** What [postRequest.json()] settles to for the body
    [JSON.stringify({ url })]. *)
Definition url_only (u : string) : ProxyBody := {|
  pb_url := Some u;
  pb_method := None;
  pb_headers := None;
  pb_body := None;
|}.

(** The same world for a request with another body. *)
Definition with_body (w : World) (b : Settled ProxyBody) : World := {|
  w_config := w_config w;
  w_body := b;
  w_fetch := w_fetch w;
  w_now := w_now w;
  w_insert := w_insert w;
  w_random := w_random w;
|}.

(** [param] is [request.nextUrl.searchParams.get('url')], [None] for
    [null]; [postRequest] is what [new NextRequest('/api/proxy', ...)]
    does.  GET has no try block: an exception of the constructor rejects
    its promise.  The constructor parses its first argument with
    [new URL], which refuses the relative ['/api/proxy']: [Fulfilled] is
    the case of a runtime whose constructor accepts it. *)
Definition GET `{RT : Runtime} (w : World) (param : option string)
    (postRequest : Settled unit) (table : list CacheRow)
  : Settled NextResponse * State :=
  match param with
  | None =>
      (Fulfilled (JsonError "URL parameter is required" 400), start table)
  | Some u =>
      if String.eqb u ""
      then (Fulfilled (JsonError "URL parameter is required" 400), start table)
      else
        match postRequest with
        | Rejected e => (Rejected e, start table)
        | Fulfilled _ => POST (with_body w (Fulfilled (url_only u))) table
        end
  end.

(** *** The paths through the handler

    One constructor for each way a phase of POST can go, with the outcome
    and the state it ends in. *)

Section Paths.
Context `{RT : Runtime}.

Inductive request_case (w : World) (config : ProxyConfig) (b : ProxyBody)
    (u : string) (s : State) : Outcome NextResponse Request -> State -> Prop :=
  | InvalidUrlRule :
      Exists (invalid_rule url) (transformRules config) ->
      request_case w config b u s (Throw SyntaxError) s
  | RequestRefused u' sa h' sb :
      rewriteUrl w config u s = (Val u', sa) ->
      sanitizeHeaders w (default ∅ (pb_headers b)) sa = (Val h', sb) ->
      Request_valid u' (default "GET" (pb_method b)) h' (pb_body b) = false ->
      request_case w config b u s (Throw TypeError)
        (log_event (ConsoleLog ("Proxying request: " +:+
                                default "GET" (pb_method b) +:+ " " +:+
                                u +:+ " -> " +:+ u')) sb)
  | RequestBuilt u' sa h' sb :
      rewriteUrl w config u s = (Val u', sa) ->
      sanitizeHeaders w (default ∅ (pb_headers b)) sa = (Val h', sb) ->
      Request_valid u' (default "GET" (pb_method b)) h' (pb_body b) = true ->
      request_case w config b u s
        (Val {| req_url := u'; req_method := default "GET" (pb_method b);
                req_headers := h'; req_body := pb_body b |})
        (log_event (ConsoleLog ("Proxying request: " +:+
                                default "GET" (pb_method b) +:+ " " +:+
                                u +:+ " -> " +:+ u')) sb).

Inductive prepare_case (w : World) (s : State)
  : Outcome NextResponse (ProxyConfig * string * Request) -> State -> Prop :=
  | ConfigUnreadable e :
      w_config w = Rejected e ->
      prepare_case w s (Throw e) (log_event EdgeConfigGet s)
  | Disabled v :
      w_config w = Fulfilled v -> enabled (config_of v) = false ->
      prepare_case w s (Return (JsonError "Proxy service is disabled" 503))
        (log_event EdgeConfigGet s)
  | BodyUnreadable v e :
      w_config w = Fulfilled v -> enabled (config_of v) = true ->
      w_body w = Rejected e ->
      prepare_case w s (Throw e)
        (log_event RequestJson (log_event EdgeConfigGet s))
  | UrlMissing v b :
      w_config w = Fulfilled v -> enabled (config_of v) = true ->
      w_body w = Fulfilled b ->
      pb_url b = None \/ pb_url b = Some "" ->
      prepare_case w s (Return (JsonError "URL is required" 400))
        (log_event RequestJson (log_event EdgeConfigGet s))
  | UrlInvalid v b u :
      w_config w = Fulfilled v -> enabled (config_of v) = true ->
      w_body w = Fulfilled b -> pb_url b = Some u -> u <> "" ->
      URL_new u = None ->
      prepare_case w s (Return (JsonError "Invalid URL format" 400))
        (log_event RequestJson (log_event EdgeConfigGet s))
  | DomainBlocked v b u target :
      w_config w = Fulfilled v -> enabled (config_of v) = true ->
      w_body w = Fulfilled b -> pb_url b = Some u ->
      URL_new u = Some target ->
      blocked (config_of v) target = true ->
      prepare_case w s (Return (JsonError "Domain is blocked" 403))
        (log_event RequestJson (log_event EdgeConfigGet s))
  | DomainNotAllowed v b u target :
      w_config w = Fulfilled v -> enabled (config_of v) = true ->
      w_body w = Fulfilled b -> pb_url b = Some u ->
      URL_new u = Some target ->
      blocked (config_of v) target = false ->
      not_allowed (config_of v) target = true ->
      prepare_case w s (Return (JsonError "Domain is not allowed" 403))
        (log_event RequestJson (log_event EdgeConfigGet s))
  | ChecksPassed v b u target e s1 :
      w_config w = Fulfilled v -> enabled (config_of v) = true ->
      w_body w = Fulfilled b -> pb_url b = Some u ->
      URL_new u = Some target ->
      blocked (config_of v) target = false ->
      not_allowed (config_of v) target = false ->
      request_case w (config_of v) b u
        (log_event RequestJson (log_event EdgeConfigGet s)) (Throw e) s1 ->
      prepare_case w s (Throw e) s1
  | Prepared v b u target req s1 :
      w_config w = Fulfilled v -> enabled (config_of v) = true ->
      w_body w = Fulfilled b -> pb_url b = Some u ->
      URL_new u = Some target ->
      blocked (config_of v) target = false ->
      not_allowed (config_of v) target = false ->
      request_case w (config_of v) b u
        (log_event RequestJson (log_event EdgeConfigGet s)) (Val req) s1 ->
      prepare_case w s (Val (config_of v, u, req)) s1.

(** The headers, the payload and the statement built on lines 226-257. *)
Definition responseHeaders_of (response : Response) : gmap string string :=
  <["x-cache-status" := "MISS"]>
    (<["x-proxied-by" := "edgeflow"]>
       (filter (fun entry =>
                  proxied_header entry && own_property (fst entry) = true)
          (resp_headers response))).

Definition payload_of (response : Response) (text : string) : Payload := {|
  p_content := text;
  p_contentType := header_or response "content-type" "text/plain";
  p_status := resp_status response;
  p_statusText := resp_statusText response;
  p_headers := responseHeaders_of response;
  p_cacheable := isCacheableResponse response;
|}.

Definition statement_of (w : World) (config : ProxyConfig) (u : string)
    (response : Response) (text : string) : Statement :=
  sql INSERT_INTO_proxy_cache
    [ SqlText ("proxy:" +:+ u +:+ ":" +:+ pretty (w_now w));
      SqlText text;
      SqlText (header_or response "content-type" "text/plain");
      SqlNumber (resp_status response);
      SqlText (resp_statusText response);
      SqlJson (responseHeaders_of response);
      SqlNumber (cacheTTL config) ].

(** The body the transformer receives: empty for a null body, the decoded
    buffer for a body below the cap. *)
Inductive body_read (config : ProxyConfig) (response : Response) (s : State)
  : string -> State -> Prop :=
  | NoBody :
      resp_body response = None -> body_read config response s "" s
  | BodyFits buffer :
      resp_body response = Some (Fulfilled buffer) ->
      byteLength buffer < maxContentLength config ->
      body_read config response s (TextDecoder_decode buffer)
        (log_event (ArrayBuffer buffer) s).

Inductive respond_case (w : World) (config : ProxyConfig) (u : string)
    (response : Response) (s : State)
  : Outcome NextResponse NextResponse -> State -> Prop :=
  | BodyFails e :
      resp_body response = Some (Rejected e) ->
      respond_case w config u response s (Throw e) s
  | TooLarge buffer :
      resp_body response = Some (Fulfilled buffer) ->
      maxContentLength config <= byteLength buffer ->
      respond_case w config u response s
        (Return (JsonError "Content too large" 413))
        (log_event (ArrayBuffer buffer) s)
  | TransformFails body s1 :
      body_read config response s body s1 ->
      Exists (invalid_rule content) (transformRules config) ->
      respond_case w config u response s (Throw SyntaxError)
        (log_event (CallTransformContent body) s1)
  | NotCacheable body s1 text :
      body_read config response s body s1 ->
      transformContent config body
        (header_or response "content-type" "text/plain") s1 =
        (Val text, log_event (CallTransformContent body) s1) ->
      isCacheableResponse response = false ->
      respond_case w config u response s
        (Return (JsonPayload (payload_of response text)))
        (log_event (CallTransformContent body) s1)
  | InsertRefused body s1 text :
      body_read config response s body s1 ->
      transformContent config body
        (header_or response "content-type" "text/plain") s1 =
        (Val text, log_event (CallTransformContent body) s1) ->
      isCacheableResponse response = true ->
      respond_case w config u response s (Throw DatabaseError)
        (log_event (SqlInsert (statement_of w config u response text))
           (log_event (CallTransformContent body) s1)).

Inductive POST_case (w : World) (table : list CacheRow)
  : Settled NextResponse -> State -> Prop :=
  | EarlyAnswer r s1 :
      prepare_case w (start table) (Return r) s1 ->
      POST_case w table (Fulfilled r) s1
  | PrepareFails e s1 :
      prepare_case w (start table) (Throw e) s1 ->
      POST_case w table (Fulfilled (JsonError "Proxy request failed" 500))
        (log_event (ConsoleError e) s1)
  | FetchFails config u req s1 e :
      prepare_case w (start table) (Val (config, u, req)) s1 ->
      w_fetch w req = Rejected e ->
      POST_case w table (Fulfilled (JsonError "Proxy request failed" 500))
        (log_event (ConsoleError e) (log_event (FetchCall req) s1))
  | Responded config u req s1 response r s2 :
      prepare_case w (start table) (Val (config, u, req)) s1 ->
      w_fetch w req = Fulfilled response ->
      respond_case w config u response (log_event (FetchCall req) s1)
        (Return r) s2 ->
      POST_case w table (Fulfilled r) s2
  | RespondFails config u req s1 response e s2 :
      prepare_case w (start table) (Val (config, u, req)) s1 ->
      w_fetch w req = Fulfilled response ->
      respond_case w config u response (log_event (FetchCall req) s1)
        (Throw e) s2 ->
      POST_case w table (Fulfilled (JsonError "Proxy request failed" 500))
        (log_event (ConsoleError e) s2).

(** The events of the phase before the fetch, and of the phase after it. *)
Definition prelude_event (e : Event) : Prop :=
  match e with
  | EdgeConfigGet | RequestJson | ConsoleLog _ => True
  | _ => False
  end.

Definition respond_event (e : Event) : Prop :=
  match e with
  | ArrayBuffer _ | CallTransformContent _ | SqlInsert _ => True
  | _ => False
  end.

(** The requests fetched, in order. *)
Fixpoint fetches (events : list Event) : list Request :=
  match events with
  | [] => []
  | FetchCall req :: rest => req :: fetches rest
  | _ :: rest => fetches rest
  end.

(** The statements sent to the database, in order. *)
Fixpoint inserts (events : list Event) : list Statement :=
  match events with
  | [] => []
  | SqlInsert statement :: rest => statement :: inserts rest
  | _ :: rest => inserts rest
  end.

(** The error answers written in the handler. *)
Definition error_answers : list NextResponse :=
  [ JsonError "Proxy service is disabled" 503;
    JsonError "URL is required" 400;
    JsonError "Invalid URL format" 400;
    JsonError "Domain is blocked" 403;
    JsonError "Domain is not allowed" 403;
    JsonError "Content too large" 413;
    JsonError "Proxy request failed" 500 ].

(** The configuration with another list of rules. *)
Definition with_rules (config : ProxyConfig) (rules : list TransformRule)
  : ProxyConfig := {|
  enabled := enabled config;
  cacheTTL := cacheTTL config;
  maxContentLength := maxContentLength config;
  allowedDomains := allowedDomains config;
  blockedDomains := blockedDomains config;
  transformRules := rules;
|}.

Definition of_type (t : RuleType) (rules : list TransformRule)
  : list TransformRule :=
  List.filter (fun rule => RuleType_eqb (type rule) t) rules.

End Paths.

End Route.

(** ** public/sw.js *)

Module SW.

Definition CACHE_NAME : string := "edgeflow-proxy-v1".
Definition EDGE_FUNCTION_URL : string := "/api/proxy".

(** The intercepted request; [text] is what [request.text()] settles to. *)
Record Request := {
  url : string;
  method : string;
  headers : gmap string string;
  text : Settled string;
}.

(** A [Response] handed back to the page. *)
Record Response := {
  status : Z;
  statusText : string;
  resp_headers : gmap string string;
  body : string;
}.

(** The request sent to the edge function. *)
Record ProxyRequest := {
  pr_url : string;
  pr_method : string;
  pr_headers : gmap string string;
  pr_body : Route.ProxyBody;
}.

(** The edge function's reply; [reply_json] is what [response.json()]
    settles to. *)
Record EdgeReply := {
  reply_status : Z;
  reply_json : Settled Route.Payload;
}.

(** [response.ok] *)
Definition ok (r : EdgeReply) : bool :=
  (200 <=? reply_status r) && (reply_status r <=? 299).

Definition is_null_body_status (st : Z) : bool :=
  existsb (Z.eqb st) [101; 103; 204; 205; 304].

Definition printable (c : ascii) : bool :=
  let n := nat_of_ascii c in (Nat.leb 32 n && Nat.leb n 126)%bool.

Fixpoint all_chars (P : ascii -> bool) (s : string) : bool :=
  match s with
  | EmptyString => true
  | String c s' => P c && all_chars P s'
  end.

(** [new Blob([content], { type })].type *)
Definition Blob_type (type : string) : string :=
  if all_chars printable type then toLowerCase type else "".

(** [new Response(new Blob([content], { type }), { status, statusText,
    headers })], as the Fetch standard defines the constructor: a status
    outside 200..599 is a RangeError, a body together with a null-body
    status is a TypeError, and the blob's type fills in a missing
    content type.  Header names arrive in lower case, as POST sends
    them. *)
Definition Response_new (d : Route.Payload) : Settled Response :=
  if negb ((200 <=? Route.p_status d) && (Route.p_status d <=? 599))
  then Rejected RangeError
  else if is_null_body_status (Route.p_status d)
  then Rejected TypeError
  else
    let type := Blob_type (Route.p_contentType d) in
    Fulfilled {|
      status := Route.p_status d;
      statusText := Route.p_statusText d;
      resp_headers :=
        match Route.p_headers d !! "content-type" with
        | Some _ => Route.p_headers d
        | None =>
            if String.eqb type "" then Route.p_headers d
            else <["content-type" := type]> (Route.p_headers d)
        end;
      body := Route.p_content d;
    |}.

(** The Cache API the worker writes to and falls back on. *)
Class CacheAPI := {
  CacheStorage : Type;
  (** [caches.match(request)]; [None] is [undefined]. *)
  caches_match : CacheStorage -> Request -> option Response;
  (** the effect of [cache.put(request, response)] on the storage. *)
  cache_put : CacheStorage -> Request -> Response -> CacheStorage;
}.

Section Worker.
Context `{CA : CacheAPI}.

Inductive Event :=
  | ConsoleLog (message : string)
  | ConsoleError (e : JsError)
  | RequestText
  | FetchCall (req : ProxyRequest)
  | ResponseJson
  | CachesOpen (name : string)
  | CachePut (request : Request) (response : Response)
  | CachesMatch (request : Request).

Record State := {
  trace : list Event;
  caches : CacheStorage;
}.

Definition log_event (e : Event) (s : State) : State :=
  {| trace := trace s ++ [e]; caches := caches s |}.

Definition put_entry (request : Request) (response : Response) (s : State)
  : State :=
  {| trace := trace s; caches := cache_put (caches s) request response |}.

Record World := {
  w_location : string;                          (* the worker's origin *)
  w_fetch : ProxyRequest -> Settled EdgeReply;  (* fetch(proxyRequest) *)
  w_open : Settled unit;                        (* caches.open(CACHE_NAME) *)
}.

Variable w : World.

Abbreviation M := (JS.M State Response).

Definition emit (e : Event) : M unit := modify (log_event e).

(** The fixed answer of the last fallback. *)
Definition unavailable : Response := {|
  status := 503;
  statusText := "Service Unavailable";
  resp_headers := {[ "Content-Type" := "text/plain" ]};
  body := "Proxy temporarily unavailable";
|}.

(** Lines 65-78: the request for the edge function; [requestBody] is
    [null] for a GET and the text of the intercepted body otherwise. *)
Definition proxyRequest_for (request : Request) (requestBody : option string)
  : ProxyRequest := {|
  pr_url := w_location w +:+ EDGE_FUNCTION_URL;
  pr_method := "POST";
  pr_headers := {[ "Content-Type" := "application/json";
                   "X-Original-URL" := url request;
                   "X-Original-Method" := method request ]};
  pr_body := {|
    Route.pb_url := Some (url request);
    Route.pb_method := Some (method request);
    Route.pb_headers := Some (headers request);
    Route.pb_body := requestBody;
  |};
|}.

(** [cache.put] is not awaited: its effect on the storage is recorded, a
    rejection of its promise reaches nobody. *)
Definition handleProxyRequest_try (request : Request) : M Response :=
  requestBody <-
    (if negb (String.eqb (method request) "GET")
     then emit RequestText;;;
          t <- await (text request);;
          ret (Some t)
     else ret None);;
  let proxyRequest := proxyRequest_for request requestBody in
  emit (ConsoleLog ("Sending to edge function: " +:+ pr_url proxyRequest));;;
  emit (FetchCall proxyRequest);;;
  response <- await (w_fetch w proxyRequest);;
  (if negb (ok response)
   then throw (Error ("Edge function responded with " +:+
                      pretty (reply_status response)))
   else ret tt);;;
  emit ResponseJson;;;
  responseData <- await (reply_json response);;
  proxiedResponse <- await (Response_new responseData);;
  (if Route.p_cacheable responseData then
     emit (CachesOpen CACHE_NAME);;;
     await (w_open w);;;
     emit (CachePut request proxiedResponse);;;
     modify (put_entry request proxiedResponse)
   else ret tt);;;
  return_ proxiedResponse.

Definition handleProxyRequest_catch (request : Request) (error : JsError)
  : M Response :=
  emit (ConsoleError error);;;
  emit (CachesMatch request);;;
  s <- get_state;;
  match caches_match (caches s) request with
  | Some cachedResponse =>
      emit (ConsoleLog "Serving from cache");;;
      return_ cachedResponse
  | None => return_ unavailable
  end.

(** A request starts with an empty trace and the storage as it stands. *)
Definition init (storage : CacheStorage) : State :=
  {| trace := []; caches := storage |}.

Definition handleProxyRequest (request : Request) (storage : CacheStorage)
  : Settled Response * State :=
  call (try_catch (handleProxyRequest_try request)
                  (handleProxyRequest_catch request))
       (init storage).

(** *** Vocabulary of the statements *)

(** What the fallback hands back: the cached response for the request if
    there is one, the fixed 503 otherwise. *)
Definition fallback (storage : CacheStorage) (request : Request) : Response :=
  match caches_match storage request with
  | Some cachedResponse => cachedResponse
  | None => unavailable
  end.

(** What [request.method !== 'GET' ? await request.text() : null]
    settles to. *)
Definition requestBody_of (request : Request) : Settled (option string) :=
  if String.eqb (method request) "GET" then Fulfilled None
  else match text request with
       | Fulfilled t => Fulfilled (Some t)
       | Rejected e => Rejected e
       end.

(** The forwarding call failed: the fetch was rejected (network error,
    timeout) or the edge function answered with a status outside 200-299. *)
Definition forwarding_failed (reply : Settled EdgeReply) : Prop :=
  match reply with
  | Rejected _ => True
  | Fulfilled r => ok r = false
  end.

(** Every step of the try block went through and built [proxied]. *)
Definition served (request : Request) (proxied : Response) : Prop :=
  exists requestBody reply responseData,
    requestBody_of request = Fulfilled requestBody /\
    w_fetch w (proxyRequest_for request requestBody) = Fulfilled reply /\
    ok reply = true /\
    reply_json reply = Fulfilled responseData /\
    Response_new responseData = Fulfilled proxied /\
    (Route.p_cacheable responseData = true -> w_open w = Fulfilled tt).

Definition cache_read (request : Request) (s : State) : Prop :=
  In (CachesMatch request) (trace s).

End Worker.

(** *** The paths through the try block *)

Section Paths.
Context `{CA : CacheAPI}.

(** The state once the body of the intercepted request has been asked for. *)
Definition after_read (request : Request) (storage : CacheStorage) : State :=
  if String.eqb (method request) "GET" then init storage
  else log_event RequestText (init storage).

(** The state once the request has been sent to the edge function. *)
Definition after_fetch (w : World) (request : Request)
    (requestBody : option string) (storage : CacheStorage) : State :=
  log_event (FetchCall (proxyRequest_for w request requestBody))
    (log_event
       (ConsoleLog ("Sending to edge function: " +:+
                    pr_url (proxyRequest_for w request requestBody)))
       (after_read request storage)).

Inductive try_case (w : World) (request : Request) (storage : CacheStorage)
  : Outcome Response Response -> State -> Prop :=
  | ReadFails e :
      requestBody_of request = Rejected e ->
      try_case w request storage (Throw e) (after_read request storage)
  | ForwardFails rb e :
      requestBody_of request = Fulfilled rb ->
      w_fetch w (proxyRequest_for w request rb) = Rejected e ->
      try_case w request storage (Throw e) (after_fetch w request rb storage)
  | NotOk rb reply :
      requestBody_of request = Fulfilled rb ->
      w_fetch w (proxyRequest_for w request rb) = Fulfilled reply ->
      ok reply = false ->
      try_case w request storage
        (Throw (Error ("Edge function responded with " +:+
                       pretty (reply_status reply))))
        (after_fetch w request rb storage)
  | ReplyNotJson rb reply e :
      requestBody_of request = Fulfilled rb ->
      w_fetch w (proxyRequest_for w request rb) = Fulfilled reply ->
      ok reply = true ->
      reply_json reply = Rejected e ->
      try_case w request storage (Throw e)
        (log_event ResponseJson (after_fetch w request rb storage))
  | Unbuildable rb reply d e :
      requestBody_of request = Fulfilled rb ->
      w_fetch w (proxyRequest_for w request rb) = Fulfilled reply ->
      ok reply = true ->
      reply_json reply = Fulfilled d ->
      Response_new d = Rejected e ->
      try_case w request storage (Throw e)
        (log_event ResponseJson (after_fetch w request rb storage))
  | OpenFails rb reply d proxied e :
      requestBody_of request = Fulfilled rb ->
      w_fetch w (proxyRequest_for w request rb) = Fulfilled reply ->
      ok reply = true ->
      reply_json reply = Fulfilled d ->
      Response_new d = Fulfilled proxied ->
      Route.p_cacheable d = true ->
      w_open w = Rejected e ->
      try_case w request storage (Throw e)
        (log_event (CachesOpen CACHE_NAME)
           (log_event ResponseJson (after_fetch w request rb storage)))
  | Stored rb reply d proxied :
      requestBody_of request = Fulfilled rb ->
      w_fetch w (proxyRequest_for w request rb) = Fulfilled reply ->
      ok reply = true ->
      reply_json reply = Fulfilled d ->
      Response_new d = Fulfilled proxied ->
      Route.p_cacheable d = true ->
      w_open w = Fulfilled tt ->
      try_case w request storage (Return proxied)
        (put_entry request proxied
           (log_event (CachePut request proxied)
              (log_event (CachesOpen CACHE_NAME)
                 (log_event ResponseJson (after_fetch w request rb storage)))))
  | NotStored rb reply d proxied :
      requestBody_of request = Fulfilled rb ->
      w_fetch w (proxyRequest_for w request rb) = Fulfilled reply ->
      ok reply = true ->
      reply_json reply = Fulfilled d ->
      Response_new d = Fulfilled proxied ->
      Route.p_cacheable d = false ->
      try_case w request storage (Return proxied)
        (log_event ResponseJson (after_fetch w request rb storage)).

(** The requests sent to the edge function, in order. *)
Definition forwarded (events : list Event) : list ProxyRequest :=
  flat_map (fun e => match e with FetchCall req => [req] | _ => [] end) events.

End Paths.

End SW.

(** ** JSON values

    The configuration and log routes handle request bodies and stored
    documents of any shape.  Numbers are only tested for their type and
    their truthiness there, so integers stand for them; an object is the
    finite map of its own properties, the order of its keys is not kept. *)

Module Json.

#[warnings="-register-all"] Inductive JsValue :=
  | JNull
  | JBoolean (b : bool)
  | JNumber (n : Z)
  | JString (s : string)
  | JArray (items : list JsValue)
  | JObject (fields : gmap string JsValue).

(** The conversion to boolean of [!v], [v && ...] and [v || ...];
    [None] is [undefined]. *)
Definition truthy (v : option JsValue) : bool :=
  match v with
  | None | Some JNull => false
  | Some (JBoolean b) => b
  | Some (JNumber n) => negb (n =? 0)
  | Some (JString s) => negb (String.eqb s "")
  | Some (JArray _) | Some (JObject _) => true
  end.

Definition typeof (v : option JsValue) : string :=
  match v with
  | None => "undefined"
  | Some (JBoolean _) => "boolean"
  | Some (JNumber _) => "number"
  | Some (JString _) => "string"
  | Some JNull | Some (JArray _) | Some (JObject _) => "object"
  end.

Definition Array_isArray (v : option JsValue) : bool :=
  match v with Some (JArray _) => true | _ => false end.

(** [v === null] *)
Definition is_null (v : option JsValue) : bool :=
  match v with Some JNull => true | _ => false end.

(** The own enumerable properties [{...v}] copies: the fields of an
    object, the elements of an array under their indices, nothing for
    [null], a boolean or a number.  (A string, which spreads its
    characters, never reaches a spread in these routes.) *)
Definition spread (v : JsValue) : gmap string JsValue :=
  match v with
  | JObject fields => fields
  | JArray items => list_to_map (imap (fun i x => (pretty i, x)) items)
  | _ => ∅
  end.

(** [v.k] for a name [k] that is neither an index nor [length]: the
    field of an object, [undefined] on any other value but [null], on
    which the access throws a TypeError. *)
Definition property (v : JsValue) (k : string) : Settled (option JsValue) :=
  match v with
  | JNull => Rejected TypeError
  | JObject fields => Fulfilled (fields !! k)
  | _ => Fulfilled None
  end.

Definition upper_char (c : ascii) : ascii :=
  let n := nat_of_ascii c in
  if (Nat.leb 97 n && Nat.leb n 122)%bool then ascii_of_nat (n - 32) else c.

(** [s.toUpperCase()] on ASCII text *)
Fixpoint toUpperCase (s : string) : string :=
  match s with
  | EmptyString => EmptyString
  | String c s' => String (upper_char c) (toUpperCase s')
  end.

End Json.

(** ** api/config/route.ts *)

Module ConfigRoute.
Import Json.

Definition DEFAULT_CONFIG : gmap string JsValue :=
  {[ "enabled" := JBoolean true;
     "cacheTTL" := JNumber 3600;
     "maxContentLength" := JNumber (10 * 1024 * 1024);
     "allowedDomains" := JArray [];
     "blockedDomains" := JArray [];
     "transformRules" := JArray [] ]}.

(** [NextResponse.json(body, {status})] *)
Inductive NextResponse :=
  | JsonError (error : string) (status : Z)
  | JsonConfig (config : JsValue) (timestamp : string).

(** The metadata POST logs: [{ admin: true, changes: Object.keys(updates) }],
    the keys as a set. *)
Record Metadata := {
  admin : bool;
  changes : gset string;
}.

(** A row of [proxy_logs] as [logActivity] inserts it; the database
    computes [expires_at]. *)
Record LogRow := {
  log_timestamp : string;
  log_level : string;
  log_message : string;
  log_metadata : Metadata;
}.

Inductive Event :=
  | SqlSelect
  | EdgeConfigGet
  | RequestJson
  | ConsoleWarn (e : JsError)
  | ConsoleError (prefix : string) (e : JsError)
  | ConsoleLog (message : string)
  | SqlUpsert (config : JsValue)
  | SqlInsertLog (row : LogRow).

(** [proxy_config] is the document in column [config] of the row with
    id 1, [None] when the table has no such row; [edge_reads] and [clock]
    count the calls of [get('proxy-config')] and of [new Date()]. *)
Record State := {
  trace : list Event;
  proxy_config : option JsValue;
  proxy_logs : list LogRow;
  edge_reads : nat;
  clock : nat;
}.

Definition log_event (e : Event) (s : State) : State :=
  {| trace := trace s ++ [e]; proxy_config := proxy_config s;
     proxy_logs := proxy_logs s; edge_reads := edge_reads s; clock := clock s |}.

Definition next_read (s : State) : State :=
  {| trace := trace s; proxy_config := proxy_config s;
     proxy_logs := proxy_logs s; edge_reads := S (edge_reads s);
     clock := clock s |}.

Definition tick (s : State) : State :=
  {| trace := trace s; proxy_config := proxy_config s;
     proxy_logs := proxy_logs s; edge_reads := edge_reads s;
     clock := S (clock s) |}.

Definition store_config (config : JsValue) (s : State) : State :=
  {| trace := trace s; proxy_config := Some config;
     proxy_logs := proxy_logs s; edge_reads := edge_reads s; clock := clock s |}.

Definition store_log (row : LogRow) (s : State) : State :=
  {| trace := trace s; proxy_config := proxy_config s;
     proxy_logs := proxy_logs s ++ [row]; edge_reads := edge_reads s;
     clock := clock s |}.

(** Everything outside the handlers that one request meets. *)
Record World := {
  w_select : Settled unit;              (* whether the SELECT goes through *)
  w_column : JsValue -> JsValue;        (* a stored document as a row returns it *)
  w_edge : nat -> Settled (option JsValue);  (* the successive get('proxy-config') *)
  w_json : Settled JsValue;             (* request.json() *)
  w_upsert : JsValue -> Settled unit;   (* whether the upsert goes through *)
  w_log_insert : LogRow -> Settled unit;  (* whether the INSERT goes through *)
  w_now : nat -> string;                (* the successive new Date().toISOString() *)
}.

Section Handlers.
Variable w : World.

Abbreviation M := (JS.M State NextResponse).

Definition emit (e : Event) : M unit := modify (log_event e).

(** [new Date().toISOString()] *)
Definition now : M string :=
  fun s => (Val (w_now w (clock s)), tick s).

(** [await get('proxy-config')] *)
Definition get_proxy_config : M (option JsValue) :=
  s <- get_state;;
  emit EdgeConfigGet;;;
  modify next_read;;;
  await (w_edge w (edge_reads s)).

(** [edgeConfig && typeof edgeConfig === 'object' && !Array.isArray(edgeConfig)] *)
Definition is_config_object (v : option JsValue) : bool :=
  truthy v && String.eqb (typeof v) "object" && negb (Array_isArray v).

(** Lines 53-56 and 61-64: the configuration becomes Edge Config's when
    that is an object. *)
Definition edge_config_or (config : JsValue) : M JsValue :=
  edgeConfig <- get_proxy_config;;
  ret (if is_config_object edgeConfig
       then default config edgeConfig
       else config).

(** *** export async function GET *)

Definition GET_try : M NextResponse :=
  let config := JObject DEFAULT_CONFIG in
  config <-
    try_catch
      (emit SqlSelect;;;
       await (w_select w);;;
       s <- get_state;;
       match proxy_config s with
       | Some document => ret (w_column w document)
       | None => edge_config_or config
       end)
      (fun dbError =>
         emit (ConsoleWarn dbError);;;
         edge_config_or config);;
  timestamp <- now;;
  return_ (JsonConfig config timestamp).

Definition GET_catch (error : JsError) : M NextResponse :=
  emit (ConsoleError "Error retrieving config:" error);;;
  return_ (JsonError "Failed to retrieve configuration" 500).

(** A request starts with an empty trace and the tables as they stand. *)
Definition start (document : option JsValue) (logs : list LogRow) : State :=
  {| trace := []; proxy_config := document; proxy_logs := logs;
     edge_reads := 0; clock := 0 |}.

Definition GET (document : option JsValue) (logs : list LogRow)
  : Settled NextResponse * State :=
  call (try_catch GET_try GET_catch) (start document logs).

(** *** logActivity *)

Definition logActivity (level message : string) (metadata : Metadata) : M unit :=
  try_catch
    (timestamp <- now;;
     let row := {| log_timestamp := timestamp; log_level := level;
                   log_message := message; log_metadata := metadata |} in
     emit (SqlInsertLog row);;;
     await (w_log_insert w row);;;
     modify (store_log row);;;
     emit (ConsoleLog ("[" +:+ toUpperCase level +:+ "] " +:+ message)))
    (fun error => emit (ConsoleError "Failed to log activity:" error)).

(** *** export async function POST *)

(** Lines 105-110, on the merged configuration. *)
Definition invalid_structure (newConfig : gmap string JsValue) : bool :=
  negb (String.eqb (typeof (newConfig !! "enabled")) "boolean") ||
  negb (String.eqb (typeof (newConfig !! "cacheTTL")) "number") ||
  negb (String.eqb (typeof (newConfig !! "maxContentLength")) "number") ||
  negb (Array_isArray (newConfig !! "allowedDomains")) ||
  negb (Array_isArray (newConfig !! "blockedDomains")) ||
  negb (Array_isArray (newConfig !! "transformRules")).

Definition POST_try : M NextResponse :=
  emit RequestJson;;;
  updates <- await (w_json w);;
  (if negb (String.eqb (typeof (Some updates)) "object") || is_null (Some updates)
   then return_ (JsonError "Invalid configuration data" 400)
   else ret tt);;;
  currentConfigData <- get_proxy_config;;
  let currentConfig :=
    if is_config_object currentConfigData
    then default (JObject DEFAULT_CONFIG) currentConfigData
    else JObject DEFAULT_CONFIG in
  (* { ...currentConfig, ...updates } *)
  let newConfig := spread updates ∪ spread currentConfig in
  (if invalid_structure newConfig
   then return_ (JsonError "Invalid configuration structure" 400)
   else ret tt);;;
  emit (SqlUpsert (JObject newConfig));;;
  await (w_upsert w (JObject newConfig));;;
  modify (store_config (JObject newConfig));;;
  logActivity "info" "Configuration updated"
    {| admin := true; changes := dom (spread updates) |};;;
  timestamp <- now;;
  return_ (JsonConfig (JObject newConfig) timestamp).

Definition POST_catch (error : JsError) : M NextResponse :=
  emit (ConsoleError "Error updating config:" error);;;
  return_ (JsonError "Failed to update configuration" 500).

Definition POST (document : option JsValue) (logs : list LogRow)
  : Settled NextResponse * State :=
  call (try_catch POST_try POST_catch) (start document logs).

(** *** Vocabulary of the statements *)

(** The configuration an update is merged into (lines 96-99). *)
Definition current_config (edgeConfig : option JsValue) : JsValue :=
  if is_config_object edgeConfig
  then default (JObject DEFAULT_CONFIG) edgeConfig
  else JObject DEFAULT_CONFIG.

(** The six fields POST checks, each with the check it passes. *)
Definition well_typed (k : string) (v : JsValue) : bool :=
  if String.eqb k "enabled" then String.eqb (typeof (Some v)) "boolean"
  else if String.eqb k "cacheTTL" then String.eqb (typeof (Some v)) "number"
  else if String.eqb k "maxContentLength" then String.eqb (typeof (Some v)) "number"
  else if String.eqb k "allowedDomains" then Array_isArray (Some v)
  else if String.eqb k "blockedDomains" then Array_isArray (Some v)
  else if String.eqb k "transformRules" then Array_isArray (Some v)
  else true.

End Handlers.

(** The row [logActivity] inserts for an update. *)
Definition update_log (w : World) (updates : JsValue) : LogRow := {|
  log_timestamp := w_now w 0;
  log_level := "info";
  log_message := "Configuration updated";
  log_metadata := {| admin := true; changes := dom (spread updates) |};
|}.

(** The update merged into the current configuration. *)
Definition merged (updates : JsValue) (edgeConfig : option JsValue)
  : gmap string JsValue :=
  spread updates ∪ spread (current_config edgeConfig).

End ConfigRoute.

(** ** api/logs/route.ts *)

Module LogsRoute.
Import Json.

(** A JavaScript number that came out of [parseInt]: an integer, or
    [None] for [NaN]. *)
Definition Number := option Z.

(** [Math.min(a, b)] *)
Definition Math_min (a : Number) (b : Z) : Number :=
  match a with Some n => Some (Z.min n b) | None => None end.

(** [a + b < c]; a comparison with [NaN] is false. *)
Definition sum_below (a b c : Number) : bool :=
  match a, b, c with
  | Some x, Some y, Some z => x + y <? z
  | _, _, _ => false
  end.

(** [total === 0] *)
Definition is_zero (n : Number) : bool :=
  match n with Some 0 => true | _ => false end.

(** [searchParams.get(name) || fallback] *)
Definition or_default (v : option string) (fallback : string) : string :=
  match v with
  | Some s => if String.eqb s "" then fallback else s
  | None => fallback
  end.

(** What [searchParams.get] returns for the five parameters GET reads;
    [None] is [null]. *)
Record Query := {
  q_level : option string;
  q_limit : option string;
  q_offset : option string;
  q_startDate : option string;
  q_endDate : option string;
}.

Inductive SqlParam :=
  | PString (s : string)
  | PNumber (n : Number).

(** [whereClause], [params] and [paramIndex] as lines 30-50 build them. *)
Record Filters := {
  whereClause : string;
  params : list SqlParam;
  paramIndex : nat;
}.

(** [if (value) { whereClause += ` AND <condition> $${paramIndex}`;
    params.push(value); paramIndex++; }] *)
Definition add_filter (condition : string) (value : option string)
    (f : Filters) : Filters :=
  match value with
  | None => f
  | Some v =>
      if String.eqb v "" then f
      else {| whereClause := whereClause f +:+ " AND " +:+ condition +:+ " $" +:+
                             pretty (paramIndex f);
              params := params f ++ [PString v];
              paramIndex := S (paramIndex f) |}
  end.

Definition filters (q : Query) : Filters :=
  let f := {| whereClause := "WHERE 1=1"; params := []; paramIndex := 1 |} in
  let f := add_filter "level =" (q_level q) f in
  let f := add_filter "timestamp >=" (q_startDate q) f in
  let f := add_filter "timestamp <=" (q_endDate q) f in
  f.

Definition countQuery (q : Query) : string :=
  "SELECT COUNT(*) as total FROM proxy_logs " +:+ whereClause (filters q).

Definition newline : string := String (ascii_of_nat 10) EmptyString.

Definition logsQuery (q : Query) : string :=
  let offsetParam := paramIndex (filters q) in
  let limitParam := S (paramIndex (filters q)) in
  newline +:+
  "      SELECT timestamp, level, message, url, ip, userAgent, responseTime, statusCode" +:+
  newline +:+
  "      FROM proxy_logs" +:+ newline +:+
  "      " +:+ whereClause (filters q) +:+ newline +:+
  "      ORDER BY timestamp DESC" +:+ newline +:+
  "      LIMIT $" +:+ pretty limitParam +:+ " OFFSET $" +:+ pretty offsetParam +:+
  newline +:+ "    ".

(** [NextResponse.json(body, {status})] *)
Inductive NextResponse :=
  | JsonError (error : string) (status : Z)
  | JsonEmpty
  | JsonPage (logs : list JsValue) (total : Number) (hasMore : bool)
             (limit offset : Number)
  | JsonCreated (logId : option JsValue) (timestamp : option JsValue).

(** A row of [proxy_logs] as POST inserts it; the database computes
    [expires_at]. *)
Record LogRow := {
  row_timestamp : option JsValue;
  row_level : option JsValue;
  row_message : option JsValue;
  row_url : JsValue;
  row_ip : JsValue;
  row_userAgent : JsValue;
  row_responseTime : JsValue;
  row_statusCode : JsValue;
}.

Inductive Event :=
  | SqlQuery (text : string) (parameters : list SqlParam)
  | RequestJson
  | SqlInsert (row : LogRow)
  | ConsoleLog (prefix : string) (message : option JsValue)
  | ConsoleError (prefix : string) (e : JsError).

Record State := {
  trace : list Event;
  proxy_logs : list LogRow;
}.

Definition log_event (e : Event) (s : State) : State :=
  {| trace := trace s ++ [e]; proxy_logs := proxy_logs s |}.

Definition store_row (row : LogRow) (s : State) : State :=
  {| trace := trace s; proxy_logs := proxy_logs s ++ [row] |}.

(** Everything outside the handlers that one request meets. *)
Record World := {
  (* sql.query(countQuery, ...): the column total of the rows *)
  w_count : string -> list SqlParam -> Settled (list string);
  (* sql.query(logsQuery, ...) *)
  w_logs : string -> list SqlParam -> Settled (list JsValue);
  w_json : Settled JsValue;                    (* request.json() *)
  w_insert : LogRow -> Settled (list JsValue); (* INSERT ... RETURNING id *)
  w_now : string;                              (* new Date().toISOString() *)
}.

Section Handlers.
(** [parseInt(s)], [None] for [NaN]. *)
Variable parseInt : string -> Number.
Variable w : World.

Abbreviation M := (JS.M State NextResponse).

Definition emit (e : Event) : M unit := modify (log_event e).

(** [rows[0]]; reading a property of [undefined] throws. *)
Definition first_row {A} (rows : list A) : M A :=
  match rows with
  | row :: _ => ret row
  | [] => throw TypeError
  end.

(** *** export async function GET *)

Definition GET_try (q : Query) : M NextResponse :=
  let limit := Math_min (parseInt (or_default (q_limit q) "100")) 1000 in
  let offset := parseInt (or_default (q_offset q) "0") in
  let f := filters q in
  let counted := take (paramIndex f - 1) (params f) in
  emit (SqlQuery (countQuery q) counted);;;
  countResult <- await (w_count w (countQuery q) counted);;
  row <- first_row countResult;;
  let total := parseInt row in
  (if is_zero total then return_ JsonEmpty else ret tt);;;
  let paged := (take (paramIndex f - 1) (params f) ++
                [PNumber limit; PNumber offset])%list in
  emit (SqlQuery (logsQuery q) paged);;;
  logs <- await (w_logs w (logsQuery q) paged);;
  let hasMore := sum_below offset limit total in
  return_ (JsonPage logs total hasMore limit offset).

Definition GET_catch (error : JsError) : M NextResponse :=
  emit (ConsoleError "Error retrieving logs:" error);;;
  return_ (JsonError "Failed to retrieve logs" 500).

(** A request starts with an empty trace and the table as it stands. *)
Definition start (logs : list LogRow) : State :=
  {| trace := []; proxy_logs := logs |}.

Definition GET (q : Query) (logs : list LogRow)
  : Settled NextResponse * State :=
  call (try_catch (GET_try q) GET_catch) (start logs).

(** *** export async function POST *)

(** [v || null] *)
Definition or_null (v : option JsValue) : JsValue :=
  if truthy v then default JNull v else JNull.

(** [['info', 'warn', 'error'].includes(level)] *)
Definition is_level (level : option JsValue) : bool :=
  match level with
  | Some (JString s) => existsb (String.eqb s) ["info"; "warn"; "error"]
  | _ => false
  end.

(** [level.toUpperCase()] for a level that passed [is_level]. *)
Definition upper_level (level : option JsValue) : string :=
  match level with
  | Some (JString s) => toUpperCase s
  | _ => ""
  end.

Definition POST_try : M NextResponse :=
  emit RequestJson;;;
  logEntry <- await (w_json w);;
  level <- await (property logEntry "level");;
  message <- await (property logEntry "message");;
  (if negb (truthy level) || negb (truthy message)
   then return_ (JsonError "Level and message are required" 400)
   else ret tt);;;
  (if negb (is_level level)
   then return_ (JsonError "Invalid log level" 400)
   else ret tt);;;
  (* { timestamp: new Date().toISOString(), ...logEntry } *)
  let completeLogEntry :=
    spread logEntry ∪ {[ "timestamp" := JString (w_now w) ]} in
  let row := {|
    row_timestamp := completeLogEntry !! "timestamp";
    row_level := completeLogEntry !! "level";
    row_message := completeLogEntry !! "message";
    row_url := or_null (completeLogEntry !! "url");
    row_ip := or_null (completeLogEntry !! "ip");
    row_userAgent := or_null (completeLogEntry !! "userAgent");
    row_responseTime := or_null (completeLogEntry !! "responseTime");
    row_statusCode := or_null (completeLogEntry !! "statusCode");
  |} in
  emit (SqlInsert row);;;
  result <- await (w_insert w row);;
  modify (store_row row);;;
  emit (ConsoleLog ("[" +:+ upper_level level +:+ "]") message);;;
  inserted <- first_row result;;
  logId <- await (property inserted "id");;
  return_ (JsonCreated logId (completeLogEntry !! "timestamp")).

Definition POST_catch (error : JsError) : M NextResponse :=
  emit (ConsoleError "Error creating log entry:" error);;;
  return_ (JsonError "Failed to create log entry" 500).

Definition POST (logs : list LogRow) : Settled NextResponse * State :=
  call (try_catch POST_try POST_catch) (start logs).

End Handlers.

(** *** Vocabulary of the statements *)

(** [if (value)] for a search parameter. *)
Definition given (value : option string) : bool :=
  match value with
  | Some v => negb (String.eqb v "")
  | None => false
  end.

(** The value PostgreSQL binds to the placeholder [$i]: the [i]-th
    parameter of the call. *)
Definition bound (parameters : list SqlParam) (i : nat) : option SqlParam :=
  match i with
  | O => None
  | S k => parameters !! k
  end.

(** The filters given, in the order GET looks at them. *)
Definition given_values (q : Query) : list string :=
  List.filter (fun v => negb (String.eqb v ""))
    (omap id [q_level q; q_startDate q; q_endDate q]).

(** The entry POST inserts for an accepted body. *)
Definition entry_of (w : World) (fields : gmap string JsValue) : LogRow :=
  let completeLogEntry := fields ∪ {[ "timestamp" := JString (w_now w) ]} in
  {| row_timestamp := completeLogEntry !! "timestamp";
     row_level := completeLogEntry !! "level";
     row_message := completeLogEntry !! "message";
     row_url := or_null (completeLogEntry !! "url");
     row_ip := or_null (completeLogEntry !! "ip");
     row_userAgent := or_null (completeLogEntry !! "userAgent");
     row_responseTime := or_null (completeLogEntry !! "responseTime");
     row_statusCode := or_null (completeLogEntry !! "statusCode") |}.

End LogsRoute.

(** ** A runtime to evaluate on

    [Fragment] implements the runtime for a fragment of its inputs, on which
    it agrees with ECMAScript and the URL standard: patterns without syntax
    characters, which denote themselves; [http(s)://host/...] URLs whose
    host is a domain name in lower case, its labels made of letters,
    digits and hyphens and starting with a letter, none of them in
    Punycode (so no port, no user information and no host that the
    standard reads as a number or an IPv4 address); ASCII bodies.  It
    refuses everything else, among it what the standards refuse too, such
    as the pattern of an unclosed group or a URL without scheme; the
    evaluations use no input outside the fragment that the standards
    accept.  The theorems below hold for every runtime; only evaluations
    at concrete inputs use this one. *)

Module Fragment.

Definition syntax_characters : list ascii :=
  ["^"; "$"; "\"; "."; "*"; "+"; "?"; "("; ")"; "["; "]"; "{"; "}"; "|"]%char.

Definition is_syntax_character (c : ascii) : bool :=
  existsb (Ascii.eqb c) syntax_characters.

Definition compile (p : string) : option string :=
  if SW.all_chars (fun c => negb (is_syntax_character c)) p
  then Some p else None.

(** GetSubstitution for a match without capture groups: [$$], [$&],
    [$`] and [$'] are expanded, any other [$] stands for itself. *)
Fixpoint expand (template matched before after : string) : string :=
  match template with
  | EmptyString => EmptyString
  | String c rest =>
      if Ascii.eqb c "$" then
        match rest with
        | EmptyString => String c EmptyString
        | String d rest' =>
            if Ascii.eqb d "$" then String "$" (expand rest' matched before after)
            else if Ascii.eqb d "&" then matched +:+ expand rest' matched before after
            else if Ascii.eqb d "`" then before +:+ expand rest' matched before after
            else if Ascii.eqb d "'" then after +:+ expand rest' matched before after
            else String c (expand rest matched before after)
        end
      else String c (expand rest matched before after)
  end.

(** Replace every occurrence of the literal [p], scanning left to right;
    [skip] counts the characters of the current match still to pass over
    and [before] is the text already scanned. *)
Fixpoint replace_from (p r before : string) (skip : nat) (s : string) : string :=
  match s with
  | EmptyString =>
      if (skip =? 0)%nat && String.eqb p "" then expand r p before "" else ""
  | String c s' =>
      let before' := before +:+ String c EmptyString in
      match skip with
      | S k => replace_from p r before' k s'
      | O =>
          if startsWith s p then
            expand r p before (slice (String.length p) s) +:+
            (if String.eqb p ""
             then String c (replace_from p r before' 0 s')
             else replace_from p r before' (String.length p - 1) s')
          else String c (replace_from p r before' 0 s')
      end
  end.

Definition replaceAll (s p r : string) : string := replace_from p r "" 0 s.

Definition host_char (c : ascii) : bool :=
  let n := nat_of_ascii c in
  ((Nat.leb 97 n && Nat.leb n 122) || (Nat.leb 48 n && Nat.leb n 57) ||
   Ascii.eqb c "." || Ascii.eqb c "-")%bool.

Fixpoint authority (s : string) : string :=
  match s with
  | EmptyString => EmptyString
  | String c s' =>
      if (Ascii.eqb c "/" || Ascii.eqb c "?" || Ascii.eqb c "#")%bool
      then EmptyString else String c (authority s')
  end.

Definition lower_letter (c : ascii) : bool :=
  let n := nat_of_ascii c in (Nat.leb 97 n && Nat.leb n 122)%bool.

(** Every label is non-empty and starts with a letter. *)
Fixpoint labels_named (at_start : bool) (host : string) : bool :=
  match host with
  | EmptyString => negb at_start
  | String c rest =>
      if Ascii.eqb c "."
      then (negb at_start && labels_named true rest)%bool
      else ((negb at_start || lower_letter c) && labels_named false rest)%bool
  end.

Definition parse_url (s : string) : option URL :=
  let after_scheme :=
    if startsWith s "https://" then Some (slice 8 s)
    else if startsWith s "http://" then Some (slice 7 s)
    else None in
  match after_scheme with
  | None => None
  | Some rest =>
      let host := authority rest in
      if (SW.all_chars host_char host && labels_named true host &&
          negb (includes host "xn--"))%bool
      then Some {| hostname := host |} else None
  end.

Definition token_char (c : ascii) : bool :=
  let n := nat_of_ascii c in
  ((Nat.leb 97 n && Nat.leb n 122) || (Nat.leb 65 n && Nat.leb n 90) ||
   (Nat.leb 48 n && Nat.leb n 57) || Ascii.eqb c "-")%bool.

Definition valid_header (entry : string * string) : bool :=
  (negb (String.eqb (fst entry) "") && SW.all_chars token_char (fst entry) &&
   SW.all_chars SW.printable (snd entry))%bool.

Definition request_valid (u m : string) (h : gmap string string)
    (b : option string) : bool :=
  (match parse_url u with Some _ => true | None => false end &&
   existsb (String.eqb m) ["GET"; "HEAD"; "POST"; "PUT"; "DELETE"; "PATCH"; "OPTIONS"] &&
   forallb valid_header (map_to_list h) &&
   match b with
   | None => true
   | Some _ => negb (String.eqb m "GET" || String.eqb m "HEAD")
   end)%bool.

Lemma includes_cons_false c s p :
  includes (String c s) p = false ->
  startsWith (String c s) p = false /\ includes s p = false.
Proof.
  cbn [includes]. intros H. apply orb_false_iff in H. exact H.
Qed.

Lemma replace_from_no_match p r s :
  includes s p = false -> forall before, replace_from p r before 0 s = s.
Proof.
  induction s as [|c s IH]; intros H before.
  - destruct p; [discriminate H | reflexivity].
  - apply includes_cons_false in H as [Hs Hi].
    cbn [replace_from]. rewrite Hs. f_equal. now apply IH.
Qed.

#[export] Instance runtime : Runtime := {|
  RegExp := string;
  RegExp_new := compile;
  RegExp_test := fun re s => includes s re;
  String_replace := replaceAll;
  String_replace_no_match :=
    fun re s r H => replace_from_no_match re r s H "";
  URL_new := parse_url;
  URL_new_empty := eq_refl;
  Request_valid := request_valid;
  TextDecoder_decode := fun buffer => buffer;
|}.

(** A cache keyed by the URL of GET requests. *)
#[export] Instance cache_api : SW.CacheAPI := {|
  SW.CacheStorage := gmap string SW.Response;
  SW.caches_match := fun c request =>
    if String.eqb (SW.method request) "GET" then c !! SW.url request else None;
  SW.cache_put := fun c request response =>
    if (String.eqb (SW.method request) "GET" &&
        negb (SW.status response =? 206))%bool
    then <[SW.url request := response]> c else c;
|}.

End Fragment.

(** ** Worlds and requests to evaluate at *)

Module Scenario.
Import Route Fragment.

(** A request for [u] without method, headers or body, as the page and the
    direct entry point send it; the origin answers every fetch with
    [origin]; an INSERT that binds goes through; every random draw is 0. *)
Definition world (config : Settled ConfigData) (u : string)
    (origin : Settled Response) : World := {|
  w_config := config;
  w_body := Fulfilled {| pb_url := Some u; pb_method := None;
                         pb_headers := None; pb_body := None |};
  w_fetch := fun _ => origin;
  w_now := 1700000000000;
  w_insert := fun _ => Fulfilled tt;
  w_random := fun _ => 0%nat;
|}.

Definition config (on : bool) (cap : Z) (allowed blocked_ : list string)
    (rules : list TransformRule) : ProxyConfig := {|
  enabled := on;
  cacheTTL := 3600;
  maxContentLength := cap;
  allowedDomains := allowed;
  blockedDomains := blocked_;
  transformRules := rules;
|}.

Definition page (type_ body : string) : Response := {|
  resp_status := 200;
  resp_statusText := "OK";
  resp_headers := {[ "content-type" := type_ ]};
  resp_body := Some (Fulfilled body);
|}.

(** The same page, not to be stored. *)
Definition private_page (type_ body : string) : Response := {|
  resp_status := 200;
  resp_statusText := "OK";
  resp_headers := {[ "content-type" := type_; "cache-control" := "no-store" ]};
  resp_body := Some (Fulfilled body);
|}.

Definition blocked_site : string := "https://blocked-site.com/x".
Definition example_site : string := "https://example.com/".

(** Rules whose first pattern is an unclosed group. *)
Definition broken_rules : list TransformRule :=
  [ {| pattern := "("; replacement := ""; type := url |};
    {| pattern := "example"; replacement := "mirror"; type := url |} ].

(** The same for the body. *)
Definition broken_content_rules : list TransformRule :=
  [ {| pattern := "("; replacement := ""; type := content |};
    {| pattern := "hello"; replacement := "bye"; type := content |} ].

(** [blocked_site] after one and after two rounds of domain fronting
    through the first front domain. *)
Definition fronted_once : string :=
  "https://google.com/proxy?url=https%3A%2F%2Fblocked-site.com%2Fx&blocked-site.com/x".

Definition fronted_twice : string :=
  "https://google.com/proxy?url=https%3A%2F%2Fgoogle.com%2Fproxy%3Furl%3Dhttps%253A%252F%252Fblocked-site.com%252Fx%26blocked-site.com%2Fx&google.com/proxy?url=https%3A%2F%2Fblocked-site.com%2Fx&blocked-site.com/x".

(** The service worker's side. *)
Definition page_request : SW.Request := {|
  SW.url := "https://example.com/page";
  SW.method := "GET";
  SW.headers := ∅;
  SW.text := Fulfilled "";
|}.

(** The edge function answers every forwarded request with [reply]. *)
Definition edge (reply : Settled SW.EdgeReply) : SW.World := {|
  SW.w_location := "https://edgeflow.example";
  SW.w_fetch := fun _ => reply;
  SW.w_open := Fulfilled tt;
|}.

(** The same world over a database that refuses every insert. *)
Definition read_only (w : World) : World := {|
  w_config := w_config w;
  w_body := w_body w;
  w_fetch := w_fetch w;
  w_now := w_now w;
  w_insert := fun _ => Rejected DatabaseError;
  w_random := w_random w;
|}.

End Scenario.

(** ** Worlds for the configuration and the logs routes *)

Module ConfigScenario.
Import Json ConfigRoute.

Definition at_second (n : nat) : string := "2024-01-01T00:00:0" +:+ pretty n +:+ ".000Z".

(** The database is up and its column [config] is a JSON column; Edge
    Config answers every read with [edgeConfig]; the request body is
    [body]; the insert into [proxy_logs] settles as [logged]. *)
Definition world (edgeConfig : Settled (option JsValue)) (body : Settled JsValue)
    (logged : Settled unit) : World := {|
  w_select := Fulfilled tt;
  w_column := fun document => document;
  w_edge := fun _ => edgeConfig;
  w_json := body;
  w_upsert := fun _ => Fulfilled tt;
  w_log_insert := fun _ => logged;
  w_now := at_second;
|}.

(** An update of one field, with a number and with a string for it. *)
Definition shorter_ttl : JsValue := JObject {[ "cacheTTL" := JNumber 60 ]}.
Definition quoted_ttl : JsValue := JObject {[ "cacheTTL" := JString "60" ]}.

End ConfigScenario.

Module LogsScenario.
Import Json LogsRoute.

Definition digit (c : ascii) : option Z :=
  let n := nat_of_ascii c in
  if (Nat.leb 48 n && Nat.leb n 57)%bool then Some (Z.of_nat (n - 48)) else None.

Fixpoint digits (acc : Z) (s : string) : Number :=
  match s with
  | EmptyString => Some acc
  | String c s' =>
      match digit c with
      | Some d => digits (10 * acc + d) s'
      | None => None
      end
  end.

(** [parseInt] on the strings it is used on below: decimal digits only. *)
Definition parse_decimal (s : string) : Number :=
  match s with
  | EmptyString => None
  | _ => digits 0 s
  end.

(** The table counts [total] entries and the page query finds [found];
    the request body is [body]; the insert returns the rows [returned]. *)
Definition world (total : string) (found : list JsValue) (body : Settled JsValue)
    (returned : Settled (list JsValue)) : World := {|
  w_count := fun _ _ => Fulfilled [total];
  w_logs := fun _ _ => Fulfilled found;
  w_json := body;
  w_insert := fun _ => returned;
  w_now := "2024-01-01T00:00:00.000Z";
|}.

Definition errors_page : Query := {|
  q_level := Some "error";
  q_limit := Some "10";
  q_offset := Some "20";
  q_startDate := None;
  q_endDate := None;
|}.

(** The same request for another level, written by an attacker. *)
Definition hostile_page : Query := {|
  q_level := Some "x' OR 1=1; --";
  q_limit := Some "10";
  q_offset := Some "20";
  q_startDate := None;
  q_endDate := None;
|}.

(** An entry dated by its sender. *)
Definition backdated : gmap string JsValue :=
  {[ "level" := JString "info";
     "message" := JString "hello";
     "timestamp" := JString "1999-12-31T23:59:59.000Z" ]}.

End LogsScenario.

(** * The handler against its specification *)

Section RouteFacts.
Import Route.
Context `{RT : Runtime}.

(** Unfold one layer of the monad. *)
Ltac step :=
  cbv beta iota delta [bind emit modify await ret return_ throw get_state];
  cbn [negb].

(** ** The service switch *)

Lemma prepare_disabled (w : World) (v : ConfigData) (s : State) :
  w_config w = Fulfilled v ->
  enabled (config_of v) = false ->
  prepare w s =
    (Return (JsonError "Proxy service is disabled" 503), log_event EdgeConfigGet s).
Proof.
  intros Hcfg Hoff. unfold prepare. step. rewrite Hcfg. step. rewrite Hoff.
  reflexivity.
Qed.

(** C10: when the configuration the request is served under has
    [enabled = false], POST answers 503 'Proxy service is disabled' and the
    only call it has made is the configuration read: the request body is
    never read, so nothing about the request (missing URL, malformed URL,
    blocked domain, unreadable body) can change the answer. *)
Theorem POST_disabled_masks_request (w : World) (v : ConfigData)
    (table : list CacheRow) :
  w_config w = Fulfilled v ->
  enabled (config_of v) = false ->
  POST w table =
    (Fulfilled (JsonError "Proxy service is disabled" 503),
     {| trace := [EdgeConfigGet]; proxy_cache := table; draws := 0 |}).
Proof.
  intros Hcfg Hoff. unfold POST, call, try_catch, POST_try.
  unfold bind at 1. rewrite (prepare_disabled w v _ Hcfg Hoff). reflexivity.
Qed.

(** ** The checks before the fetch *)

Lemma valid_url_nonempty (u : string) (target : URL) :
  URL_new u = Some target -> String.eqb u "" = false.
Proof.
  intros H. destruct (String.eqb_spec u "") as [->|]; [|reflexivity].
  rewrite URL_new_empty in H. discriminate.
Qed.

Lemma prepare_blocked (w : World) v b u target (s : State) :
  w_config w = Fulfilled v ->
  enabled (config_of v) = true ->
  w_body w = Fulfilled b ->
  pb_url b = Some u ->
  URL_new u = Some target ->
  blocked (config_of v) target = true ->
  prepare w s =
    (Return (JsonError "Domain is blocked" 403),
     log_event RequestJson (log_event EdgeConfigGet s)).
Proof.
  intros Hcfg Hon Hbody Hurl Hparse Hblocked. unfold prepare. step.
  rewrite Hcfg. step. rewrite Hon. step. rewrite Hbody. step. rewrite Hurl.
  rewrite (valid_url_nonempty _ _ Hparse), Hparse. step.
  unfold blocked in Hblocked. rewrite Hblocked. reflexivity.
Qed.

Lemma prepare_checked (w : World) v b u target (s : State) :
  w_config w = Fulfilled v ->
  enabled (config_of v) = true ->
  w_body w = Fulfilled b ->
  pb_url b = Some u ->
  URL_new u = Some target ->
  blocked (config_of v) target = false ->
  not_allowed (config_of v) target = false ->
  prepare w s =
    (proxyRequest <- proxyRequest_for w (config_of v) b u;;
     ret (config_of v, u, proxyRequest))
      (log_event RequestJson (log_event EdgeConfigGet s)).
Proof.
  intros Hcfg Hon Hbody Hurl Hparse Hblocked Hallowed. unfold prepare. step.
  rewrite Hcfg. step. rewrite Hon. step. rewrite Hbody. step. rewrite Hurl.
  rewrite (valid_url_nonempty _ _ Hparse), Hparse. step.
  unfold blocked in Hblocked. rewrite Hblocked. step.
  unfold not_allowed in Hallowed. rewrite Hallowed. reflexivity.
Qed.

(** C1 (amended): under an enabled configuration, a request whose URL
    parses and whose hostname contains an entry of [blockedDomains] is
    answered 403 'Domain is blocked', whatever [allowedDomains] holds; the
    handler has then read the configuration and the request body and made
    no other call, in particular no fetch. *)
Theorem POST_blocked_domain (w : World) v b u target (table : list CacheRow) :
  w_config w = Fulfilled v ->
  enabled (config_of v) = true ->
  w_body w = Fulfilled b ->
  pb_url b = Some u ->
  URL_new u = Some target ->
  existsb (fun domain => includes (hostname target) domain)
    (blockedDomains (config_of v)) = true ->
  POST w table =
    (Fulfilled (JsonError "Domain is blocked" 403),
     {| trace := [EdgeConfigGet; RequestJson];
        proxy_cache := table; draws := 0 |}).
Proof.
  intros Hcfg Hon Hbody Hurl Hparse Hblocked.
  unfold POST, call, try_catch, POST_try. unfold bind at 1.
  rewrite (prepare_blocked w v b u target _ Hcfg Hon Hbody Hurl Hparse Hblocked).
  reflexivity.
Qed.

(** ** What the engine does to the state *)

Lemma RuleType_eqb_eq (a b : RuleType) : RuleType_eqb a b = true <-> a = b.
Proof. destruct a, b; cbn; split; congruence. Qed.

Lemma apply_rules_outcome t rules : forall text (s : State),
  exists o, apply_rules t rules text s = (o, s) /\
            (o = Throw SyntaxError \/ exists text', o = Val text').
Proof.
  induction rules as [|rule rest IH]; intros text s; cbn [apply_rules].
  - eexists. split; [reflexivity | right; eauto].
  - destruct (RuleType_eqb (type rule) t); [|apply IH].
    destruct (RegExp_new (pattern rule)); [apply IH|].
    eexists. split; [reflexivity | left; reflexivity].
Qed.

Lemma apply_rules_invalid t rules :
  Exists (invalid_rule t) rules ->
  forall text (s : State), apply_rules t rules text s = (Throw SyntaxError, s).
Proof.
  induction rules as [|rule rest IH]; intros Hex text s.
  - inversion Hex.
  - cbn [apply_rules].
    apply Exists_cons in Hex as [[Htype Hnone] | Hrest].
    + apply RuleType_eqb_eq in Htype. rewrite Htype, Hnone. reflexivity.
    + destruct (RuleType_eqb (type rule) t); [|now apply IH].
      destruct (RegExp_new (pattern rule)); [now apply IH | reflexivity].
Qed.

Lemma only_draws_refl s : only_draws s s.
Proof. split; reflexivity. Qed.

Lemma only_draws_next s s' : only_draws s s' -> only_draws s (next_draw s').
Proof. intros [Ht Hc]. split; assumption. Qed.

Lemma rewriteUrl_effect (w : World) config u (s : State) :
  exists o s', rewriteUrl w config u s = (o, s') /\ only_draws s s' /\
               (o = Throw SyntaxError \/ exists u', o = Val u').
Proof.
  unfold rewriteUrl. step.
  destruct (apply_rules_outcome url (transformRules config) u s)
    as [o [-> [-> | [u' ->]]]].
  - do 2 eexists. split; [reflexivity|]. split; [apply only_draws_refl | now left].
  - destruct (shouldApplyDomainFronting u).
    + unfold applyDomainFronting, random_below. step.
      do 2 eexists. split; [reflexivity|].
      split; [apply only_draws_next, only_draws_refl | right; eauto].
    + do 2 eexists. split; [reflexivity|].
      split; [apply only_draws_refl | right; eauto].
Qed.

Lemma sanitizeHeaders_effect (w : World) (h : gmap string string) (s : State) :
  exists h', sanitizeHeaders w h s = (Val h', next_draw (next_draw (next_draw s))).
Proof.
  unfold sanitizeHeaders, generateRandomUserAgent, generateRandomIP, random_below.
  step. eexists. reflexivity.
Qed.

Lemma proxyRequest_for_effect (w : World) config b u (s : State) :
  exists o s', proxyRequest_for w config b u s = (o, s') /\
    proxy_cache s' = proxy_cache s /\
    ((exists e, o = Throw e) \/
     (exists req message, o = Val req /\
        trace s' = (trace s ++ [ConsoleLog message])%list)).
Proof.
  unfold proxyRequest_for.
  destruct (rewriteUrl_effect w config u s) as [o [s1 [Hrw [[Ht1 Hc1] Ho]]]].
  unfold bind at 1. rewrite Hrw. destruct Ho as [-> | [u' ->]].
  - do 2 eexists. split; [reflexivity|]. split; [assumption | left; eauto].
  - destruct (sanitizeHeaders_effect w (default ∅ (pb_headers b)) s1) as [h' Hsan].
    unfold bind at 1. rewrite Hsan. step.
    destruct (Request_valid _ _ _ _).
    + do 2 eexists. split; [reflexivity|]. cbn. split; [assumption|].
      right. do 2 eexists. split; [reflexivity|]. now rewrite Ht1.
    + do 2 eexists. split; [reflexivity|]. cbn. split; [assumption | left; eauto].
Qed.

(** When the checks pass, the handler has read the configuration and the
    body, logged one line, and touched nothing else. *)
Lemma prepare_reaches_fetch (w : World) config u req (s s1 : State) :
  prepare w s = (Val (config, u, req), s1) ->
  exists v b message,
    w_config w = Fulfilled v /\ config = config_of v /\
    w_body w = Fulfilled b /\ pb_url b = Some u /\
    proxy_cache s1 = proxy_cache s /\
    trace s1 =
      (trace s ++ [EdgeConfigGet; RequestJson; ConsoleLog message])%list.
Proof.
  unfold prepare. step.
  destruct (w_config w) as [v|e]; step; [|discriminate].
  destruct (enabled (config_of v)); step; [|discriminate].
  destruct (w_body w) as [b|e]; step; [|discriminate].
  destruct (pb_url b) as [u0|] eqn:Hurl; [|discriminate].
  destruct (String.eqb u0 ""); [discriminate|].
  destruct (URL_new u0) as [target|]; step; [|discriminate].
  destruct (existsb _ (blockedDomains _)); step; [discriminate|].
  destruct (_ && _); step; [discriminate|].
  destruct (proxyRequest_for_effect w (config_of v) b u0
              (log_event RequestJson (log_event EdgeConfigGet s)))
    as [o [s' [Hreq [Hcache Ho]]]].
  rewrite Hreq. destruct Ho as [[e ->] | [req0 [message [-> Htrace]]]];
    [discriminate|].
  intros H. injection H as <- <- <- <-.
  exists v, b, message. repeat split; try reflexivity; try assumption.
  rewrite Htrace. cbn [trace log_event]. now rewrite <- !app_assoc.
Qed.

(** ** After the fetch *)

Lemma transformContent_outcome config body contentType (s : State) :
  exists o, transformContent config body contentType s =
              (o, log_event (CallTransformContent body) s) /\
            (o = Throw SyntaxError \/ exists text, o = Val text).
Proof.
  unfold transformContent. step.
  destruct (length (transformRules config) =? 0)%nat.
  - eexists. split; [reflexivity | right; eauto].
  - apply apply_rules_outcome.
Qed.

Lemma transformContent_invalid config body contentType (s : State) :
  Exists (invalid_rule content) (transformRules config) ->
  transformContent config body contentType s =
    (Throw SyntaxError, log_event (CallTransformContent body) s).
Proof.
  intros Hex. unfold transformContent. step.
  destruct (transformRules config) as [|rule rest] eqn:Hrules; [inversion Hex|].
  cbn [length Nat.eqb]. now apply apply_rules_invalid.
Qed.

Lemma POST_after_prepare (w : World) table config u req s1 response :
  prepare w (start table) = (Val (config, u, req), s1) ->
  w_fetch w req = Fulfilled response ->
  POST w table =
    call (try_catch (respond w config u response) POST_catch)
         (log_event (FetchCall req) s1).
Proof.
  intros Hprep Hfetch. unfold POST, call, try_catch, POST_try.
  unfold bind at 1. rewrite Hprep. step. rewrite Hfetch. reflexivity.
Qed.

Lemma POST_of_throw (w : World) table e s1 :
  POST_try w (start table) = (Throw e, s1) ->
  POST w table =
    (Fulfilled (JsonError "Proxy request failed" 500),
     log_event (ConsoleError e) s1).
Proof.
  intros H. unfold POST, call, try_catch. rewrite H. reflexivity.
Qed.

Lemma respond_too_large (w : World) config u response buffer (s : State) :
  resp_body response = Some (Fulfilled buffer) ->
  maxContentLength config <= byteLength buffer ->
  respond w config u response s =
    (Return (JsonError "Content too large" 413),
     log_event (ArrayBuffer buffer) s).
Proof.
  intros Hbody Hlarge. unfold respond. step. rewrite Hbody. step.
  unfold byteLength in Hlarge.
  destruct (Z.ltb_spec (Z.of_nat (String.length buffer)) (maxContentLength config));
    [lia | reflexivity].
Qed.

(** The statement of lines 242-247 has six parameters -- the seventh
    interpolation sits inside the string literal of the interval -- and is
    sent with seven values. *)
Lemma INSERT_never_binds (v1 v2 v3 v4 v5 v6 v7 : SqlValue) :
  placeholders (st_text (sql INSERT_INTO_proxy_cache [v1; v2; v3; v4; v5; v6; v7]))
    = 6%nat /\
  Postgres_binds (sql INSERT_INTO_proxy_cache [v1; v2; v3; v4; v5; v6; v7]) = false.
Proof. split; vm_compute; reflexivity. Qed.

(** How [respond] can end: with an exception, with the 413 answer for a
    body that is not below the cap, or with the payload and the table as
    it was. *)
Lemma respond_outcome (w : World) config u response (s s' : State) o :
  respond w config u response s = (o, s') ->
  (exists e, o = Throw e) \/
  (o = Return (JsonError "Content too large" 413) /\
   exists buffer, resp_body response = Some (Fulfilled buffer) /\
                  maxContentLength config <= byteLength buffer) \/
  (exists p, o = Return (JsonPayload p) /\
     p_cacheable p = isCacheableResponse response /\
     proxy_cache s' = proxy_cache s).
Proof.
  unfold respond.
  match goal with |- context [bind ?m ?k] => set (read := m); set (rest := k) end.
  assert (Hrest : forall body s1 o s',
    proxy_cache s1 = proxy_cache s ->
    rest body s1 = (o, s') ->
    (exists e, o = Throw e) \/
    (exists p, o = Return (JsonPayload p) /\
       p_cacheable p = isCacheableResponse response /\
       proxy_cache s' = proxy_cache s)).
  { clear. intros body s1 o s' Hs1. subst rest. cbv beta.
    destruct (transformContent_outcome config body
                (header_or response "content-type" "text/plain") s1)
      as [o' [Htc [-> | [text ->]]]];
      unfold bind at 1; rewrite Htc.
    - intros H. inversion H. left; eauto.
    - step. destruct (isCacheableResponse response) eqn:Hcacheable.
      + step. rewrite (proj2 (INSERT_never_binds _ _ _ _ _ _ _)).
        intros H; inversion H. left; eauto.
      + step. intros H; inversion H. right. eexists.
        split; [reflexivity|]. cbn. split; [reflexivity | assumption]. }
  subst read. unfold bind at 1.
  destruct (resp_body response) as [[buffer|e]|]; step.
  - destruct (Z.ltb_spec (Z.of_nat (String.length buffer))
                (maxContentLength config)) as [Hlt | Hge].
    + intros H. apply Hrest in H; [|reflexivity].
      destruct H as [H | H]; [left | right; right]; exact H.
    + intros H. inversion H. right. left. split; [reflexivity|].
      exists buffer. split; [reflexivity | assumption].
  - intros H. inversion H. left; eauto.
  - intros H. apply Hrest in H; [|reflexivity].
    destruct H as [H | H]; [left | right; right]; exact H.
Qed.

(** Whatever happens, the handler answers: nothing escapes its catch. *)
Lemma POST_always_answers (w : World) table :
  exists r, fst (POST w table) = Fulfilled r.
Proof.
  unfold POST, call, try_catch.
  destruct (POST_try w (start table)) as [[r | r | e] s]; cbn; eauto.
Qed.

(** ** The size cap *)

(** C3 (amended): when the handler has fetched an origin response whose
    body arrived as [buffer], then (1) if the byte length of [buffer]
    exceeds [maxContentLength], POST answers 413 'Content too large', and
    its calls are exactly: configuration read, body read, one log line, the
    fetch, and [arrayBuffer()] resolved with the whole of [buffer] --
    [transformContent] is never called, and the body has been buffered in
    full before it is rejected; (2) if the byte length is below
    [maxContentLength], POST does not answer 413 'Content too large'. *)
Theorem POST_content_too_large (w : World) table config u req s1 response buffer :
  prepare w (start table) = (Val (config, u, req), s1) ->
  w_fetch w req = Fulfilled response ->
  resp_body response = Some (Fulfilled buffer) ->
  (maxContentLength config < byteLength buffer ->
   exists message,
     POST w table =
       (Fulfilled (JsonError "Content too large" 413),
        {| trace := [EdgeConfigGet; RequestJson; ConsoleLog message;
                     FetchCall req; ArrayBuffer buffer];
           proxy_cache := table;
           draws := draws s1 |})) /\
  (byteLength buffer < maxContentLength config ->
   fst (POST w table) <> Fulfilled (JsonError "Content too large" 413)).
Proof.
  intros Hprep Hfetch Hbody.
  rewrite (POST_after_prepare w table config u req s1 response Hprep Hfetch).
  split.
  - intros Hlarge.
    apply prepare_reaches_fetch in Hprep
      as [v [b [message [_ [_ [_ [_ [Hcache Htrace]]]]]]]].
    exists message. unfold call, try_catch.
    rewrite (respond_too_large w config u response buffer _ Hbody); [|lia].
    destruct s1 as [tr pc dr]. cbn in Hcache, Htrace. subst tr pc. reflexivity.
  - intros Hsmall. unfold call, try_catch.
    destruct (respond w config u response (log_event (FetchCall req) s1))
      as [o s'] eqn:Hrespond.
    apply respond_outcome in Hrespond
      as [[e ->] | [[-> [buffer' [Hbody' Hlarge]]] | [p [-> _]]]].
    + cbn. discriminate.
    + rewrite Hbody in Hbody'. injection Hbody' as <-. lia.
    + cbn. discriminate.
Qed.

(** ** Rules the runtime refuses *)

Lemma respond_invalid_content (w : World) config u response (s : State) :
  Exists (invalid_rule content) (transformRules config) ->
  (resp_body response = None ->
   respond w config u response s =
     (Throw SyntaxError, log_event (CallTransformContent "") s)) /\
  (forall buffer,
     resp_body response = Some (Fulfilled buffer) ->
     byteLength buffer < maxContentLength config ->
     respond w config u response s =
       (Throw SyntaxError,
        log_event (CallTransformContent (TextDecoder_decode buffer))
          (log_event (ArrayBuffer buffer) s))).
Proof.
  intros Hex. split.
  - intros Hbody. unfold respond. unfold bind at 1. rewrite Hbody. step.
    now rewrite transformContent_invalid by assumption.
  - intros buffer Hbody Hsmall. unfold respond. unfold bind at 1.
    rewrite Hbody. step. unfold byteLength in Hsmall.
    destruct (Z.ltb_spec (Z.of_nat (String.length buffer))
                (maxContentLength config)) as [_ | Hge]; [|lia].
    now rewrite transformContent_invalid by assumption.
Qed.

(** C2 (amended): an invalid pattern is not skipped; it aborts the
    request.  For a request that passes the URL and domain checks under an
    enabled configuration: (1) if a rule of type [url] has a pattern the
    runtime refuses, POST answers 500 'Proxy request failed'; the
    SyntaxError is reported through [console.error] and no fetch is made;
    (2) if a rule of type [content] has such a pattern, the request is
    built and fetched, and when the origin answers without a body or with
    a body below the cap, the transformer is called on it and POST answers
    500 'Proxy request failed': its calls are exactly the configuration
    read, the body read, one log line, the fetch, the body's arrival, the
    call of the transformer and the report of the SyntaxError through
    [console.error]; nothing is cached. *)
Theorem POST_invalid_pattern_aborts (w : World) table v b u target :
  w_config w = Fulfilled v ->
  enabled (config_of v) = true ->
  w_body w = Fulfilled b ->
  pb_url b = Some u ->
  URL_new u = Some target ->
  blocked (config_of v) target = false ->
  not_allowed (config_of v) target = false ->
  (Exists (invalid_rule url) (transformRules (config_of v)) ->
   POST w table =
     (Fulfilled (JsonError "Proxy request failed" 500),
      {| trace := [EdgeConfigGet; RequestJson; ConsoleError SyntaxError];
         proxy_cache := table; draws := 0 |})) /\
  (Exists (invalid_rule content) (transformRules (config_of v)) ->
   forall req s1 response,
     prepare w (start table) = (Val (config_of v, u, req), s1) ->
     w_fetch w req = Fulfilled response ->
     exists message,
       (resp_body response = None ->
        POST w table =
          (Fulfilled (JsonError "Proxy request failed" 500),
           {| trace := [EdgeConfigGet; RequestJson; ConsoleLog message;
                        FetchCall req; CallTransformContent "";
                        ConsoleError SyntaxError];
              proxy_cache := table; draws := draws s1 |})) /\
       (forall buffer,
          resp_body response = Some (Fulfilled buffer) ->
          byteLength buffer < maxContentLength (config_of v) ->
          POST w table =
            (Fulfilled (JsonError "Proxy request failed" 500),
             {| trace := [EdgeConfigGet; RequestJson; ConsoleLog message;
                          FetchCall req; ArrayBuffer buffer;
                          CallTransformContent (TextDecoder_decode buffer);
                          ConsoleError SyntaxError];
                proxy_cache := table; draws := draws s1 |}))).
Proof.
  intros Hcfg Hon Hbody Hurl Hparse Hblocked Hallowed.
  pose proof (prepare_checked w v b u target (start table)
                Hcfg Hon Hbody Hurl Hparse Hblocked Hallowed) as Hprep.
  split.
  - intros Hex.
    rewrite (POST_of_throw w table SyntaxError
               (log_event RequestJson (log_event EdgeConfigGet (start table))));
      [reflexivity|].
    unfold POST_try. unfold bind at 1. rewrite Hprep.
    unfold bind at 1. unfold proxyRequest_for, rewriteUrl.
    unfold bind at 1. unfold bind at 1.
    rewrite apply_rules_invalid by assumption. reflexivity.
  - intros Hex req s1 response Hready Hfetch.
    rewrite (POST_after_prepare w table (config_of v) u req s1 response
               Hready Hfetch).
    destruct (prepare_reaches_fetch w _ _ _ _ _ Hready)
      as [v' [b' [message [_ [_ [_ [_ [Hcache Htrace]]]]]]]].
    destruct (respond_invalid_content w (config_of v) u response
                (log_event (FetchCall req) s1) Hex) as [Hnone Hsome].
    exists message. unfold call, try_catch, POST_catch.
    destruct s1 as [tr pc dr]. cbn in Hcache, Htrace. subst tr pc.
    split.
    + intros Hnobody. rewrite (Hnone Hnobody). reflexivity.
    + intros buffer Harrived Hsmall. rewrite (Hsome buffer Harrived Hsmall).
      reflexivity.
Qed.

(** ** The configuration store *)

Lemma config_of_not_object (v : ConfigData) :
  (forall c, v <> CObject c) -> config_of v = DEFAULT_CONFIG.
Proof.
  intros Hv. unfold config_of.
  destruct v as [| |[]| | | |c]; try reflexivity.
  - destruct (truthy (CNumber n)); reflexivity.
  - destruct (truthy (CString s)); reflexivity.
  - now destruct (Hv c).
Qed.

(** C8 (amended): when the configuration store answers with a value that
    is not a configuration object ([undefined], [null], a boolean, a
    number, a string or an array), POST serves the request exactly as it
    would under [DEFAULT_CONFIG]: same answer, same calls, same table. *)
Theorem POST_config_fallback (w : World) table v :
  w_config w = Fulfilled v ->
  (forall c, v <> CObject c) ->
  POST w table = POST (with_config w (Fulfilled (CObject DEFAULT_CONFIG))) table.
Proof.
  intros Hcfg Hv. apply config_of_not_object in Hv.
  destruct w as [wc wb wf wn wi wr]. cbn in Hcfg. subst wc.
  unfold POST, POST_try, prepare, with_config. cbn [w_config w_body].
  step. rewrite Hv. reflexivity.
Qed.

Lemma POST_config_store_throws (w : World) table e :
  w_config w = Rejected e ->
  POST w table =
    (Fulfilled (JsonError "Proxy request failed" 500),
     {| trace := [EdgeConfigGet; ConsoleError e];
        proxy_cache := table; draws := 0 |}).
Proof.
  intros Hcfg.
  rewrite (POST_of_throw w table e (log_event EdgeConfigGet (start table)));
    [reflexivity|].
  unfold POST_try, prepare. step. rewrite Hcfg. reflexivity.
Qed.

(** ** Rewriting a rewritten URL *)

Lemma apply_rules_no_match t rules text (s : State) :
  ~ Exists (invalid_rule t) rules ->
  matches_none t rules text ->
  apply_rules t rules text s = (Val text, s).
Proof.
  induction rules as [|rule rest IH]; intros Hvalid Hnone; [reflexivity|].
  cbn [apply_rules].
  assert (Hrest : apply_rules t rest text s = (Val text, s)).
  { apply IH.
    - intros Hex. apply Hvalid. now apply Exists_cons_tl.
    - intros r re Hin. apply Hnone. now right. }
  destruct (RuleType_eqb (type rule) t) eqn:Ht; [|exact Hrest].
  apply RuleType_eqb_eq in Ht.
  destruct (RegExp_new (pattern rule)) as [re|] eqn:Hre.
  - rewrite String_replace_no_match; [exact Hrest|].
    apply (Hnone rule re); [now left | assumption | assumption].
  - exfalso. apply Hvalid. apply Exists_cons_hd. split; assumption.
Qed.

Lemma rewriteUrl_value_valid (w : World) config u u' (s s' : State) :
  rewriteUrl w config u s = (Val u', s') ->
  ~ Exists (invalid_rule url) (transformRules config).
Proof.
  intros Hrw Hex. unfold rewriteUrl in Hrw. unfold bind at 1 in Hrw.
  rewrite apply_rules_invalid in Hrw by assumption. discriminate.
Qed.

(** C9 (amended): if [rewriteUrl(u)] returns [u'], no rule of type [url]
    matches [u'], and [u'] contains none of the censored domains (so that
    domain fronting does not apply to it), then [rewriteUrl(u')] returns
    [u'] again, makes no random draw and leaves the state as it was. *)
Theorem rewriteUrl_fixed_point (w : World) config u u' (s s' : State) :
  rewriteUrl w config u s = (Val u', s') ->
  matches_none url (transformRules config) u' ->
  shouldApplyDomainFronting u' = false ->
  forall s'' : State, rewriteUrl w config u' s'' = (Val u', s'').
Proof.
  intros Hrw Hnone Hfront s''.
  apply rewriteUrl_value_valid in Hrw.
  unfold rewriteUrl. unfold bind at 1.
  rewrite apply_rules_no_match by assumption.
  rewrite Hfront. reflexivity.
Qed.

(** ** Cache eligibility *)

(** C4 (amended): [isCacheableResponse] is false exactly when the status
    is at least 400, or the cache-control header contains 'no-cache' or
    'no-store', or the content-type header contains 'application/json' as
    a substring; in every other case it is true.  An absent header counts
    as the empty string. *)
Theorem isCacheableResponse_spec (response : Response) :
  isCacheableResponse response = false <->
  (400 <= resp_status response \/
   includes (header_or response "cache-control" "") "no-cache" = true \/
   includes (header_or response "cache-control" "") "no-store" = true \/
   includes (header_or response "content-type" "") "application/json" = true).
Proof.
  unfold isCacheableResponse.
  destruct (Z.geb_spec (resp_status response) 400) as [Hge | Hlt].
  - split; [intros _; left; lia | reflexivity].
  - destruct (includes (header_or response "cache-control" "") "no-cache");
    destruct (includes (header_or response "cache-control" "") "no-store");
    destruct (includes (header_or response "content-type" "") "application/json");
    cbn; split; intros H; try reflexivity; try discriminate; auto;
    destruct H as [H | [H | [H | H]]]; try lia; discriminate.
Qed.

(** ** Header sanitising *)

(** With keys compared exactly, [sanitizeHeaders] does what its comments
    say: the three lower-case names are gone, the three proxy headers are
    set, every other entry is kept. *)
Lemma sanitizeHeaders_exact_keys (w : World) (h : gmap string string) (s : State) :
  exists h' s',
    sanitizeHeaders w h s = (Val h', s') /\
    h' !! "cookie" = None /\ h' !! "referer" = None /\ h' !! "origin" = None /\
    (exists ua, h' !! "user-agent" = Some ua /\ In ua userAgents) /\
    (exists a c, (a < 256)%nat /\ (c < 256)%nat /\
       h' !! "x-forwarded-for" =
         Some ("192.168." +:+ pretty a +:+ "." +:+ pretty c)) /\
    h' !! "x-proxy-engine" = Some "edgeflow-scramjet" /\
    (forall k, ~ In k ["cookie"; "referer"; "origin"; "user-agent";
                       "x-forwarded-for"; "x-proxy-engine"] ->
               h' !! k = h !! k).
Proof.
  unfold sanitizeHeaders, generateRandomUserAgent, generateRandomIP, random_below.
  step. do 2 eexists. split; [reflexivity|].
  repeat split.
  - rewrite !lookup_insert_ne by discriminate.
    now rewrite !lookup_delete_ne, lookup_delete_eq by discriminate.
  - rewrite !lookup_insert_ne by discriminate.
    now rewrite !lookup_delete_ne, lookup_delete_eq by discriminate.
  - rewrite !lookup_insert_ne by discriminate. now rewrite lookup_delete_eq.
  - eexists. split.
    + rewrite !lookup_insert_ne by discriminate. apply lookup_insert_eq.
    + apply nth_In. apply Nat.mod_upper_bound. discriminate.
  - exists (w_random w (draws (next_draw s)) mod 256)%nat,
           (w_random w (draws (next_draw (next_draw s))) mod 256)%nat.
    split; [apply Nat.mod_upper_bound; discriminate|].
    split; [apply Nat.mod_upper_bound; discriminate|].
    rewrite lookup_insert_ne by discriminate. apply lookup_insert_eq.
  - apply lookup_insert_eq.
  - intros k Hk. cbn in Hk.
    rewrite !lookup_insert_ne, !lookup_delete_ne
      by (intros Heq; apply Hk; subst k;
          repeat first [left; reflexivity | right]).
    reflexivity.
Qed.

(** C6 (failing input): keys are compared exactly, so a header written
    [Cookie] -- the same header under case-insensitive names -- is not
    removed: whatever the random draws, the sanitised headers of
    [{"Cookie": "sid=1"}] still carry [Cookie: sid=1]. *)
Theorem sanitizeHeaders_keeps_capitalised_cookie (w : World) (s : State) :
  exists h' s',
    sanitizeHeaders w {[ "Cookie" := "sid=1" ]} s = (Val h', s') /\
    h' !! "Cookie" = Some "sid=1" /\
    toLowerCase "Cookie" = "cookie".
Proof.
  destruct (sanitizeHeaders_exact_keys w {[ "Cookie" := "sid=1" ]} s)
    as [h' [s' [Hrun [_ [_ [_ [_ [_ [_ Hkeep]]]]]]]]].
  exists h', s'. split; [exact Hrun|]. split; [|reflexivity].
  rewrite Hkeep; [apply lookup_singleton_eq|].
  cbn. intros [H | [H | [H | [H | [H | [H | []]]]]]]; discriminate.
Qed.

End RouteFacts.

(** * The service worker against its specification *)

Section WorkerFacts.
Import SW.
Context `{CA : CacheAPI}.

Ltac step :=
  cbv beta iota delta [bind emit modify await ret return_ throw get_state];
  cbn [negb].

Lemma cache_read_log request e (s : State) :
  cache_read request (log_event e s) <->
  cache_read request s \/ e = CachesMatch request.
Proof.
  unfold cache_read. cbn [trace log_event]. rewrite in_app_iff. cbn.
  intuition congruence.
Qed.

Lemma catch_reads_cache request error (s : State) :
  exists s',
    handleProxyRequest_catch request error s =
      (Return (fallback (caches s) request), s') /\
    cache_read request s'.
Proof.
  unfold handleProxyRequest_catch, fallback. step. cbn [caches log_event].
  destruct (caches_match (caches s) request); eexists; (split; [reflexivity|]);
    rewrite ?cache_read_log; auto.
Qed.

Ltac not_read :=
  rewrite ?cache_read_log; unfold cache_read, init; cbn [trace In];
  intuition discriminate.

Ltac not_served Hrb :=
  intros [proxied' [rb' [reply' [d' [Hrb' [Hf' [Hok' [Hj' [Hn' Ho']]]]]]]]];
  rewrite Hrb in Hrb'; try discriminate; injection Hrb' as <-;
  try congruence;
  match goal with
  | H : w_fetch _ _ = _ |- _ => rewrite H in Hf'; try discriminate;
                                injection Hf' as <-
  end;
  try congruence;
  match goal with
  | H : reply_json _ = _ |- _ => rewrite H in Hj'; try discriminate;
                                 injection Hj' as <-
  end;
  try congruence;
  match goal with
  | H : Route.p_cacheable _ = true |- _ => specialize (Ho' H); congruence
  end.

(** The try block either builds and returns a response, or throws with
    the cache storage untouched; it never reads the cache. *)
Lemma try_cases (w : World) request storage :
  exists o s1,
    handleProxyRequest_try w request (init storage) = (o, s1) /\
    ~ cache_read request s1 /\
    ((exists proxied, o = Return proxied /\ served w request proxied) \/
     ((exists e, o = Throw e) /\
      ~ (exists proxied, served w request proxied) /\
      caches s1 = storage)).
Proof.
  unfold handleProxyRequest_try.
  match goal with |- context [bind ?m ?k] => set (read := m); set (rest := k) end.
  assert (Hread : exists s0,
    caches s0 = storage /\ ~ cache_read request s0 /\
    read (init storage) =
      (match requestBody_of request with
       | Fulfilled rb => Val rb
       | Rejected e => Throw e
       end, s0)).
  { subst read. unfold requestBody_of.
    destruct (String.eqb (method request) "GET"); step.
    - exists (init storage). repeat split. not_read.
    - destruct (text request); eexists; (split; [|split; [|reflexivity]]);
        try reflexivity; not_read. }
  destruct Hread as [s0 [Hcaches [Hnot Hread]]].
  unfold bind at 1. rewrite Hread. clear Hread. subst rest read.
  destruct (requestBody_of request) as [rb|e] eqn:Hrb.
  2:{ do 2 eexists. split; [reflexivity|]. split; [assumption|]. right.
      split; [eauto|]. split; [not_served Hrb | assumption]. }
  step.
  destruct (w_fetch w (proxyRequest_for w request rb)) as [reply|e] eqn:Hfetch;
    step.
  2:{ do 2 eexists. split; [reflexivity|]. split; [not_read|]. right.
      split; [eauto|]. split; [not_served Hrb | assumption]. }
  destruct (ok reply) eqn:Hok; step.
  2:{ do 2 eexists. split; [reflexivity|]. split; [not_read|]. right.
      split; [eauto|]. split; [not_served Hrb | assumption]. }
  destruct (reply_json reply) as [d|e] eqn:Hjson; step.
  2:{ do 2 eexists. split; [reflexivity|]. split; [not_read|]. right.
      split; [eauto|]. split; [not_served Hrb | assumption]. }
  destruct (Response_new d) as [proxied|e] eqn:Hnew; step.
  2:{ do 2 eexists. split; [reflexivity|]. split; [not_read|]. right.
      split; [eauto|]. split; [not_served Hrb | assumption]. }
  destruct (Route.p_cacheable d) eqn:Hcacheable; step.
  - destruct (w_open w) as [[]|e] eqn:Hopen; step.
    + do 2 eexists. split; [reflexivity|]. split.
      * unfold put_entry, cache_read. cbn [trace].
        fold (cache_read request
                (log_event (CachePut request proxied)
                   (log_event (CachesOpen CACHE_NAME)
                      (log_event ResponseJson
                         (log_event (FetchCall (proxyRequest_for w request rb))
                            (log_event (ConsoleLog
                               ("Sending to edge function: " +:+
                                pr_url (proxyRequest_for w request rb))) s0)))))).
        not_read.
      * left. eexists. split; [reflexivity|].
        exists rb, reply, d. repeat split; try assumption. intros _. assumption.
    + do 2 eexists. split; [reflexivity|]. split; [not_read|]. right.
      split; [eauto|]. split; [not_served Hrb | assumption].
  - do 2 eexists. split; [reflexivity|]. split; [not_read|].
    left. eexists. split; [reflexivity|].
    exists rb, reply, d. repeat split; try assumption. congruence.
Qed.

Lemma served_functional (w : World) request proxied proxied' :
  served w request proxied -> served w request proxied' -> proxied = proxied'.
Proof.
  intros [rb [reply [d [Hrb [Hf [_ [Hj [Hn _]]]]]]]]
         [rb' [reply' [d' [Hrb' [Hf' [_ [Hj' [Hn' _]]]]]]]].
  rewrite Hrb in Hrb'. injection Hrb' as <-.
  rewrite Hf in Hf'. injection Hf' as <-.
  rewrite Hj in Hj'. injection Hj' as <-.
  rewrite Hn in Hn'. now injection Hn'.
Qed.

Lemma served_not_failed (w : World) request proxied requestBody :
  served w request proxied ->
  requestBody_of request = Fulfilled requestBody ->
  ~ forwarding_failed (w_fetch w (proxyRequest_for w request requestBody)).
Proof.
  intros [rb [reply [d [Hrb [Hf [Hok _]]]]]] Hrb' Hfailed.
  rewrite Hrb in Hrb'. injection Hrb' as <-.
  rewrite Hf in Hfailed. cbn in Hfailed. congruence.
Qed.

(** Every request the worker takes on gets a response. *)
Lemma handleProxyRequest_always_answers (w : World) request storage :
  exists r, fst (handleProxyRequest w request storage) = Fulfilled r.
Proof.
  unfold handleProxyRequest, call, try_catch.
  destruct (try_cases w request storage)
    as [o [s1 [Htry [_ [[proxied [-> _]] | [[e ->] _]]]]]]; rewrite Htry.
  - cbn. eauto.
  - destruct (catch_reads_cache request e s1) as [s' [Hcatch _]].
    rewrite Hcatch. cbn. eauto.
Qed.

(** C5 (amended): (1) when the forwarding call fails -- the fetch is
    rejected (network error, timeout) or the edge function answers with a
    non-success status -- the caller receives the response the client-tier
    cache holds for the original request if there is one, and the fixed
    503 'Proxy temporarily unavailable' response otherwise; (2) whenever
    the cache is read, the caller receives that fallback; (3) the cache is
    read exactly when the try block does not run to its end, which besides
    a failed forwarding call covers a request body that cannot be read, a
    reply that is not JSON, a reply no [Response] can be built from and a
    cache that cannot be opened; (4) when every step goes through, the
    caller receives the proxied response and the cache is not read. *)
Theorem handleProxyRequest_fallback (w : World) request storage :
  let result := handleProxyRequest w request storage in
  (forall requestBody,
     requestBody_of request = Fulfilled requestBody ->
     forwarding_failed (w_fetch w (proxyRequest_for w request requestBody)) ->
     fst result = Fulfilled (fallback storage request) /\
     cache_read request (snd result)) /\
  (cache_read request (snd result) ->
   fst result = Fulfilled (fallback storage request)) /\
  (cache_read request (snd result) <->
   ~ exists proxied, served w request proxied) /\
  (forall proxied, served w request proxied -> fst result = Fulfilled proxied).
Proof.
  unfold handleProxyRequest, call, try_catch.
  destruct (try_cases w request storage)
    as [o [s1 [Htry [Hnot [[proxied [-> Hserved]] | [[e ->] [Hns Hcaches]]]]]]];
    rewrite Htry; cbn zeta.
  - cbn [fst snd]. repeat split.
    + exfalso. eapply served_not_failed; eassumption.
    + exfalso. eapply served_not_failed; eassumption.
    + intros Hread. now destruct (Hnot Hread).
    + intros Hread. now destruct (Hnot Hread).
    + intros Hns. destruct Hns. eauto.
    + intros proxied' Hserved'. f_equal.
      eapply served_functional; eassumption.
  - destruct (catch_reads_cache request e s1) as [s' [Hcatch Hread]].
    rewrite Hcatch, Hcaches. cbn [fst snd]. repeat split; try assumption.
    + intros _. assumption.
    + intros _. assumption.
    + intros proxied Hserved. destruct Hns. eauto.
Qed.

End WorkerFacts.

(** * Evaluations on the fragment runtime *)

Section RouteEvaluations.
Import Route Fragment Scenario.

(** *** C10 *)

(** A disabled service answers 503 to a request for a blocked domain. *)
Lemma POST_disabled_masks_request_witness :
  POST (world (Fulfilled (CObject (config false 1048576 [] ["blocked-site.com"] [])))
          blocked_site (Rejected TimeoutError)) [] =
    (Fulfilled (JsonError "Proxy service is disabled" 503),
     {| trace := [EdgeConfigGet]; proxy_cache := []; draws := 0 |}).
Proof.
  apply (POST_disabled_masks_request
           (world (Fulfilled (CObject (config false 1048576 [] ["blocked-site.com"] [])))
              blocked_site (Rejected TimeoutError))
           (CObject (config false 1048576 [] ["blocked-site.com"] [])) []);
    reflexivity.
Defined.

(** *** C1 *)

(** The blocked host is also on the allow-list; the answer is still 403
    'Domain is blocked'. *)
Lemma POST_blocked_domain_witness :
  POST (world (Fulfilled (CObject (config true 1048576 ["blocked-site.com"]
                                     ["blocked-site.com"] [])))
          blocked_site (Rejected TimeoutError)) [] =
    (Fulfilled (JsonError "Domain is blocked" 403),
     {| trace := [EdgeConfigGet; RequestJson]; proxy_cache := []; draws := 0 |}).
Proof.
  apply (POST_blocked_domain
           (world (Fulfilled (CObject (config true 1048576 ["blocked-site.com"]
                                         ["blocked-site.com"] [])))
              blocked_site (Rejected TimeoutError))
           (CObject (config true 1048576 ["blocked-site.com"] ["blocked-site.com"] []))
           {| pb_url := Some blocked_site; pb_method := None;
              pb_headers := None; pb_body := None |}
           blocked_site {| hostname := "blocked-site.com" |} []);
    reflexivity.
Defined.

(** C1 as stated fails: under a configuration with [enabled = false], a
    valid URL whose hostname contains an entry of [blockedDomains] is
    answered 503 'Proxy service is disabled', not 403 'Domain is blocked'. *)
Lemma POST_blocked_domain_counterexample :
  let cfg := config false 1048576 [] ["blocked-site.com"] [] in
  let w := world (Fulfilled (CObject cfg)) blocked_site (Rejected TimeoutError) in
  URL_new blocked_site = Some {| hostname := "blocked-site.com" |} /\
  existsb (fun domain => includes "blocked-site.com" domain) (blockedDomains cfg)
    = true /\
  fst (POST w []) = Fulfilled (JsonError "Proxy service is disabled" 503) /\
  fst (POST w []) <> Fulfilled (JsonError "Domain is blocked" 403).
Proof.
  cbv zeta. repeat split; try reflexivity. vm_compute. discriminate.
Qed.

(** *** C2 *)

(** C2 as stated fails: the first rule's pattern is an unclosed group.  The
    rule is not skipped: the second rule is never applied, no fetch is
    made and the request is answered 500, although the same request
    without the broken rule is rewritten, fetched and served. *)
Lemma POST_invalid_pattern_counterexample :
  let bad := config true 1048576 [] [] broken_rules in
  let good := config true 1048576 [] [] (tl broken_rules) in
  let origin := Fulfilled (private_page "text/html" "hello") in
  RegExp_new "(" = None /\
  POST (world (Fulfilled (CObject bad)) example_site origin) [] =
    (Fulfilled (JsonError "Proxy request failed" 500),
     {| trace := [EdgeConfigGet; RequestJson; ConsoleError SyntaxError];
        proxy_cache := []; draws := 0 |}) /\
  (exists p s,
     POST (world (Fulfilled (CObject good)) example_site origin) [] =
       (Fulfilled (JsonPayload p), s) /\
     p_content p = "hello" /\
     exists req, In (FetchCall req) (trace s) /\
                 req_url req = "https://mirror.com/").
Proof.
  cbv zeta. split; [reflexivity|]. split; [reflexivity|].
  do 2 eexists. split; [vm_compute; reflexivity|]. split; [reflexivity|].
  eexists. split; [right; right; right; left; reflexivity | reflexivity].
Qed.

(** A broken rule for the URL, and a broken rule for the body. *)
Lemma POST_invalid_pattern_aborts_witness :
  POST (world (Fulfilled (CObject (config true 1048576 [] [] broken_rules)))
          example_site (Fulfilled (page "text/html" "hello"))) [] =
    (Fulfilled (JsonError "Proxy request failed" 500),
     {| trace := [EdgeConfigGet; RequestJson; ConsoleError SyntaxError];
        proxy_cache := []; draws := 0 |}) /\
  exists message req,
    POST (world (Fulfilled (CObject (config true 1048576 [] []
                                       broken_content_rules)))
            example_site (Fulfilled (page "text/html" "hello"))) [] =
      (Fulfilled (JsonError "Proxy request failed" 500),
       {| trace := [EdgeConfigGet; RequestJson; ConsoleLog message;
                    FetchCall req; ArrayBuffer "hello";
                    CallTransformContent "hello"; ConsoleError SyntaxError];
          proxy_cache := []; draws := 3 |}) /\
    req_url req = example_site.
Proof.
  split.
  - refine (proj1 (POST_invalid_pattern_aborts
              (world (Fulfilled (CObject (config true 1048576 [] [] broken_rules)))
                 example_site (Fulfilled (page "text/html" "hello")))
              [] (CObject (config true 1048576 [] [] broken_rules))
              {| pb_url := Some example_site; pb_method := None;
                 pb_headers := None; pb_body := None |}
              example_site {| hostname := "example.com" |}
              _ _ _ _ _ _ _) _); try reflexivity.
    apply Exists_cons_hd. split; reflexivity.
  - pose proof (fun Hex req s1 Hready =>
      proj2 (POST_invalid_pattern_aborts
               (world (Fulfilled (CObject (config true 1048576 [] []
                                             broken_content_rules)))
                  example_site (Fulfilled (page "text/html" "hello")))
               [] (CObject (config true 1048576 [] [] broken_content_rules))
               {| pb_url := Some example_site; pb_method := None;
                  pb_headers := None; pb_body := None |}
               example_site {| hostname := "example.com" |}
               eq_refl eq_refl eq_refl eq_refl eq_refl eq_refl eq_refl)
            Hex req s1 (page "text/html" "hello") Hready eq_refl) as H.
    edestruct H as [message [_ Harrived]].
    + apply Exists_cons_hd. split; reflexivity.
    + vm_compute. reflexivity.
    + eexists message, _. split.
      * apply (Harrived "hello"); reflexivity.
      * reflexivity.
Defined.

(** *** C3 *)

(** C3 as stated fails twice over.  With a cap of 4 bytes, a body of
    exactly 4 bytes does not exceed the cap and is answered 413 all the
    same; and a body of 8 bytes is rejected only after [arrayBuffer()] has
    delivered all 8 bytes to the handler. *)
Lemma POST_content_too_large_counterexample :
  let cfg := config true 4 [] [] [] in
  let at_cap :=
    POST (world (Fulfilled (CObject cfg)) example_site
            (Fulfilled (page "text/html" "abcd"))) [] in
  let over_cap :=
    POST (world (Fulfilled (CObject cfg)) example_site
            (Fulfilled (page "text/html" "abcdefgh"))) [] in
  (~ maxContentLength cfg < byteLength "abcd" /\
   fst at_cap = Fulfilled (JsonError "Content too large" 413)) /\
  (maxContentLength cfg < byteLength "abcdefgh" /\
   fst over_cap = Fulfilled (JsonError "Content too large" 413) /\
   In (ArrayBuffer "abcdefgh") (trace (snd over_cap))).
Proof.
  cbv zeta. split; split.
  - vm_compute. discriminate.
  - vm_compute. reflexivity.
  - reflexivity.
  - split; [vm_compute; reflexivity|].
    vm_compute. right. right. right. right. left. reflexivity.
Qed.

Lemma POST_content_too_large_witness :
  fst (POST (world (Fulfilled (CObject (config true 4 [] [] []))) example_site
               (Fulfilled (page "text/html" "abcdefgh"))) []) =
    Fulfilled (JsonError "Content too large" 413).
Proof.
  pose proof (fun cfg u req s1 Hprep =>
    proj1 (POST_content_too_large
             (world (Fulfilled (CObject (config true 4 [] [] []))) example_site
                (Fulfilled (page "text/html" "abcdefgh")))
             [] cfg u req s1 (page "text/html" "abcdefgh") "abcdefgh"
             Hprep eq_refl eq_refl)) as H.
  edestruct H as [message Hm]; [vm_compute; reflexivity | reflexivity | ].
  rewrite Hm. reflexivity.
Defined.

(** *** C8 *)

Lemma POST_config_fallback_witness :
  POST (world (Fulfilled CNull) example_site
          (Fulfilled (private_page "text/html" "hello"))) [] =
  POST (with_config
          (world (Fulfilled CNull) example_site
             (Fulfilled (private_page "text/html" "hello")))
          (Fulfilled (CObject DEFAULT_CONFIG))) [].
Proof.
  apply (POST_config_fallback
           (world (Fulfilled CNull) example_site
              (Fulfilled (private_page "text/html" "hello"))) [] CNull);
    [reflexivity | discriminate].
Defined.

(** C8 as stated fails: when the read of the configuration store throws,
    the handler does not fall back to [DEFAULT_CONFIG]; it answers 500
    without reading the request, although under [DEFAULT_CONFIG] the same
    request is served. *)
Lemma POST_config_fallback_counterexample :
  let w := world (Rejected EdgeConfigError) example_site
             (Fulfilled (private_page "text/html" "hello")) in
  POST w [] =
    (Fulfilled (JsonError "Proxy request failed" 500),
     {| trace := [EdgeConfigGet; ConsoleError EdgeConfigError];
        proxy_cache := []; draws := 0 |}) /\
  exists p s,
    POST (with_config w (Fulfilled (CObject DEFAULT_CONFIG))) [] =
      (Fulfilled (JsonPayload p), s) /\
    p_content p = "hello".
Proof.
  cbv zeta. split; [reflexivity|].
  do 2 eexists. split; [vm_compute; reflexivity | reflexivity].
Qed.

(** *** C9 *)

(** C9 as stated fails: with no rules at all, the rewritten URL matches no
    rule's pattern, yet rewriting it again fronts it a second time. *)
Lemma rewriteUrl_fixed_point_counterexample :
  let w := world (Fulfilled CUndefined) blocked_site (Rejected TimeoutError) in
  transformRules DEFAULT_CONFIG = [] /\
  fst (rewriteUrl w DEFAULT_CONFIG blocked_site (start [])) = Val fronted_once /\
  fst (rewriteUrl w DEFAULT_CONFIG fronted_once (start [])) = Val fronted_twice /\
  fronted_twice <> fronted_once.
Proof.
  cbv zeta. repeat split; try (vm_compute; reflexivity). discriminate.
Qed.

Lemma rewriteUrl_fixed_point_witness :
  let w := world (Fulfilled CUndefined) example_site (Rejected TimeoutError) in
  let cfg := config true 1048576 [] []
               [ {| pattern := "foo"; replacement := "bar"; type := url |} ] in
  rewriteUrl w cfg "https://example.com/bar" (start []) =
    (Val "https://example.com/bar", start []).
Proof.
  cbv zeta.
  apply (rewriteUrl_fixed_point
           (world (Fulfilled CUndefined) example_site (Rejected TimeoutError))
           (config true 1048576 [] []
              [ {| pattern := "foo"; replacement := "bar"; type := url |} ])
           "https://example.com/foo" "https://example.com/bar"
           (start []) (start [])).
  - vm_compute. reflexivity.
  - intros rule re [<- | []] _ Hre. injection Hre as <-. vm_compute. reflexivity.
  - vm_compute. reflexivity.
Defined.

(** *** C4 *)

(** C4 as stated fails: the content type [application/json-seq] is not
    [application/json], the status is below 400 and there is no
    cache-control header, yet the response is not cacheable. *)
Lemma isCacheableResponse_counterexample :
  let response := page "application/json-seq" "" in
  resp_status response < 400 /\
  resp_headers response !! "cache-control" = None /\
  resp_headers response !! "content-type" = Some "application/json-seq" /\
  "application/json-seq" <> "application/json" /\
  isCacheableResponse response = false.
Proof.
  cbv zeta. repeat split; try (vm_compute; reflexivity). discriminate.
Qed.

(** *** C6 *)

(** End to end: a [Cookie] header sent to the endpoint reaches the origin. *)
Lemma POST_forwards_capitalised_cookie :
  let w := {|
    w_config := Fulfilled CUndefined;
    w_body := Fulfilled {| pb_url := Some example_site; pb_method := None;
                           pb_headers := Some {[ "Cookie" := "sid=1" ]};
                           pb_body := None |};
    w_fetch := fun _ => Rejected TimeoutError;
    w_now := 0;
    w_insert := fun _ => Fulfilled tt;
    w_random := fun _ => 0%nat |} in
  exists req, In (FetchCall req) (trace (snd (POST w []))) /\
              req_headers req !! "Cookie" = Some "sid=1".
Proof.
  cbv zeta. eexists. split.
  - vm_compute. right. right. right. left. reflexivity.
  - vm_compute. reflexivity.
Qed.

End RouteEvaluations.

Section WorkerEvaluations.
Import SW Fragment Scenario.

(** *** C5 *)

(** C5 as stated fails: the forwarding call succeeds with status 200, but
    the reply's body is not JSON; the try block throws after the call, the
    cache is read, and with nothing cached the caller receives the 503. *)
Lemma handleProxyRequest_fallback_counterexample :
  let reply := {| reply_status := 200; reply_json := Rejected SyntaxError |} in
  let result := handleProxyRequest (edge (Fulfilled reply)) page_request ∅ in
  ok reply = true /\
  ~ forwarding_failed (Fulfilled reply) /\
  cache_read page_request (snd result) /\
  fst result = Fulfilled unavailable.
Proof.
  cbv zeta. split; [reflexivity|]. split; [discriminate|]. split.
  - vm_compute. right. right. right. right. left. reflexivity.
  - vm_compute. reflexivity.
Qed.

(** The same happens without any malformed reply: an origin answering
    204 No Content makes the edge function reply with a payload of status
    204, from which the worker cannot build a [Response]. *)
Lemma no_content_reply_reads_cache :
  let origin := {| Route.resp_status := 204;
                   Route.resp_statusText := "No Content";
                   Route.resp_headers := {[ "cache-control" := "no-store" ]};
                   Route.resp_body := None |} in
  exists p s,
    Route.POST (Scenario.world (Fulfilled Route.CUndefined) "https://example.com/page"
                  (Fulfilled origin)) [] = (Fulfilled (Route.JsonPayload p), s) /\
    Route.p_status p = 204 /\
    Response_new p = Rejected TypeError /\
    let reply := {| reply_status := 200; reply_json := Fulfilled p |} in
    let result := handleProxyRequest (edge (Fulfilled reply)) page_request ∅ in
    cache_read page_request (snd result) /\
    fst result = Fulfilled unavailable.
Proof.
  cbv zeta. do 2 eexists. split; [vm_compute; reflexivity|].
  split; [reflexivity|]. split; [reflexivity|]. split.
  - vm_compute. right. right. right. right. left. reflexivity.
  - vm_compute. reflexivity.
Qed.

(** A timed-out forwarding call with an entry in the cache: the caller
    receives the entry. *)
Lemma handleProxyRequest_serves_cached :
  let cached := {| status := 200; statusText := "OK";
                   resp_headers := {[ "content-type" := "text/html" ]};
                   body := "cached page" |} in
  let result :=
    handleProxyRequest (edge (Rejected TimeoutError)) page_request
      {[ "https://example.com/page" := cached ]} in
  fst result = Fulfilled cached /\ cache_read page_request (snd result).
Proof.
  cbv zeta.
  refine (proj1 (handleProxyRequest_fallback (edge (Rejected TimeoutError))
                   page_request _) None eq_refl I).
Defined.

End WorkerEvaluations.

(** * Further properties of the edge handler *)

Section RouteCases.
Import Route.
Context `{RT : Runtime}.

Ltac step :=
  cbv beta iota delta [bind emit modify await ret return_ throw get_state];
  cbn [negb].

(** ** The ways through [proxyRequest_for] *)

Lemma apply_rules_throw_invalid t rules : forall text (s s' : State) e,
  apply_rules t rules text s = (Throw e, s') ->
  Exists (invalid_rule t) rules.
Proof.
  induction rules as [|rule rest IH]; intros text s s' e; cbn [apply_rules].
  - discriminate.
  - destruct (RuleType_eqb (type rule) t) eqn:Ht.
    + destruct (RegExp_new (pattern rule)) eqn:Hre.
      * intros H. apply Exists_cons_tl. eapply IH, H.
      * intros _. apply Exists_cons_hd. split; [|assumption].
        destruct (type rule), t; cbn in Ht; congruence.
    + intros H. apply Exists_cons_tl. eapply IH, H.
Qed.

Lemma proxyRequest_for_cases (w : World) config b u (s : State) :
  request_case w config b u s
    (fst (proxyRequest_for w config b u s))
    (snd (proxyRequest_for w config b u s)).
Proof.
  destruct (proxyRequest_for w config b u s) as [o s1] eqn:Hpr.
  cbn [fst snd]. revert Hpr. unfold proxyRequest_for. unfold bind at 1.
  destruct (rewriteUrl w config u s) as [[u' | r | e] sa] eqn:Hrw.
  - destruct (sanitizeHeaders_effect w (default ∅ (pb_headers b)) sa) as [h' Hsan].
    unfold bind at 1. rewrite Hsan. step.
    destruct (Request_valid u' (default "GET" (pb_method b)) h' (pb_body b))
      eqn:Hvalid; intros H; injection H as <- <-.
    + exact (RequestBuilt w config b u s u' sa h' _ Hrw Hsan Hvalid).
    + exact (RequestRefused w config b u s u' sa h' _ Hrw Hsan Hvalid).
  - exfalso. destruct (rewriteUrl_effect w config u s)
      as [o' [s' [Hrw' [_ [-> | [u' ->]]]]]]; congruence.
  - intros H; injection H as <- <-.
    unfold rewriteUrl in Hrw. unfold bind at 1 in Hrw.
    destruct (apply_rules_outcome url (transformRules config) u s)
      as [o' [Har [-> | [text ->]]]]; rewrite Har in Hrw.
    + injection Hrw as <- <-. apply InvalidUrlRule.
      eapply apply_rules_throw_invalid, Har.
    + destruct (shouldApplyDomainFronting u); [|discriminate].
      unfold applyDomainFronting, random_below in Hrw. revert Hrw. step.
      discriminate.
Qed.

(** ** The ways through [prepare] *)

Lemma prepare_cases (w : World) (s : State) :
  prepare_case w s (fst (prepare w s)) (snd (prepare w s)).
Proof.
  destruct (prepare w s) as [o s1] eqn:Hprep. cbn [fst snd]. revert Hprep.
  unfold prepare. step.
  destruct (w_config w) as [v|e] eqn:Hcfg; step;
    [|intros H; injection H as <- <-; now apply ConfigUnreadable].
  destruct (enabled (config_of v)) eqn:Hon; step;
    [|intros H; injection H as <- <-; now apply (Disabled w s v)].
  destruct (w_body w) as [b|e] eqn:Hbody; step;
    [|intros H; injection H as <- <-; now apply (BodyUnreadable w s v)].
  destruct (pb_url b) as [u|] eqn:Hurl;
    [|intros H; injection H as <- <-; apply (UrlMissing w s v b); auto].
  destruct (String.eqb_spec u "") as [-> | Hne];
    [intros H; injection H as <- <-; apply (UrlMissing w s v b); auto|].
  destruct (URL_new u) as [target|] eqn:Hparse; step;
    [|intros H; injection H as <- <-; now apply (UrlInvalid w s v b u)].
  fold (blocked (config_of v) target).
  destruct (blocked (config_of v) target) eqn:Hblocked; step;
    [intros H; injection H as <- <-;
     now apply (DomainBlocked w s v b u target)|].
  fold (not_allowed (config_of v) target).
  destruct (not_allowed (config_of v) target) eqn:Hallowed; step;
    [intros H; injection H as <- <-;
     now apply (DomainNotAllowed w s v b u target)|].
  pose proof (proxyRequest_for_cases w (config_of v) b u
                (log_event RequestJson (log_event EdgeConfigGet s))) as Hreq.
  destruct (proxyRequest_for w (config_of v) b u
              (log_event RequestJson (log_event EdgeConfigGet s)))
    as [[req | r | e] s2]; cbn [fst snd] in Hreq;
    intros H; injection H as <- <-.
  - now apply (Prepared w s v b u target).
  - inversion Hreq.
  - now apply (ChecksPassed w s v b u target).
Qed.

(** ** The ways through [respond] *)

Lemma respond_cases (w : World) config u response (s : State) :
  respond_case w config u response s
    (fst (respond w config u response s))
    (snd (respond w config u response s)).
Proof.
  destruct (respond w config u response s) as [o s'] eqn:Hrespond.
  cbn [fst snd]. revert Hrespond. unfold respond.
  match goal with |- context [bind ?m ?k] => set (read := m); set (rest := k) end.
  assert (Hrest : forall body s1 o s',
    body_read config response s body s1 ->
    rest body s1 = (o, s') -> respond_case w config u response s o s').
  { clear. intros body s1 o s' Hread. subst rest. cbv beta.
    destruct (transformContent_outcome config body
                (header_or response "content-type" "text/plain") s1)
      as [o' [Htc [-> | [text ->]]]];
      unfold bind at 1; rewrite Htc.
    - intros H. injection H as <- <-.
      apply (TransformFails w config u response s body s1 Hread).
      unfold transformContent in Htc. revert Htc. step.
      destruct (length (transformRules config) =? 0)%nat; [discriminate|].
      apply apply_rules_throw_invalid.
    - step. destruct (isCacheableResponse response) eqn:Hcacheable.
      + step. rewrite (proj2 (INSERT_never_binds _ _ _ _ _ _ _)).
        intros H; injection H as <- <-.
        exact (InsertRefused w config u response s body s1 text
                 Hread Htc Hcacheable).
      + step. intros H; injection H as <- <-.
        pose proof (NotCacheable w config u response s body s1 text
                      Hread Htc Hcacheable) as Hcase.
        unfold payload_of in Hcase. rewrite Hcacheable in Hcase. exact Hcase. }
  subst read. unfold bind at 1.
  destruct (resp_body response) as [[buffer|e]|] eqn:Hbody; step.
  - destruct (Z.ltb_spec (Z.of_nat (String.length buffer))
                (maxContentLength config)) as [Hlt | Hge].
    + apply Hrest. now apply BodyFits.
    + intros H. injection H as <- <-. now apply TooLarge.
  - intros H. injection H as <- <-. now apply BodyFails.
  - apply Hrest. now apply NoBody.
Qed.

(** ** The ways through [POST] *)

Lemma POST_cases (w : World) (table : list CacheRow) :
  POST_case w table (fst (POST w table)) (snd (POST w table)).
Proof.
  destruct (POST w table) as [r s'] eqn:HPOST. cbn [fst snd]. revert HPOST.
  unfold POST, call, try_catch, POST_try. unfold bind at 1.
  pose proof (prepare_cases w (start table)) as Hprep.
  destruct (prepare w (start table)) as [[[[config u] req] | r0 | e] s1];
    cbn [fst snd] in Hprep.
  - step. destruct (w_fetch w req) as [response|e] eqn:Hfetch; step.
    + pose proof (respond_cases w config u response
                    (log_event (FetchCall req) s1)) as Hresp.
      destruct (respond w config u response (log_event (FetchCall req) s1))
        as [[r1 | r1 | e] s2]; cbn [fst snd] in Hresp.
      * inversion Hresp.
      * intros H; injection H as <- <-.
        exact (Responded w table config u req s1 response r1 s2
                 Hprep Hfetch Hresp).
      * unfold POST_catch. step. intros H; injection H as <- <-.
        exact (RespondFails w table config u req s1 response e s2
                 Hprep Hfetch Hresp).
    + unfold POST_catch. step. intros H; injection H as <- <-.
      exact (FetchFails w table config u req s1 e Hprep Hfetch).
  - intros H; injection H as <- <-. now apply EarlyAnswer.
  - unfold POST_catch. step. intros H; injection H as <- <-.
    now apply PrepareFails.
Qed.

(** ** What each phase does to the table and to the trace *)

Lemma fetches_app (l1 l2 : list Event) :
  fetches (l1 ++ l2) = (fetches l1 ++ fetches l2)%list.
Proof.
  induction l1 as [|e l1 IH]; [reflexivity|].
  destruct e; cbn; rewrite IH; reflexivity.
Qed.

Lemma fetches_prelude (l : list Event) : Forall prelude_event l -> fetches l = [].
Proof.
  induction 1 as [|e l He _ IH]; [reflexivity|].
  destruct e; cbn in *; try contradiction; exact IH.
Qed.

Lemma fetches_respond (l : list Event) : Forall respond_event l -> fetches l = [].
Proof.
  induction 1 as [|e l He _ IH]; [reflexivity|].
  destruct e; cbn in *; try contradiction; exact IH.
Qed.

Lemma rewriteUrl_keeps (w : World) config u (s s' : State) o :
  rewriteUrl w config u s = (o, s') -> only_draws s s'.
Proof.
  intros H. destruct (rewriteUrl_effect w config u s) as [o' [s'' [H' [Hd _]]]].
  rewrite H in H'. injection H' as <- <-. exact Hd.
Qed.

Lemma sanitizeHeaders_keeps (w : World) h (s s' : State) o :
  sanitizeHeaders w h s = (o, s') -> only_draws s s'.
Proof.
  intros H. destruct (sanitizeHeaders_effect w h s) as [h' H'].
  rewrite H in H'. injection H' as _ ->. split; reflexivity.
Qed.

Lemma request_case_effect (w : World) config b u (s s1 : State) o :
  request_case w config b u s o s1 ->
  proxy_cache s1 = proxy_cache s /\
  exists events, trace s1 = (trace s ++ events)%list /\
                 Forall prelude_event events.
Proof.
  intros Hcase.
  assert (Hlog : forall u' sa h' sb message,
    rewriteUrl w config u s = (Val u', sa) ->
    sanitizeHeaders w (default ∅ (pb_headers b)) sa = (Val h', sb) ->
    proxy_cache (log_event (ConsoleLog message) sb) = proxy_cache s /\
    exists events,
      trace (log_event (ConsoleLog message) sb) = (trace s ++ events)%list /\
      Forall prelude_event events).
  { intros u' sa h' sb message Hrw Hsan.
    apply rewriteUrl_keeps in Hrw as [Ht1 Hc1].
    apply sanitizeHeaders_keeps in Hsan as [Ht2 Hc2].
    cbn [proxy_cache trace log_event]. split; [congruence|].
    exists [ConsoleLog message]. rewrite Ht2, Ht1.
    split; [reflexivity|]. repeat constructor. }
  destruct Hcase.
  - split; [reflexivity|]. exists []. rewrite app_nil_r. split; [reflexivity|constructor].
  - eapply Hlog; eassumption.
  - eapply Hlog; eassumption.
Qed.

Lemma prepare_case_effect (w : World) (s s1 : State) o :
  prepare_case w s o s1 ->
  proxy_cache s1 = proxy_cache s /\
  exists events, trace s1 = (trace s ++ events)%list /\
                 Forall prelude_event events.
Proof.
  assert (H1 : proxy_cache (log_event EdgeConfigGet s) = proxy_cache s /\
    exists events, trace (log_event EdgeConfigGet s) = (trace s ++ events)%list /\
                   Forall prelude_event events).
  { split; [reflexivity|]. exists [EdgeConfigGet].
    split; [reflexivity|]. repeat constructor. }
  assert (H2 : proxy_cache (log_event RequestJson (log_event EdgeConfigGet s)) =
                 proxy_cache s /\
    exists events,
      trace (log_event RequestJson (log_event EdgeConfigGet s)) =
        (trace s ++ events)%list /\
      Forall prelude_event events).
  { split; [reflexivity|]. exists [EdgeConfigGet; RequestJson].
    cbn [trace log_event]. rewrite <- app_assoc.
    split; [reflexivity|]. repeat constructor. }
  assert (H3 : forall v b u o' s',
    request_case w (config_of v) b u
      (log_event RequestJson (log_event EdgeConfigGet s)) o' s' ->
    proxy_cache s' = proxy_cache s /\
    exists events, trace s' = (trace s ++ events)%list /\
                   Forall prelude_event events).
  { intros v b u o' s' Hreq.
    apply request_case_effect in Hreq as [Hc [events [Ht Hev]]].
    split; [exact Hc|].
    exists ([EdgeConfigGet; RequestJson] ++ events)%list.
    rewrite Ht. cbn [trace log_event]. rewrite <- !app_assoc.
    split; [reflexivity|]. repeat constructor. exact Hev. }
  destruct 1; eauto.
Qed.

Lemma body_read_effect config response (s s1 : State) body :
  body_read config response s body s1 ->
  proxy_cache s1 = proxy_cache s /\
  exists events, trace s1 = (trace s ++ events)%list /\
                 Forall respond_event events.
Proof.
  destruct 1.
  - split; [reflexivity|]. exists []. rewrite app_nil_r. split; [reflexivity|constructor].
  - split; [reflexivity|]. exists [ArrayBuffer buffer].
    split; [reflexivity|]. repeat constructor.
Qed.

(** [respond] leaves the table alone, and the payload it ends with is
    never that of a cacheable response: for those the INSERT is refused. *)
Lemma respond_case_effect (w : World) config u response (s s' : State) o :
  respond_case w config u response s o s' ->
  (exists events, trace s' = (trace s ++ events)%list /\
                  Forall respond_event events) /\
  proxy_cache s' = proxy_cache s /\
  (forall p, o = Return (JsonPayload p) ->
             isCacheableResponse response = false /\ p_cacheable p = false).
Proof.
  assert (Hafter : forall body s1 extra,
    body_read config response s body s1 ->
    Forall respond_event extra ->
    exists events,
      (trace s1 ++ CallTransformContent body :: extra)%list =
        (trace s ++ events)%list /\
      Forall respond_event events).
  { intros body s1 extra Hread Hextra.
    apply body_read_effect in Hread as [_ [events [Ht Hev]]].
    exists (events ++ CallTransformContent body :: extra)%list.
    rewrite Ht, <- app_assoc. split; [reflexivity|].
    apply Forall_app. split; [exact Hev|]. constructor; [exact I | exact Hextra]. }
  destruct 1 as [e Hb | buffer Hb Hl | body s1 Hread Hex
                | body s1 text Hread Htc Hc | body s1 text Hread Htc Hc].
  - split; [|split; [reflexivity | discriminate]].
    exists []. rewrite app_nil_r. split; [reflexivity|constructor].
  - split; [|split; [reflexivity | discriminate]]. exists [ArrayBuffer buffer].
    split; [reflexivity|]. repeat constructor.
  - split; [|split; [apply (body_read_effect _ _ _ _ _ Hread) | discriminate]].
    cbn [trace log_event]. apply (Hafter body s1 [] Hread). constructor.
  - split; [|split; [apply (body_read_effect _ _ _ _ _ Hread)|]].
    + cbn [trace log_event]. apply (Hafter body s1 [] Hread). constructor.
    + intros p [= <-]. split; [exact Hc | exact Hc].
  - split; [|split; [apply (body_read_effect _ _ _ _ _ Hread) | discriminate]].
    cbn [trace log_event]. rewrite <- app_assoc.
    apply (Hafter body s1 [SqlInsert _] Hread). repeat constructor.
Qed.

(** ** The answers of the handler *)

Ltac in_list := cbn; repeat first [left; reflexivity | right].

(** X1: POST never rejects and never answers anything but one of its
    seven error objects or a payload: every exception on the way -- an
    unreadable configuration or body, a refused pattern or request, a
    failed fetch, a body that breaks off, a refused insert -- ends in
    500 'Proxy request failed'. *)
Theorem POST_answer_taxonomy (w : World) (table : list CacheRow) :
  exists r, fst (POST w table) = Fulfilled r /\
            (In r error_answers \/ exists p, r = JsonPayload p).
Proof.
  pose proof (POST_cases w table) as Hcase.
  destruct (POST w table) as [a s']. cbn [fst snd] in *.
  destruct Hcase as [r s1 Hprep | e s1 Hprep | config u req s1 e Hprep Hfetch
                    | config u req s1 response r s2 Hprep Hfetch Hresp
                    | config u req s1 response e s2 Hprep Hfetch Hresp].
  - exists r. split; [reflexivity|]. left. inversion Hprep; in_list.
  - eexists. split; [reflexivity|]. left. in_list.
  - eexists. split; [reflexivity|]. left. in_list.
  - exists r. split; [reflexivity|]. inversion Hresp; subst.
    + left. in_list.
    + right. eauto.
  - eexists. split; [reflexivity|]. left. in_list.
Qed.

(** ** Validation of the URL *)

(** X2: under an enabled configuration, a request body without [url], or
    with the empty string for it, is answered 400 'URL is required', and a
    [url] the URL parser refuses is answered 400 'Invalid URL format';
    either way the handler has read the configuration and the body and
    done nothing else. *)
Theorem POST_url_validation (w : World) table v b :
  w_config w = Fulfilled v ->
  enabled (config_of v) = true ->
  w_body w = Fulfilled b ->
  (pb_url b = None \/ pb_url b = Some "" ->
   POST w table =
     (Fulfilled (JsonError "URL is required" 400),
      {| trace := [EdgeConfigGet; RequestJson];
         proxy_cache := table; draws := 0 |})) /\
  (forall u, pb_url b = Some u -> URL_new u = None -> u <> "" ->
   POST w table =
     (Fulfilled (JsonError "Invalid URL format" 400),
      {| trace := [EdgeConfigGet; RequestJson];
         proxy_cache := table; draws := 0 |})).
Proof.
  intros Hcfg Hon Hbody.
  split.
  - intros Hurl. unfold POST, call, try_catch, POST_try. unfold bind at 1.
    unfold prepare. step. rewrite Hcfg. step. rewrite Hon. step.
    rewrite Hbody. step. destruct Hurl as [-> | ->]; reflexivity.
  - intros u Hurl Hparse Hne.
    unfold POST, call, try_catch, POST_try. unfold bind at 1.
    unfold prepare. step. rewrite Hcfg. step. rewrite Hon. step.
    rewrite Hbody. step. rewrite Hurl.
    destruct (String.eqb_spec u "") as [-> | _]; [now destruct Hne|].
    rewrite Hparse. reflexivity.
Qed.

(** ** The domain policy *)

Lemma prepare_not_allowed (w : World) v b u target (s : State) :
  w_config w = Fulfilled v ->
  enabled (config_of v) = true ->
  w_body w = Fulfilled b ->
  pb_url b = Some u ->
  URL_new u = Some target ->
  blocked (config_of v) target = false ->
  not_allowed (config_of v) target = true ->
  prepare w s =
    (Return (JsonError "Domain is not allowed" 403),
     log_event RequestJson (log_event EdgeConfigGet s)).
Proof.
  intros Hcfg Hon Hbody Hurl Hparse Hblocked Hallowed. unfold prepare. step.
  rewrite Hcfg. step. rewrite Hon. step. rewrite Hbody. step. rewrite Hurl.
  rewrite (valid_url_nonempty _ _ Hparse), Hparse. step.
  unfold blocked in Hblocked. rewrite Hblocked. step.
  unfold not_allowed in Hallowed. rewrite Hallowed. reflexivity.
Qed.

(** X3: for a request with a valid URL under an enabled configuration,
    POST answers with status 403 exactly when the hostname contains an
    entry of [blockedDomains], or [allowedDomains] is not empty and the
    hostname contains none of its entries; in the second case alone the
    answer is 'Domain is not allowed', given before any fetch. *)
Theorem POST_forbidden_iff (w : World) table v b u target :
  w_config w = Fulfilled v ->
  enabled (config_of v) = true ->
  w_body w = Fulfilled b ->
  pb_url b = Some u ->
  URL_new u = Some target ->
  ((exists message, fst (POST w table) = Fulfilled (JsonError message 403)) <->
   blocked (config_of v) target = true \/
   not_allowed (config_of v) target = true) /\
  (blocked (config_of v) target = false ->
   not_allowed (config_of v) target = true ->
   POST w table =
     (Fulfilled (JsonError "Domain is not allowed" 403),
      {| trace := [EdgeConfigGet; RequestJson];
         proxy_cache := table; draws := 0 |})).
Proof.
  intros Hcfg Hon Hbody Hurl Hparse.
  assert (Hna : blocked (config_of v) target = false ->
                not_allowed (config_of v) target = true ->
                POST w table =
                  (Fulfilled (JsonError "Domain is not allowed" 403),
                   {| trace := [EdgeConfigGet; RequestJson];
                      proxy_cache := table; draws := 0 |})).
  { intros Hblocked Hallowed.
    unfold POST, call, try_catch, POST_try. unfold bind at 1.
    rewrite (prepare_not_allowed w v b u target _
               Hcfg Hon Hbody Hurl Hparse Hblocked Hallowed).
    reflexivity. }
  split; [|exact Hna]. split.
  - intros [message Hanswer].
    pose proof (POST_cases w table) as Hcase.
    destruct (POST w table) as [a s']. cbn [fst snd] in *. subst a.
    inversion Hcase as [r s1 Hprep | | | config u0 req s1 response r s2 _ _ Hresp | ];
      subst.
    + inversion Hprep; subst;
        repeat match goal with
        | H1 : w_config w = _, H2 : w_config w = _ |- _ =>
            rewrite H1 in H2; injection H2 as <-
        | H1 : w_body w = _, H2 : w_body w = _ |- _ =>
            rewrite H1 in H2; injection H2 as <-
        | H1 : pb_url b = _, H2 : pb_url b = _ |- _ =>
            rewrite H1 in H2; injection H2 as <-
        | H1 : URL_new u = _, H2 : URL_new u = _ |- _ =>
            rewrite H1 in H2; injection H2 as <-
        end; auto.
    + inversion Hresp.
  - intros [Hblocked | Hallowed].
    + exists "Domain is blocked".
      unfold POST, call, try_catch, POST_try. unfold bind at 1.
      rewrite (prepare_blocked w v b u target _
                 Hcfg Hon Hbody Hurl Hparse Hblocked).
      reflexivity.
    + destruct (blocked (config_of v) target) eqn:Hblocked.
      * exists "Domain is blocked".
        unfold POST, call, try_catch, POST_try. unfold bind at 1.
        rewrite (prepare_blocked w v b u target _
                   Hcfg Hon Hbody Hurl Hparse Hblocked).
        reflexivity.
      * exists "Domain is not allowed". now rewrite Hna.
Qed.

(** ** Failures after the checks *)

(** X4: when the fetch is rejected -- the origin cannot be reached, or
    the 30 s timeout fires -- POST answers 500 'Proxy request failed'; it
    has logged that error with [console.error], read no body, called no
    transformer and left the table as it was. *)
Theorem POST_origin_unreachable (w : World) table config u req s1 e :
  prepare w (start table) = (Val (config, u, req), s1) ->
  w_fetch w req = Rejected e ->
  exists message,
    POST w table =
      (Fulfilled (JsonError "Proxy request failed" 500),
       {| trace := [EdgeConfigGet; RequestJson; ConsoleLog message;
                    FetchCall req; ConsoleError e];
          proxy_cache := table;
          draws := draws s1 |}).
Proof.
  intros Hprep Hfetch.
  pose proof (prepare_reaches_fetch w config u req _ _ Hprep)
    as [v [b [message [_ [_ [_ [_ [Hcache Htrace]]]]]]]].
  exists message. unfold POST, call, try_catch, POST_try. unfold bind at 1.
  rewrite Hprep. step. rewrite Hfetch. unfold POST_catch. step.
  destruct s1 as [tr pc dr]. cbn in Hcache, Htrace. subst tr pc. reflexivity.
Qed.

(** X5: a cacheable response whose INSERT the database refuses is lost:
    although the origin answered with a body within the cap, POST answers
    500 'Proxy request failed' and stores nothing. *)
Theorem POST_cache_write_failure (w : World) table config u req s1 response e :
  prepare w (start table) = (Val (config, u, req), s1) ->
  w_fetch w req = Fulfilled response ->
  ~ oversized config response ->
  isCacheableResponse response = true ->
  (forall row, w_insert w row = Rejected e) ->
  fst (POST w table) = Fulfilled (JsonError "Proxy request failed" 500) /\
  proxy_cache (snd (POST w table)) = table.
Proof.
  intros Hprep Hfetch Hfits Hcacheable Hinsert.
  pose proof (prepare_reaches_fetch w config u req _ _ Hprep)
    as [v [b [message [_ [_ [_ [_ [Hcache _]]]]]]]].
  rewrite (POST_after_prepare w table config u req s1 response Hprep Hfetch).
  pose proof (respond_cases w config u response (log_event (FetchCall req) s1))
    as Hcase.
  unfold call, try_catch.
  destruct (respond w config u response (log_event (FetchCall req) s1))
    as [o s2]. cbn [fst snd] in Hcase.
  cbn [start proxy_cache] in Hcache.
  destruct Hcase as [e' Hb | buffer Hb Hl | body s1' Hread Hex
                    | body s1' text Hread Htc Hc | body s1' text Hread Htc Hc];
    unfold POST_catch; step; cbn [fst snd proxy_cache log_event].
  - split; [reflexivity | exact Hcache].
  - destruct Hfits. exists buffer. split; assumption.
  - split; [reflexivity|].
    rewrite (proj1 (body_read_effect _ _ _ _ _ Hread)). exact Hcache.
  - congruence.
  - split; [reflexivity|].
    rewrite (proj1 (body_read_effect _ _ _ _ _ Hread)). exact Hcache.
Qed.

(** ** The table *)

(** X6: whatever the request and whatever happens to it, POST leaves the
    rows of [proxy_cache] as they were and appends at most one; it appends
    one only when it answers with a payload that is cacheable, whose
    status is therefore below 400, and the row holds that payload's
    content and status.  No error answer ever stores anything. *)
Theorem POST_table_append_only (w : World) (table : list CacheRow) :
  proxy_cache (snd (POST w table)) = table \/
  exists row p,
    proxy_cache (snd (POST w table)) = (table ++ [row])%list /\
    fst (POST w table) = Fulfilled (JsonPayload p) /\
    p_cacheable p = true /\ p_status p < 400 /\
    row_content row = p_content p /\ row_status row = p_status p.
Proof.
  pose proof (POST_cases w table) as Hcase.
  destruct (POST w table) as [a s']. cbn [fst snd] in *.
  destruct Hcase as [r s1 Hprep | e s1 Hprep | config u req s1 e Hprep Hfetch
                    | config u req s1 response r s2 Hprep Hfetch Hresp
                    | config u req s1 response e s2 Hprep Hfetch Hresp];
    pose proof (proj1 (prepare_case_effect _ _ _ _ Hprep)) as Hcache;
    cbn [start proxy_cache log_event] in Hcache |- *.
  - now left.
  - now left.
  - now left.
  - apply respond_case_effect in Hresp as [_ [Ht _]].
    cbn [proxy_cache log_event] in Ht. left. congruence.
  - apply respond_case_effect in Hresp as [_ [Ht _]].
    cbn [proxy_cache log_event] in Ht. left. congruence.
Qed.

(** ** The payload *)

Lemma responseHeaders_lookup (response : Response) (k : string) :
  responseHeaders_of response !! k =
    if String.eqb k "x-cache-status" then Some "MISS"
    else if String.eqb k "x-proxied-by" then Some "edgeflow"
    else if existsb (String.eqb (toLowerCase k)) skippedHeaders then None
    else if String.eqb k "__proto__" then None
    else resp_headers response !! k.
Proof.
  unfold responseHeaders_of.
  destruct (String.eqb_spec k "x-cache-status") as [-> | H1];
    [apply lookup_insert_eq|].
  rewrite lookup_insert_ne by congruence.
  destruct (String.eqb_spec k "x-proxied-by") as [-> | H2];
    [apply lookup_insert_eq|].
  rewrite lookup_insert_ne by congruence.
  destruct (existsb (String.eqb (toLowerCase k)) skippedHeaders) eqn:Hskip.
  - apply map_lookup_filter_None. right. intros x _.
    unfold proxied_header. cbn [fst]. rewrite Hskip. discriminate.
  - destruct (String.eqb k "__proto__") eqn:Hproto.
    + apply map_lookup_filter_None. right. intros x _.
      unfold own_property. cbn [fst]. rewrite Hproto, andb_false_r.
      discriminate.
    + destruct (resp_headers response !! k) as [x|] eqn:Hk.
      * apply map_lookup_filter_Some. split; [exact Hk|].
        unfold proxied_header, own_property. cbn [fst].
        now rewrite Hskip, Hproto.
      * apply map_lookup_filter_None. now left.
Qed.

Lemma POST_fetches (w : World) (table : list CacheRow) :
  fetches (trace (snd (POST w table))) = [] \/
  exists config u req s1,
    prepare_case w (start table) (Val (config, u, req)) s1 /\
    fetches (trace (snd (POST w table))) = [req].
Proof.
  pose proof (POST_cases w table) as Hcase.
  destruct (POST w table) as [a s']. cbn [fst snd] in *.
  assert (Hquiet : forall o s1,
    prepare_case w (start table) o s1 -> fetches (trace s1) = []).
  { intros o s1 Hprep.
    apply prepare_case_effect in Hprep as [_ [events [Ht Hev]]].
    rewrite Ht. cbn. now apply fetches_prelude. }
  destruct Hcase as [r s1 Hprep | e s1 Hprep | config u req s1 e Hprep Hfetch
                    | config u req s1 response r s2 Hprep Hfetch Hresp
                    | config u req s1 response e s2 Hprep Hfetch Hresp];
    pose proof (Hquiet _ _ Hprep) as Hq.
  - now left.
  - left. cbn [trace log_event]. now rewrite fetches_app, Hq.
  - right. exists config, u, req, s1. split; [exact Hprep|].
    cbn [trace log_event]. now rewrite !fetches_app, Hq.
  - right. exists config, u, req, s1. split; [exact Hprep|].
    apply respond_case_effect in Hresp as [[events [Ht Hev]] _].
    rewrite Ht. cbn [trace log_event].
    now rewrite !fetches_app, Hq, (fetches_respond _ Hev).
  - right. exists config, u, req, s1. split; [exact Hprep|].
    apply respond_case_effect in Hresp as [[events [Ht Hev]] _].
    cbn [trace log_event]. rewrite Ht. cbn [trace log_event].
    now rewrite !fetches_app, Hq, (fetches_respond _ Hev).
Qed.

(** ** The INSERT *)

Lemma inserts_app (l1 l2 : list Event) :
  inserts (l1 ++ l2) = (inserts l1 ++ inserts l2)%list.
Proof.
  induction l1 as [|e l1 IH]; [reflexivity|].
  destruct e; cbn; rewrite IH; reflexivity.
Qed.

Lemma inserts_prelude (l : list Event) : Forall prelude_event l -> inserts l = [].
Proof.
  induction 1 as [|e l He _ IH]; [reflexivity|].
  destruct e; cbn in *; try contradiction; exact IH.
Qed.

Lemma prepare_case_inserts (w : World) table o s1 :
  prepare_case w (start table) o s1 -> inserts (trace s1) = [].
Proof.
  intros Hprep.
  apply prepare_case_effect in Hprep as [_ [events [Ht Hev]]].
  rewrite Ht. cbn. now apply inserts_prelude.
Qed.

Lemma body_read_inserts config response (s s1 : State) body :
  body_read config response s body s1 ->
  inserts (trace s1) = inserts (trace s).
Proof.
  destruct 1; [reflexivity|].
  cbn [trace log_event]. rewrite inserts_app. cbn. apply app_nil_r.
Qed.

(** Whether an INSERT is sent after the fetch, and what follows. *)
Lemma respond_case_inserts (w : World) config u response (s s' : State) o :
  respond_case w config u response s o s' ->
  inserts (trace s) = [] ->
  (inserts (trace s') = [] /\
   (isCacheableResponse response = true ->
    resp_body response = None \/
    (exists buffer, resp_body response = Some (Fulfilled buffer) /\
                    byteLength buffer < maxContentLength config) ->
    Exists (invalid_rule content) (transformRules config))) \/
  (exists text events,
     isCacheableResponse response = true /\
     o = Throw DatabaseError /\
     trace s' =
       (events ++ [SqlInsert (statement_of w config u response text)])%list /\
     inserts (trace s') = [statement_of w config u response text]).
Proof.
  intros Hcase Hs.
  destruct Hcase as [e Hb | buffer Hb Hl | body s1 Hread Hex
                    | body s1 text Hread Htc Hc | body s1 text Hread Htc Hc].
  - left. split; [exact Hs|].
    intros _ [Hnone | [buffer [Hsome _]]]; congruence.
  - left. split.
    + cbn [trace log_event]. rewrite inserts_app, Hs. reflexivity.
    + intros _ [Hnone | [buffer' [Hsome Hfits]]]; [congruence|].
      rewrite Hb in Hsome. injection Hsome as <-. lia.
  - left. split; [|intros _ _; exact Hex].
    cbn [trace log_event].
    rewrite inserts_app, (body_read_inserts _ _ _ _ _ Hread), Hs. reflexivity.
  - left. split; [|congruence].
    cbn [trace log_event].
    rewrite inserts_app, (body_read_inserts _ _ _ _ _ Hread), Hs. reflexivity.
  - right. exists text. eexists. split; [exact Hc|]. split; [reflexivity|].
    split; [reflexivity|].
    cbn [trace log_event].
    rewrite !inserts_app, (body_read_inserts _ _ _ _ _ Hread), Hs. reflexivity.
Qed.

(** C7 (the code's behaviour): the template of lines 242-247 interpolates
    [config.cacheTTL] inside the quoted literal ['... seconds'], so the
    statement the driver sends has its seventh placeholder inside a string
    literal: PostgreSQL counts six parameters, the call brings seven
    values, and the INSERT is refused whatever the values are.  Hence, for
    every request:
    - the table [proxy_cache] is left as it was: no entry is inserted,
      neither a first one nor a further one for a URL requested before;
    - a payload is answered only for a response that is not cacheable;
    - where an INSERT is sent it is the only one of the request; its first
      value is the key 'proxy:' + the original URL + ':' + Date.now() and
      its last value is cacheTTL; the database refuses it and POST answers
      500 'Proxy request failed' after reporting the error;
    - an INSERT is sent for every cacheable response without body or with
      a body below the size cap, unless a content rule is invalid. *)
Theorem POST_insert_is_refused (w : World) (table : list CacheRow) :
  proxy_cache (snd (POST w table)) = table /\
  (forall p, fst (POST w table) = Fulfilled (JsonPayload p) ->
             p_cacheable p = false) /\
  (forall statement,
     In statement (inserts (trace (snd (POST w table)))) ->
     inserts (trace (snd (POST w table))) = [statement] /\
     (exists v b u req response text,
        w_config w = Fulfilled v /\
        w_body w = Fulfilled b /\ pb_url b = Some u /\
        w_fetch w req = Fulfilled response /\
        isCacheableResponse response = true /\
        statement = statement_of w (config_of v) u response text /\
        head (st_values statement) =
          Some (SqlText ("proxy:" +:+ u +:+ ":" +:+ pretty (w_now w))) /\
        last (st_values statement) =
          Some (SqlNumber (cacheTTL (config_of v)))) /\
     placeholders (st_text statement) = 6%nat /\
     length (st_values statement) = 7%nat /\
     Postgres_binds statement = false /\
     fst (POST w table) = Fulfilled (JsonError "Proxy request failed" 500) /\
     exists events,
       trace (snd (POST w table)) =
         (events ++ [SqlInsert statement; ConsoleError DatabaseError])%list) /\
  (forall config u req s1 response,
     prepare w (start table) = (Val (config, u, req), s1) ->
     w_fetch w req = Fulfilled response ->
     isCacheableResponse response = true ->
     resp_body response = None \/
     (exists buffer, resp_body response = Some (Fulfilled buffer) /\
                     byteLength buffer < maxContentLength config) ->
     ~ Exists (invalid_rule content) (transformRules config) ->
     exists text,
       inserts (trace (snd (POST w table))) =
         [statement_of w config u response text]).
Proof.
  pose proof (POST_cases w table) as Hcase.
  split; [|split; [|split]].
  - destruct (POST w table) as [a s']. cbn [fst snd] in *.
    destruct Hcase as [r s1 Hprep | e s1 Hprep | config u req s1 e Hprep Hfetch
                      | config u req s1 response r s2 Hprep Hfetch Hresp
                      | config u req s1 response e s2 Hprep Hfetch Hresp];
      apply prepare_case_effect in Hprep as [Hcache _];
      cbn [start proxy_cache] in Hcache;
      try (apply respond_case_effect in Hresp as [_ [Ht _]];
           cbn [proxy_cache log_event] in Ht);
      cbn [proxy_cache log_event]; congruence.
  - intros p Hanswer.
    destruct (POST w table) as [a s']. cbn [fst snd] in *. subst a.
    inversion Hcase as [r s1 Hprep | | | config u req s1 response r s2 Hprep Hfetch Hresp | ];
      subst.
    + inversion Hprep.
    + now apply (respond_case_effect _ _ _ _ _ _ _ Hresp).
  - intros statement Hin.
    destruct (POST w table) as [a s']. cbn [fst snd] in *.
    destruct Hcase as [r s1 Hprep | e s1 Hprep | config u req s1 e Hprep Hfetch
                      | config u req s1 response r s2 Hprep Hfetch Hresp
                      | config u req s1 response e s2 Hprep Hfetch Hresp];
      pose proof (prepare_case_inserts _ _ _ _ Hprep) as Hq.
    + rewrite Hq in Hin. destruct Hin.
    + cbn [trace log_event] in Hin. rewrite inserts_app, Hq in Hin. destruct Hin.
    + cbn [trace log_event] in Hin. rewrite !inserts_app, Hq in Hin.
      destruct Hin.
    + apply respond_case_inserts in Hresp
        as [[Hnone _] | [text [events [_ [Ho _]]]]];
        [rewrite Hnone in Hin; destruct Hin | discriminate Ho |].
      cbn [trace log_event]. rewrite inserts_app, Hq. reflexivity.
    + apply respond_case_inserts in Hresp
        as [[Hnone _] | [text [events [Hc [Ho [Ht Hone]]]]]];
        [| | cbn [trace log_event]; rewrite inserts_app, Hq; reflexivity].
      { cbn [trace log_event] in Hin. rewrite inserts_app, Hnone in Hin.
        destruct Hin. }
      injection Ho as ->.
      cbn [trace log_event] in Hin |- *.
      rewrite inserts_app, Hone in Hin |- *. cbn in Hin |- *.
      destruct Hin as [<- | []].
      split; [reflexivity|]. split.
      { inversion Hprep
          as [ | | | | | | | | v b u' target req0 s1' Hcfg He Hb Hu Hp Hbl Hal Hreq];
          subst.
        exists v, b, u, req, response, text. auto 10. }
      split; [reflexivity|]. split; [reflexivity|].
      split; [apply INSERT_never_binds|]. split; [reflexivity|].
      exists events. rewrite Ht, <- app_assoc. reflexivity.
  - intros config u req s1 response Hprep Hfetch Hc Hbody Hrules.
    rewrite (POST_after_prepare w table config u req s1 response Hprep Hfetch).
    pose proof (respond_cases w config u response (log_event (FetchCall req) s1))
      as Hresp.
    assert (Hq : inserts (trace (log_event (FetchCall req) s1)) = []).
    { cbn [trace log_event]. rewrite inserts_app.
      pose proof (prepare_cases w (start table)) as Hpc.
      rewrite Hprep in Hpc. cbn [fst snd] in Hpc.
      now rewrite (prepare_case_inserts _ _ _ _ Hpc). }
    unfold call, try_catch.
    destruct (respond w config u response (log_event (FetchCall req) s1))
      as [o s2]. cbn [fst snd] in Hresp.
    apply respond_case_inserts in Hresp
      as [[_ Hnot] | [text [events [_ [Ho [_ Hone]]]]]]; [| | exact Hq].
    + destruct Hrules. now apply Hnot.
    + subst o. exists text. unfold POST_catch. step.
      cbn [snd trace log_event]. rewrite inserts_app, Hone. reflexivity.
Qed.

(** X7: a payload answer reports the response of the one fetch made, a
    response that is not cacheable: its status, status text and content
    type (text/plain when the origin names none) are the origin's,
    [cacheable] is false, and its headers are the origin's without
    set-cookie, connection and transfer-encoding (names compared after
    lower-casing) and without [__proto__], which the plain object the
    headers are collected in does not take as a key; x-proxied-by is set
    to 'edgeflow' and x-cache-status to 'MISS' over whatever the origin
    sent under those names. *)
Theorem POST_payload_reports_origin (w : World) table p :
  fst (POST w table) = Fulfilled (JsonPayload p) ->
  exists req response,
    fetches (trace (snd (POST w table))) = [req] /\
    w_fetch w req = Fulfilled response /\
    p_status p = resp_status response /\
    p_statusText p = resp_statusText response /\
    p_contentType p = header_or response "content-type" "text/plain" /\
    p_cacheable p = isCacheableResponse response /\
    p_cacheable p = false /\
    forall k,
      p_headers p !! k =
        if String.eqb k "x-cache-status" then Some "MISS"
        else if String.eqb k "x-proxied-by" then Some "edgeflow"
        else if existsb (String.eqb (toLowerCase k)) skippedHeaders then None
        else if String.eqb k "__proto__" then None
        else resp_headers response !! k.
Proof.
  intros Hanswer.
  pose proof (POST_cases w table) as Hcase.
  destruct (POST w table) as [a s']. cbn [fst snd] in *. subst a.
  inversion Hcase as [r s1 Hprep | | | config u req s1 response r s2 Hprep Hfetch Hresp | ];
    subst.
  - inversion Hprep.
  - exists req, response.
    assert (Hone : fetches (trace s') = [req]).
    { apply respond_case_effect in Hresp as [[events [Ht Hev]] _].
      apply prepare_case_effect in Hprep as [_ [events0 [Ht0 Hev0]]].
      rewrite Ht. cbn [trace log_event]. rewrite Ht0. cbn.
      now rewrite !fetches_app, (fetches_prelude _ Hev0), (fetches_respond _ Hev). }
    split; [exact Hone|]. split; [exact Hfetch|].
    destruct (proj2 (proj2 (respond_case_effect _ _ _ _ _ _ _ Hresp)) p eq_refl)
      as [_ Hfalse].
    inversion Hresp; subst; cbn;
      repeat split; try reflexivity; try exact Hfalse;
      apply responseHeaders_lookup.
Qed.

(** ** The fetch *)

(** X8: POST fetches at most once, and only for a request that passed
    every check: the configuration was read and enabled, the body was
    read, its URL parsed, and the hostname was neither blocked nor kept
    out by the allow-list. *)
Theorem POST_fetch_guarded (w : World) (table : list CacheRow) :
  fetches (trace (snd (POST w table))) = [] \/
  exists req v b u target,
    fetches (trace (snd (POST w table))) = [req] /\
    w_config w = Fulfilled v /\ enabled (config_of v) = true /\
    w_body w = Fulfilled b /\ pb_url b = Some u /\
    URL_new u = Some target /\
    blocked (config_of v) target = false /\
    not_allowed (config_of v) target = false.
Proof.
  destruct (POST_fetches w table) as [Hnone | [config [u [req [s1 [Hprep Hone]]]]]];
    [now left|].
  right. inversion Hprep; subst.
  exists req, v, b, u, target. repeat split; assumption.
Qed.




(** ** The rule engine *)

(** X10: the rules of a type are applied in list order, each to the
    output of the one before: applying a list cut in two is applying the
    first part and then the second to its result, and a pattern refused in
    the first part stops the engine before the second is looked at. *)
Theorem apply_rules_app t rules1 rules2 text (s : State) :
  apply_rules t (rules1 ++ rules2) text s =
    (text' <- apply_rules t rules1 text;; apply_rules t rules2 text') s.
Proof.
  revert text. induction rules1 as [|rule rest IH]; intros text.
  - reflexivity.
  - cbn [app apply_rules].
    destruct (RuleType_eqb (type rule) t); [|apply IH].
    destruct (RegExp_new (pattern rule)); [apply IH | reflexivity].
Qed.

Lemma apply_rules_of_type t rules : forall text (s : State),
  apply_rules t (of_type t rules) text s = apply_rules t rules text s.
Proof.
  induction rules as [|rule rest IH]; intros text s; [reflexivity|].
  cbn [of_type List.filter apply_rules].
  destruct (RuleType_eqb (type rule) t) eqn:Ht; [|apply IH].
  cbn [apply_rules]. rewrite Ht.
  destruct (RegExp_new (pattern rule)); [apply IH | reflexivity].
Qed.

(** X11: only the rules of type [url] take part in rewriting a URL and
    only the rules of type [content] in transforming a body: dropping all
    other rules from the configuration changes neither result.  Rules of
    type [header] are therefore never applied, not even compiled. *)
Theorem rules_of_other_types_ignored (w : World) config u body contentType
    (s : State) :
  rewriteUrl w (with_rules config (of_type url (transformRules config))) u s =
    rewriteUrl w config u s /\
  transformContent (with_rules config (of_type content (transformRules config)))
      body contentType s =
    transformContent config body contentType s.
Proof.
  split.
  - unfold rewriteUrl. cbn [transformRules with_rules]. unfold bind.
    now rewrite apply_rules_of_type.
  - unfold transformContent. cbn [transformRules with_rules].
    destruct (transformRules config) as [|r0 rest0]; [reflexivity|].
    destruct (of_type content (r0 :: rest0)) as [|r rest] eqn:Hkept;
      cbn [length Nat.eqb]; unfold bind; destruct (emit _ s) as [[| |] s1];
      try reflexivity.
    + now rewrite <- apply_rules_of_type, Hkept.
    + now rewrite <- Hkept, apply_rules_of_type.
Qed.

(** ** Domain fronting *)

Lemma append_cons (x : ascii) (a b : string) :
  String x a +:+ b = String x (a +:+ b).
Proof. reflexivity. Qed.

Lemma append_assoc (a b c : string) : (a +:+ b) +:+ c = a +:+ (b +:+ c).
Proof.
  induction a as [|x a IH]; [reflexivity|].
  now rewrite !append_cons, IH.
Qed.

Lemma length_append (a b : string) :
  String.length (a +:+ b) = (String.length a + String.length b)%nat.
Proof.
  induction a as [|x a IH]; [reflexivity|].
  rewrite append_cons. cbn [String.length]. now rewrite IH.
Qed.

Lemma startsWith_append (p c : string) : startsWith (p +:+ c) p = true.
Proof.
  induction p as [|x p IH]; [now destruct c|].
  rewrite append_cons. cbn [startsWith]. now rewrite Ascii.eqb_refl.
Qed.

Lemma startsWith_elim (p : string) : forall s,
  startsWith s p = true -> exists c, s = p +:+ c.
Proof.
  induction p as [|x p IH]; intros s H; [now exists s|].
  destruct s as [|y s]; [discriminate H|]. cbn in H.
  destruct (Ascii.eqb_spec x y) as [->|]; [|discriminate H].
  destruct (IH s H) as [c ->]. now exists c.
Qed.

Lemma includes_unfold (s p : string) :
  includes s p =
    startsWith s p ||
    match s with EmptyString => false | String _ s' => includes s' p end.
Proof. destruct s; reflexivity. Qed.

Lemma includes_intro (a p c : string) : includes (a +:+ (p +:+ c)) p = true.
Proof.
  induction a as [|x a IH].
  - change ("" +:+ (p +:+ c)) with (p +:+ c).
    rewrite includes_unfold, startsWith_append. reflexivity.
  - rewrite append_cons. cbn [includes]. rewrite IH. apply orb_true_r.
Qed.

Lemma includes_elim (p : string) : forall s,
  includes s p = true -> exists a c, s = a +:+ (p +:+ c).
Proof.
  induction s as [|x s IH]; intros H; rewrite includes_unfold in H;
    apply orb_true_iff in H as [H | H].
  - apply startsWith_elim in H as [c ->]. now exists "", c.
  - discriminate.
  - apply startsWith_elim in H as [c ->]. now exists "", c.
  - destruct (IH H) as [a [c ->]]. now exists (String x a), c.
Qed.

Lemma encodeURIComponent_append (a b : string) :
  encodeURIComponent (a +:+ b) = encodeURIComponent a +:+ encodeURIComponent b.
Proof.
  induction a as [|x a IH]; [reflexivity|].
  rewrite append_cons. cbn [encodeURIComponent].
  rewrite IH. destruct (is_unreserved x); reflexivity.
Qed.

Lemma censored_encoded (u : string) :
  shouldApplyDomainFronting u = true ->
  shouldApplyDomainFronting (encodeURIComponent u) = true.
Proof.
  unfold shouldApplyDomainFronting, censoredDomains. cbn [existsb].
  rewrite !orb_false_r. intros H. apply orb_true_iff in H.
  apply orb_true_iff.
  destruct H as [H | H]; [left | right];
    apply includes_elim in H as [a [c ->]];
    rewrite !encodeURIComponent_append; apply includes_intro.
Qed.

Lemma censored_inside (a u c : string) :
  shouldApplyDomainFronting u = true ->
  shouldApplyDomainFronting (a +:+ (u +:+ c)) = true.
Proof.
  unfold shouldApplyDomainFronting, censoredDomains. cbn [existsb].
  rewrite !orb_false_r. intros H. apply orb_true_iff in H.
  apply orb_true_iff.
  destruct H as [H | H]; [left | right];
    apply includes_elim in H as [a' [c' ->]];
    rewrite !append_assoc, <- (append_assoc a a'); apply includes_intro.
Qed.

(** X12: domain fronting feeds itself.  When no rule of type [url]
    changes a URL that contains a censored domain and starts with http://
    or https://, [rewriteUrl] returns a URL that is strictly longer, starts
    with https://, and contains a censored domain again (inside the
    encoded copy of the original): rewriting the result fronts it once
    more, so no such URL is ever a fixed point. *)
Theorem fronting_feeds_itself (w : World) config u (s : State) :
  ~ Exists (invalid_rule url) (transformRules config) ->
  matches_none url (transformRules config) u ->
  shouldApplyDomainFronting u = true ->
  startsWith u "https://" || startsWith u "http://" = true ->
  exists u1,
    rewriteUrl w config u s = (Val u1, next_draw s) /\
    startsWith u1 "https://" = true /\
    shouldApplyDomainFronting u1 = true /\
    (String.length u < String.length u1)%nat.
Proof.
  intros Hvalid Hnone Hcensored Hscheme.
  unfold rewriteUrl. unfold bind at 1.
  rewrite apply_rules_no_match by assumption. rewrite Hcensored.
  unfold applyDomainFronting, random_below. step.
  eexists. split; [reflexivity|].
  set (front := nth _ frontDomains "").
  assert (Hshape : exists rest,
    replace_scheme u ("https://" +:+ front +:+ "/proxy?url=" +:+
                      encodeURIComponent u +:+ "&") =
      ("https://" +:+ front +:+ "/proxy?url=") +:+
      (encodeURIComponent u +:+ ("&" +:+ rest)) /\
    (String.length rest + 7 <= String.length u)%nat).
  { unfold replace_scheme.
    destruct (startsWith u "https://") eqn:Hs.
    - apply startsWith_elim in Hs as [rest Hu]. exists rest.
      split; [|rewrite Hu, length_append; cbn [String.length]; lia].
      rewrite Hu at 2. change (slice 8 ("https://" +:+ rest)) with rest.
      now rewrite !append_assoc.
    - cbn [orb] in Hscheme. rewrite Hscheme.
      apply startsWith_elim in Hscheme as [rest Hu]. exists rest.
      split; [|rewrite Hu, length_append; cbn [String.length]; lia].
      rewrite Hu at 2. change (slice 7 ("http://" +:+ rest)) with rest.
      now rewrite !append_assoc. }
  destruct Hshape as [rest [-> Hlen]].
  split; [rewrite !append_assoc; apply startsWith_append|]. split.
  - apply censored_inside. now apply censored_encoded.
  - rewrite !length_append. cbn [String.length String.append].
    assert (String.length u <= String.length (encodeURIComponent u))%nat.
    { clear. induction u as [|x u IH]; cbn; [lia|].
      destruct (is_unreserved x); cbn; lia. }
    lia.
Qed.

End RouteCases.

(** * The direct entry point *)

Section DirectAccess.
Import Route.
Context `{RT : Runtime}.

Ltac step :=
  cbv beta iota delta [bind emit modify await ret return_ throw get_state];
  cbn [negb].

Ltac in_list := cbn; repeat first [left; reflexivity | right].

(** X13: GET answers a request without [url] parameter, or with an empty
    one, 400 'URL parameter is required' before anything is read: also
    when the proxy is disabled, where POST answers 503.  An exception of
    the [NextRequest] constructor is not caught and rejects GET.  In every
    other case GET answers like POST does for the body [{url}] -- an error
    object of POST's or a payload -- but never 'URL is required'. *)
Theorem GET_answers (w : World) param postRequest (table : list CacheRow) :
  (param = None \/ param = Some "" ->
   GET w param postRequest table =
     (Fulfilled (JsonError "URL parameter is required" 400), start table)) /\
  (forall u e,
     param = Some u -> u <> "" -> postRequest = Rejected e ->
     GET w param postRequest table = (Rejected e, start table)) /\
  (forall u,
     param = Some u -> u <> "" -> postRequest = Fulfilled tt ->
     exists r,
       fst (GET w param postRequest table) = Fulfilled r /\
       r <> JsonError "URL is required" 400 /\
       (In r error_answers \/ exists p, r = JsonPayload p)).
Proof.
  split; [|split].
  - intros [-> | ->]; reflexivity.
  - intros u e -> Hne ->. unfold GET.
    destruct (String.eqb_spec u ""); [contradiction | reflexivity].
  - intros u -> Hne ->. unfold GET.
    destruct (String.eqb_spec u "") as [|_]; [contradiction|].
    set (w' := with_body w (Fulfilled (url_only u))).
    pose proof (POST_cases w' table) as Hcase.
    destruct (POST w' table) as [a s']. cbn [fst snd] in *.
    destruct Hcase as [r s1 Hprep | e s1 Hprep | config u0 req s1 e Hprep Hfetch
                      | config u0 req s1 response r s2 Hprep Hfetch Hresp
                      | config u0 req s1 response e s2 Hprep Hfetch Hresp].
    + exists r. split; [reflexivity|].
      inversion Hprep; subst;
        try (split; [discriminate | left; in_list]).
      match goal with
      | Hb : w_body w' = Fulfilled ?b, Hu : pb_url ?b = None \/ _ |- _ =>
          cbn in Hb; injection Hb as <-; cbn in Hu;
          destruct Hu as [Hu | Hu]; [discriminate Hu|];
          injection Hu as ->; now destruct Hne
      end.
    + eexists. split; [reflexivity|]. split; [discriminate | left; in_list].
    + eexists. split; [reflexivity|]. split; [discriminate | left; in_list].
    + exists r. split; [reflexivity|]. inversion Hresp; subst.
      * split; [discriminate | left; in_list].
      * split; [discriminate | right; eauto].
    + eexists. split; [reflexivity|]. split; [discriminate | left; in_list].
Qed.

End DirectAccess.

(** * Further properties of the service worker *)

Section WorkerCases.
Import SW.
Context `{CA : CacheAPI}.

Ltac step :=
  cbv beta iota delta [bind emit modify await ret return_ throw get_state];
  cbn [negb].

(** ** The ways through the try block *)

Lemma try_case_complete (w : World) request storage :
  try_case w request storage
    (fst (handleProxyRequest_try w request (init storage)))
    (snd (handleProxyRequest_try w request (init storage))).
Proof.
  unfold handleProxyRequest_try.
  match goal with |- context [bind ?m ?k] => set (read := m); set (rest := k) end.
  assert (Hread : read (init storage) =
    (match requestBody_of request with
     | Fulfilled rb => Val rb
     | Rejected e => Throw e
     end, after_read request storage)).
  { subst read. unfold requestBody_of, after_read.
    destruct (String.eqb (method request) "GET"); step; [reflexivity|].
    destruct (text request); reflexivity. }
  unfold bind at 1 2. rewrite Hread. clear Hread. subst rest read.
  destruct (requestBody_of request) as [rb|e] eqn:Hrb;
    [|cbn [fst snd]; econstructor; eassumption].
  step. fold (after_fetch w request rb storage).
  destruct (w_fetch w (proxyRequest_for w request rb)) as [reply|e] eqn:Hfetch;
    step; [|cbn [fst snd]; econstructor; eassumption].
  destruct (ok reply) eqn:Hok; step; [|cbn [fst snd]; econstructor; eassumption].
  destruct (reply_json reply) as [d|e] eqn:Hjson; step;
    [|cbn [fst snd]; eapply ReplyNotJson; eassumption].
  destruct (Response_new d) as [proxied|e] eqn:Hnew; step;
    [|cbn [fst snd]; eapply Unbuildable; eassumption].
  destruct (Route.p_cacheable d) eqn:Hcacheable; step.
  - destruct (w_open w) as [[]|e] eqn:Hopen; step; cbn [fst snd].
    + eapply Stored; eassumption.
    + eapply OpenFails; eassumption.
  - cbn [fst snd]. eapply NotStored; eassumption.
Qed.

(** What the handler makes of the try block's outcome. *)
Lemma handleProxyRequest_of_try (w : World) request storage o s1 :
  handleProxyRequest_try w request (init storage) = (o, s1) ->
  handleProxyRequest w request storage =
    match o with
    | Val r | Return r => (Fulfilled r, s1)
    | Throw e =>
        (Fulfilled (fallback (caches s1) request),
         snd (handleProxyRequest_catch request e s1))
    end.
Proof.
  intros Htry. unfold handleProxyRequest, call, try_catch. rewrite Htry.
  destruct o as [r|r|e]; try reflexivity.
  unfold handleProxyRequest_catch, fallback. step. cbn [caches log_event].
  destruct (caches_match (caches s1) request); reflexivity.
Qed.

Lemma catch_effect request e (s : State) :
  caches (snd (handleProxyRequest_catch request e s)) = caches s /\
  exists said,
    trace (snd (handleProxyRequest_catch request e s)) =
      (trace s ++ ConsoleError e :: CachesMatch request ::
       List.map ConsoleLog said)%list.
Proof.
  unfold handleProxyRequest_catch. step. cbn [caches log_event].
  destruct (caches_match (caches s) request); cbn [fst snd caches trace log_event].
  - split; [reflexivity|]. exists ["Serving from cache"].
    now rewrite <- !app_assoc.
  - split; [reflexivity|]. exists []. now rewrite <- !app_assoc.
Qed.

Lemma forwarded_app (a b : list Event) :
  forwarded (a ++ b) = (forwarded a ++ forwarded b)%list.
Proof. apply flat_map_app. Qed.

Lemma forwarded_said (said : list string) :
  forwarded (List.map ConsoleLog said) = [].
Proof. induction said; [reflexivity | assumption]. Qed.

Lemma after_read_effect request storage :
  caches (after_read request storage) = storage /\
  forwarded (trace (after_read request storage)) = [] /\
  (In RequestText (trace (after_read request storage)) <->
   method request <> "GET").
Proof.
  unfold after_read.
  destruct (String.eqb_spec (method request) "GET") as [Hm | Hm];
    cbn; intuition congruence.
Qed.

(** ** The cache storage *)

(** X15: the worker writes to the cache storage at most once per request,
    and only the response it hands back: the one built from a payload
    flagged cacheable that came with a success status from the edge
    function, stored under the intercepted request once the cache has been
    opened.  A request that ends in the fallback leaves the storage as it
    was. *)
Theorem handleProxyRequest_storage (w : World) request storage :
  let result := handleProxyRequest w request storage in
  caches (snd result) = storage \/
  exists rb reply d proxied,
    requestBody_of request = Fulfilled rb /\
    w_fetch w (proxyRequest_for w request rb) = Fulfilled reply /\
    ok reply = true /\
    reply_json reply = Fulfilled d /\
    Route.p_cacheable d = true /\
    Response_new d = Fulfilled proxied /\
    w_open w = Fulfilled tt /\
    fst result = Fulfilled proxied /\
    caches (snd result) = cache_put storage request proxied.
Proof.
  cbn zeta. pose proof (try_case_complete w request storage) as Hcase.
  rewrite (handleProxyRequest_of_try w request storage _ _ (surjective_pairing _)).
  destruct Hcase;
    try (left; cbn [fst snd];
         rewrite (proj1 (catch_effect _ _ _)); cbn [caches log_event after_fetch];
         apply after_read_effect).
  - right. exists rb, reply, d, proxied. cbn [fst snd caches put_entry log_event after_fetch].
    rewrite (proj1 (after_read_effect request storage)). auto 10.
  - left. cbn [fst snd caches log_event after_fetch]. apply after_read_effect.
Qed.

Lemma stored_run (w : World) request storage rb reply d proxied :
  requestBody_of request = Fulfilled rb ->
  w_fetch w (proxyRequest_for w request rb) = Fulfilled reply ->
  ok reply = true ->
  reply_json reply = Fulfilled d ->
  Response_new d = Fulfilled proxied ->
  Route.p_cacheable d = true ->
  w_open w = Fulfilled tt ->
  fst (handleProxyRequest w request storage) = Fulfilled proxied /\
  caches (snd (handleProxyRequest w request storage)) =
    cache_put storage request proxied.
Proof.
  intros Hrb Hfetch Hok Hjson Hnew Hcacheable Hopen.
  pose proof (try_case_complete w request storage) as Hcase.
  rewrite (handleProxyRequest_of_try w request storage _ _ (surjective_pairing _)).
  destruct Hcase;
    repeat match goal with
    | H1 : ?x = _, H2 : ?x = _ |- _ =>
        rewrite H1 in H2; first [discriminate H2 | injection H2 as <-]
    end; try congruence.
  cbn [fst snd caches put_entry log_event after_fetch].
  now rewrite (proj1 (after_read_effect request storage)).
Qed.

Lemma failed_run (w : World) request storage rb :
  requestBody_of request = Fulfilled rb ->
  forwarding_failed (w_fetch w (proxyRequest_for w request rb)) ->
  fst (handleProxyRequest w request storage) =
    Fulfilled (fallback storage request).
Proof.
  intros Hrb Hfailed.
  pose proof (try_case_complete w request storage) as Hcase.
  rewrite (handleProxyRequest_of_try w request storage _ _ (surjective_pairing _)).
  destruct Hcase;
    repeat match goal with
    | H1 : ?x = _, H2 : ?x = _ |- _ =>
        rewrite H1 in H2; first [discriminate H2 | injection H2 as <-]
    end;
    try match goal with
    | H : w_fetch _ _ = _ |- _ => rewrite H in Hfailed; cbn in Hfailed
    end; try congruence;
    cbn [fst snd caches log_event after_fetch];
    now rewrite (proj1 (after_read_effect request storage)).
Qed.

(** X16: what the worker has cached it serves when the edge function
    cannot be reached.  After a request answered with a cacheable payload,
    on a cache storage that hands back for a request the response put
    under it, the same request is answered with that proxied response when
    its forwarding call fails. *)
Theorem handleProxyRequest_offline (w1 w2 : World) request storage
    rb reply d proxied :
  requestBody_of request = Fulfilled rb ->
  w_fetch w1 (proxyRequest_for w1 request rb) = Fulfilled reply ->
  ok reply = true ->
  reply_json reply = Fulfilled d ->
  Response_new d = Fulfilled proxied ->
  Route.p_cacheable d = true ->
  w_open w1 = Fulfilled tt ->
  caches_match (cache_put storage request proxied) request = Some proxied ->
  forwarding_failed (w_fetch w2 (proxyRequest_for w2 request rb)) ->
  fst (handleProxyRequest w1 request storage) = Fulfilled proxied /\
  fst (handleProxyRequest w2 request
         (caches (snd (handleProxyRequest w1 request storage)))) =
    Fulfilled proxied.
Proof.
  intros Hrb Hfetch Hok Hjson Hnew Hcacheable Hopen Hlaw Hfailed.
  destruct (stored_run w1 request storage rb reply d proxied
              Hrb Hfetch Hok Hjson Hnew Hcacheable Hopen) as [Hfirst Hcaches].
  split; [exact Hfirst|].
  rewrite (failed_run w2 request _ rb Hrb Hfailed), Hcaches.
  unfold fallback. now rewrite Hlaw.
Qed.

(** ** The forwarding call *)

(** X17: the worker forwards an intercepted request at most once, as a
    POST to [/api/proxy] on its own origin whose JSON body carries the
    request's URL, its method and all of its headers as received; the body
    of a GET request is never read and [null] is sent for it, the body of
    any other request is read and sent as text. *)
Theorem handleProxyRequest_forwarding (w : World) request storage :
  let events := trace (snd (handleProxyRequest w request storage)) in
  (In RequestText events <-> method request <> "GET") /\
  (forwarded events = [] \/
   exists req,
     forwarded events = [req] /\
     pr_method req = "POST" /\
     pr_url req = w_location w +:+ "/api/proxy" /\
     Route.pb_url (pr_body req) = Some (url request) /\
     Route.pb_method (pr_body req) = Some (method request) /\
     Route.pb_headers (pr_body req) = Some (headers request) /\
     (method request = "GET" -> Route.pb_body (pr_body req) = None) /\
     (method request <> "GET" ->
      exists t, text request = Fulfilled t /\
                Route.pb_body (pr_body req) = Some t)).
Proof.
  cbn zeta. pose proof (try_case_complete w request storage) as Hcase.
  rewrite (handleProxyRequest_of_try w request storage _ _ (surjective_pairing _)).
  destruct (after_read_effect request storage) as [_ [Hnone Htext]].
  assert (Hbody : forall rb,
    requestBody_of request = Fulfilled rb ->
    (method request = "GET" -> rb = None) /\
    (method request <> "GET" -> exists t, text request = Fulfilled t /\ rb = Some t)).
  { intros rb. unfold requestBody_of.
    destruct (String.eqb_spec (method request) "GET") as [Hm | Hm].
    - intros [= <-]. split; [reflexivity | contradiction].
    - destruct (text request) as [t|e]; [|discriminate].
      intros [= <-]. split; [contradiction | eauto]. }
  assert (Hsent : forall rb,
    requestBody_of request = Fulfilled rb ->
    exists req,
      [proxyRequest_for w request rb] = [req] /\
      pr_method req = "POST" /\
      pr_url req = w_location w +:+ "/api/proxy" /\
      Route.pb_url (pr_body req) = Some (url request) /\
      Route.pb_method (pr_body req) = Some (method request) /\
      Route.pb_headers (pr_body req) = Some (headers request) /\
      (method request = "GET" -> Route.pb_body (pr_body req) = None) /\
      (method request <> "GET" ->
       exists t, text request = Fulfilled t /\
                 Route.pb_body (pr_body req) = Some t)).
  { intros rb Hrb. eexists. split; [reflexivity|]. cbn.
    repeat split; try reflexivity; apply (Hbody rb Hrb). }
  assert (Htry : forall o s1,
    try_case w request storage o s1 ->
    (In RequestText (trace s1) <-> method request <> "GET") /\
    (forwarded (trace s1) = [] \/
     exists rb, requestBody_of request = Fulfilled rb /\
                forwarded (trace s1) = [proxyRequest_for w request rb])).
  { assert (Hmore : forall extra,
      ~ In RequestText extra ->
      In RequestText (trace (after_read request storage) ++ extra)%list <->
      method request <> "GET").
    { intros extra Hextra. rewrite in_app_iff. tauto. }
    destruct 1; cbn [trace log_event put_entry after_fetch];
      rewrite <- ?app_assoc; cbn [app];
      (split;
       [ first [ exact Htext
               | apply Hmore; cbn; intuition discriminate ]
       | rewrite ?forwarded_app, ?Hnone; cbn [forwarded flat_map app];
         first [ now left | right; eauto ] ]). }
  assert (Hcatch : forall e s1,
    (In RequestText (trace (snd (handleProxyRequest_catch request e s1))) <->
     In RequestText (trace s1)) /\
    forwarded (trace (snd (handleProxyRequest_catch request e s1))) =
      forwarded (trace s1)).
  { intros e s1. destruct (catch_effect request e s1) as [_ [said ->]].
    split.
    - rewrite in_app_iff. cbn [In]. rewrite in_map_iff.
      split; [|tauto].
      intros [H | [H | [H | [x [H _]]]]]; try discriminate; assumption.
    - rewrite forwarded_app. cbn [forwarded flat_map app].
      fold (forwarded (List.map ConsoleLog said)).
      now rewrite forwarded_said, app_nil_r. }
  apply Htry in Hcase.
  destruct (handleProxyRequest_try w request (init storage)) as [o s1].
  cbn [fst snd] in Hcase.
  assert (Hevents : forall s',
    ((In RequestText (trace s') <-> In RequestText (trace s1)) /\
     forwarded (trace s') = forwarded (trace s1)) ->
    (In RequestText (trace s') <-> method request <> "GET") /\
    (forwarded (trace s') = [] \/
     exists req,
       forwarded (trace s') = [req] /\
       pr_method req = "POST" /\
       pr_url req = w_location w +:+ "/api/proxy" /\
       Route.pb_url (pr_body req) = Some (url request) /\
       Route.pb_method (pr_body req) = Some (method request) /\
       Route.pb_headers (pr_body req) = Some (headers request) /\
       (method request = "GET" -> Route.pb_body (pr_body req) = None) /\
       (method request <> "GET" ->
        exists t, text request = Fulfilled t /\
                  Route.pb_body (pr_body req) = Some t))).
  { intros s' [Hin Hfw]. rewrite Hin, Hfw.
    destruct Hcase as [Hread [Hsilent | [rb [Hrb Hone]]]].
    - split; [exact Hread | now left].
    - split; [exact Hread|]. right. rewrite Hone. now apply Hsent. }
  destruct o as [r|r|e]; cbn [fst snd]; [now apply Hevents.. |].
  apply Hevents, Hcatch.
Qed.

(** ** Replies no response can be built from *)

(** X18: a payload whose status is outside 200..599, or is one of the
    statuses that allow no body (101, 103, 204, 205, 304), never reaches
    the page, although the edge function answered with success: no
    [Response] can be built from it around a body, so the worker answers
    from its fallback and stores nothing. *)
Theorem handleProxyRequest_unbuildable (w : World) request storage rb reply d :
  requestBody_of request = Fulfilled rb ->
  w_fetch w (proxyRequest_for w request rb) = Fulfilled reply ->
  ok reply = true ->
  reply_json reply = Fulfilled d ->
  Route.p_status d < 200 \/ 599 < Route.p_status d \/
    In (Route.p_status d) [101; 103; 204; 205; 304] ->
  fst (handleProxyRequest w request storage) =
    Fulfilled (fallback storage request) /\
  caches (snd (handleProxyRequest w request storage)) = storage.
Proof.
  intros Hrb Hfetch Hok Hjson Hstatus.
  assert (Hnew : exists e, Response_new d = Rejected e).
  { unfold Response_new.
    destruct (Z.leb_spec 200 (Route.p_status d));
      destruct (Z.leb_spec (Route.p_status d) 599); cbn [andb negb]; eauto.
    assert (Hnull : is_null_body_status (Route.p_status d) = true).
    { unfold is_null_body_status. apply existsb_exists.
      exists (Route.p_status d). split; [|apply Z.eqb_refl].
      destruct Hstatus as [? | [? | ?]]; [lia | lia | assumption]. }
    rewrite Hnull. eauto. }
  destruct Hnew as [e Hnew].
  pose proof (try_case_complete w request storage) as Hcase.
  rewrite (handleProxyRequest_of_try w request storage _ _ (surjective_pairing _)).
  destruct Hcase;
    repeat match goal with
    | H1 : ?x = _, H2 : ?x = _ |- _ =>
        rewrite H1 in H2; first [discriminate H2 | injection H2 as <-]
    end; try congruence.
  cbn [fst snd]. rewrite (proj1 (catch_effect _ _ _)).
  cbn [caches log_event after_fetch].
  rewrite (proj1 (after_read_effect request storage)). split; reflexivity.
Qed.

End WorkerCases.

(** * The configuration route *)

Section ConfigFacts.
Import Json ConfigRoute.

Ltac step :=
  cbv beta iota delta [bind emit modify await ret return_ throw get_state
                       try_catch call];
  cbn [negb edge_reads clock trace proxy_config proxy_logs
       log_event next_read tick store_config store_log start app fst snd].

Ltac run :=
  unfold GET, POST, GET_try, GET_catch, POST_try, POST_catch, logActivity,
    edge_config_or, get_proxy_config, now;
  step.

(** X19: a row in [proxy_config] is the configuration GET answers with,
    whatever document it holds: nothing checks its shape, Edge Config is
    not read and the default plays no part. *)
Theorem config_GET_database_first (w : World) document logs :
  w_select w = Fulfilled tt ->
  GET w (Some document) logs =
    (Fulfilled (JsonConfig (w_column w document) (w_now w 0)),
     {| trace := [SqlSelect]; proxy_config := Some document;
        proxy_logs := logs; edge_reads := 0; clock := 1 |}).
Proof.
  intros Hselect. run. rewrite Hselect. reflexivity.
Qed.

(** X20: GET never rejects, and it answers 500 'Failed to retrieve
    configuration' exactly when the database yields no row and Edge Config
    cannot be read: after a failed SELECT when the one read of Edge Config
    is rejected, and with an empty table when the read is rejected twice --
    there the first failure is taken for a database error and the read is
    made again.  A failing database alone never fails GET. *)
Theorem config_GET_fails_iff (w : World) document logs :
  (exists r, fst (GET w document logs) = Fulfilled r) /\
  (fst (GET w document logs) =
     Fulfilled (JsonError "Failed to retrieve configuration" 500) <->
   (exists e0, w_edge w 0 = Rejected e0) /\
   ((exists e, w_select w = Rejected e) \/
    (w_select w = Fulfilled tt /\ document = None /\
     exists e1, w_edge w 1 = Rejected e1))).
Proof.
  run.
  destruct (w_select w) as [[]|e] eqn:Hselect; step.
  - destruct document as [document|]; step.
    + split; [eauto|]. split; [discriminate|].
      intros [_ [[e He] | [_ [Hd _]]]]; [discriminate He | discriminate Hd].
    + destruct (w_edge w 0) as [v0|e0] eqn:H0; step.
      * split; [eauto|]. split; [discriminate|].
        intros [[e He] _]; discriminate He.
      * destruct (w_edge w 1) as [v1|e1] eqn:H1; step.
        -- split; [eauto|]. split; [discriminate|].
           intros [_ [[e He] | [_ [_ [e He]]]]]; discriminate He.
        -- split; [eauto|]. split; [|reflexivity]. eauto 10.
  - destruct (w_edge w 0) as [v0|e0] eqn:H0; step.
    + split; [eauto|]. split; [discriminate|].
      intros [[e' He] _]; discriminate He.
    + split; [eauto|]. split; [|reflexivity]. eauto 10.
Qed.

(** X21: when the database yields no row -- the SELECT fails, or the table
    is empty -- GET answers with Edge Config's value if that is an object
    that is not an array, and with the default configuration for anything
    else Edge Config holds: nothing, [null], a boolean, a number, a string
    or an array. *)
Theorem config_GET_edge_fallback (w : World) document logs v :
  (exists e, w_select w = Rejected e) \/ document = None ->
  w_edge w 0 = Fulfilled v ->
  exists timestamp,
    fst (GET w document logs) =
      Fulfilled (JsonConfig (current_config v) timestamp) /\
    (current_config v = JObject DEFAULT_CONFIG \/
     exists fields, v = Some (JObject fields) /\
                    current_config v = JObject fields).
Proof.
  intros Hnone Hedge.
  assert (Hcurrent : current_config v = JObject DEFAULT_CONFIG \/
                     exists fields, v = Some (JObject fields) /\
                                    current_config v = JObject fields).
  { unfold current_config, is_config_object.
    destruct v as [[|b|n|t|items|fields]|]; cbn; rewrite ?andb_false_r; eauto. }
  assert (Hsame : (if is_config_object v
                   then default (JObject DEFAULT_CONFIG) v
                   else JObject DEFAULT_CONFIG) = current_config v)
    by reflexivity.
  run.
  destruct (w_select w) as [[]|e] eqn:Hselect; step.
  - destruct Hnone as [[e He] | ->]; [discriminate|]. step.
    rewrite Hedge. step. rewrite Hsame. eauto.
  - rewrite Hedge. step. rewrite Hsame. eauto.
Qed.

(** ** Updates *)

(** POST, path by path. *)
Lemma config_POST_run (w : World) document logs :
  POST w document logs =
    match w_json w with
    | Rejected e =>
        (Fulfilled (JsonError "Failed to update configuration" 500),
         {| trace := [RequestJson; ConsoleError "Error updating config:" e];
            proxy_config := document; proxy_logs := logs;
            edge_reads := 0; clock := 0 |})
    | Fulfilled updates =>
        if negb (String.eqb (typeof (Some updates)) "object") ||
           is_null (Some updates)
        then
          (Fulfilled (JsonError "Invalid configuration data" 400),
           {| trace := [RequestJson];
              proxy_config := document; proxy_logs := logs;
              edge_reads := 0; clock := 0 |})
        else
          match w_edge w 0 with
          | Rejected e =>
              (Fulfilled (JsonError "Failed to update configuration" 500),
               {| trace := [RequestJson; EdgeConfigGet;
                            ConsoleError "Error updating config:" e];
                  proxy_config := document; proxy_logs := logs;
                  edge_reads := 1; clock := 0 |})
          | Fulfilled v =>
              let newConfig := JObject (merged updates v) in
              if invalid_structure (merged updates v)
              then
                (Fulfilled (JsonError "Invalid configuration structure" 400),
                 {| trace := [RequestJson; EdgeConfigGet];
                    proxy_config := document; proxy_logs := logs;
                    edge_reads := 1; clock := 0 |})
              else
                match w_upsert w newConfig with
                | Rejected e =>
                    (Fulfilled (JsonError "Failed to update configuration" 500),
                     {| trace := [RequestJson; EdgeConfigGet; SqlUpsert newConfig;
                                  ConsoleError "Error updating config:" e];
                        proxy_config := document; proxy_logs := logs;
                        edge_reads := 1; clock := 0 |})
                | Fulfilled _ =>
                    match w_log_insert w (update_log w updates) with
                    | Rejected e =>
                        (Fulfilled (JsonConfig newConfig (w_now w 1)),
                         {| trace := [RequestJson; EdgeConfigGet;
                                      SqlUpsert newConfig;
                                      SqlInsertLog (update_log w updates);
                                      ConsoleError "Failed to log activity:" e];
                            proxy_config := Some newConfig; proxy_logs := logs;
                            edge_reads := 1; clock := 2 |})
                    | Fulfilled _ =>
                        (Fulfilled (JsonConfig newConfig (w_now w 1)),
                         {| trace := [RequestJson; EdgeConfigGet;
                                      SqlUpsert newConfig;
                                      SqlInsertLog (update_log w updates);
                                      ConsoleLog "[INFO] Configuration updated"];
                            proxy_config := Some newConfig;
                            proxy_logs := (logs ++ [update_log w updates])%list;
                            edge_reads := 1; clock := 2 |})
                    end
                end
          end
    end.
Proof.
  run.
  destruct (w_json w) as [updates|e]; step; [|reflexivity].
  destruct (negb (String.eqb (typeof (Some updates)) "object") ||
            is_null (Some updates)); step; [reflexivity|].
  destruct (w_edge w 0) as [v|e]; step; [|reflexivity].
  fold (current_config v). fold (merged updates v).
  destruct (invalid_structure (merged updates v)); step; [reflexivity|].
  destruct (w_upsert w (JObject (merged updates v))) as [[]|e]; step;
    [|reflexivity].
  fold (update_log w updates).
  destruct (w_log_insert w (update_log w updates)) as [[]|e]; step; reflexivity.
Qed.

Lemma union_default_lookup (m : gmap string JsValue) (k : string) :
  (m ∪ DEFAULT_CONFIG) !! k =
    match m !! k with Some x => Some x | None => DEFAULT_CONFIG !! k end.
Proof.
  rewrite lookup_union.
  destruct (m !! k), (DEFAULT_CONFIG !! k); reflexivity.
Qed.

(** Merged into the default configuration, an update has an invalid
    structure exactly when it gives one of the six fields a value of the
    wrong type. *)
Lemma invalid_structure_default (m : gmap string JsValue) :
  invalid_structure (m ∪ DEFAULT_CONFIG) = true <->
  exists k x, m !! k = Some x /\ well_typed k x = false.
Proof.
  unfold invalid_structure. rewrite !union_default_lookup. split.
  - intros H.
    repeat (apply orb_true_iff in H; destruct H as [H | H]);
      match type of H with
      | context [m !! ?k] =>
          destruct (m !! k) as [x|] eqn:Hx;
          [exists k, x; split; [exact Hx|]; cbn;
           apply negb_true_iff in H; exact H
          | vm_compute in H; discriminate H]
      end.
  - intros [k [x [Hk Hx]]]. unfold well_typed in Hx.
    repeat match type of Hx with
    | context [String.eqb k ?name] =>
        destruct (String.eqb_spec k name) as [-> | _];
        [rewrite Hk, Hx; cbn [negb];
         repeat (rewrite ?orb_true_r; cbn [orb]); reflexivity|]
    end.
    discriminate Hx.
Qed.

(** X22: POST refuses a body that is not an object -- [null], a boolean,
    a number or a string -- with 400 'Invalid configuration data'; an
    array passes this check.  With no configuration in Edge Config, it
    refuses an update with 400 'Invalid configuration structure' exactly
    when the update gives one of the six fields a value of the wrong
    type: fields the update leaves out, keys outside the six and the
    elements of the three arrays are never a reason to refuse. *)
Theorem config_POST_validation (w : World) document logs updates v :
  w_json w = Fulfilled updates ->
  w_edge w 0 = Fulfilled v ->
  is_config_object v = false ->
  (fst (POST w document logs) =
     Fulfilled (JsonError "Invalid configuration data" 400) <->
   updates = JNull \/ typeof (Some updates) <> "object") /\
  (fst (POST w document logs) =
     Fulfilled (JsonError "Invalid configuration structure" 400) <->
   updates <> JNull /\ typeof (Some updates) = "object" /\
   exists k x, spread updates !! k = Some x /\ well_typed k x = false).
Proof.
  intros Hjson Hedge Hnone. rewrite config_POST_run, Hjson, Hedge.
  assert (Hmerged : merged updates v = spread updates ∪ DEFAULT_CONFIG).
  { unfold merged, current_config. now rewrite Hnone. }
  rewrite Hmerged.
  pose proof (invalid_structure_default (spread updates)) as Hinvalid.
  destruct updates as [|b|n|t|items|fields]; cbn [typeof is_null negb orb String.eqb Ascii.eqb Bool.eqb fst] in *;
    try (split; split; [intros _; right; discriminate | reflexivity
                       | discriminate | intros [_ [H _]]; discriminate H]).
  - split; split; [intros _; now left | reflexivity
                  | discriminate | intros [H _]; now destruct H].
  - destruct (invalid_structure _).
    + split; split; [discriminate | intros [H | H]; [discriminate H | now destruct H]
                    | intros _; repeat split; [discriminate | now apply Hinvalid]
                    | reflexivity].
    + split; split; [| intros [H | H]; [discriminate H | now destruct H]
                    | | intros [_ [_ H]]; apply Hinvalid in H; discriminate H].
      * destruct (w_upsert w _) as [[]|e]; [destruct (w_log_insert w _) as [[]|e]|];
          discriminate.
      * destruct (w_upsert w _) as [[]|e]; [destruct (w_log_insert w _) as [[]|e]|];
          discriminate.
  - destruct (invalid_structure _).
    + split; split; [discriminate | intros [H | H]; [discriminate H | now destruct H]
                    | intros _; repeat split; [discriminate | now apply Hinvalid]
                    | reflexivity].
    + split; split; [| intros [H | H]; [discriminate H | now destruct H]
                    | | intros [_ [_ H]]; apply Hinvalid in H; discriminate H].
      * destruct (w_upsert w _) as [[]|e]; [destruct (w_log_insert w _) as [[]|e]|];
          discriminate.
      * destruct (w_upsert w _) as [[]|e]; [destruct (w_log_insert w _) as [[]|e]|];
          discriminate.
Qed.

Ltac config_POST_paths w updates v :=
  rewrite !config_POST_run;
  destruct (w_json w) as [updates|?e] eqn:?;
    [|cbn [fst snd proxy_config proxy_logs trace]];
  [destruct (negb (String.eqb (typeof (Some updates)) "object") ||
             is_null (Some updates)) eqn:?;
   [cbn [fst snd proxy_config proxy_logs trace]|
    destruct (w_edge w 0) as [v|?e] eqn:?;
    [cbn zeta;
     destruct (invalid_structure (merged updates v)) eqn:?;
     [|destruct (w_upsert w (JObject (merged updates v))) as [[]|?e] eqn:?;
       [destruct (w_log_insert w (update_log w updates)) as [[]|?e] eqn:?|]]|];
    cbn [fst snd proxy_config proxy_logs trace]]|].

(** X23: POST never looks at the stored document.  Its answer is the
    same whatever the table holds; an update that succeeds replaces the
    stored document by the update spread over Edge Config's configuration
    (the default when Edge Config holds none), so what an earlier update
    stored and Edge Config does not hold is gone; an update answered with
    an error leaves the stored document and the log as they were. *)
Theorem config_POST_merges_into_edge_config (w : World) document document' logs :
  fst (POST w document logs) = fst (POST w document' logs) /\
  (forall config timestamp,
     fst (POST w document logs) = Fulfilled (JsonConfig config timestamp) ->
     proxy_config (snd (POST w document logs)) = Some config /\
     exists updates v,
       w_json w = Fulfilled updates /\
       w_edge w 0 = Fulfilled v /\
       config = JObject (spread updates ∪ spread (current_config v))) /\
  (forall error status,
     fst (POST w document logs) = Fulfilled (JsonError error status) ->
     proxy_config (snd (POST w document logs)) = document /\
     proxy_logs (snd (POST w document logs)) = logs).
Proof.
  config_POST_paths w updates v;
    (split; [reflexivity
            |split; [intros config timestamp H | intros error status H]]);
    try discriminate H; try (split; reflexivity);
    injection H as <- <-; (split; [reflexivity|]);
    exists updates, v; repeat split.
Qed.

(** X24: once the update is stored, logging cannot fail the request.
    Whenever POST gets as far as inserting the log row, it answers with
    the new configuration and has stored it, whether the database took
    the log row -- then the row is in [proxy_logs] -- or refused it --
    then the log is as it was. *)
Theorem config_POST_logging_is_best_effort (w : World) document logs row :
  In (SqlInsertLog row) (trace (snd (POST w document logs))) ->
  exists config timestamp,
    fst (POST w document logs) = Fulfilled (JsonConfig config timestamp) /\
    proxy_config (snd (POST w document logs)) = Some config /\
    (w_log_insert w row = Fulfilled tt ->
     proxy_logs (snd (POST w document logs)) = (logs ++ [row])%list) /\
    (forall e, w_log_insert w row = Rejected e ->
     proxy_logs (snd (POST w document logs)) = logs).
Proof.
  revert row.
  config_POST_paths w updates v; intros row Hin; cbn [In] in Hin;
    repeat match goal with
    | H : _ \/ _ |- _ => destruct H as [H | H]
    | H : False |- _ => destruct H
    | H : SqlInsertLog _ = SqlInsertLog _ |- _ => injection H as <-
    end; try discriminate;
    do 2 eexists; (split; [reflexivity|]); (split; [reflexivity|]);
    (split; [intros H | intros e' H]); try reflexivity; congruence.
Qed.

(** X25: GET hands back what POST stored.  After an update that was
    answered with a configuration, a GET that finds the database up, on a
    column that returns a document as it was given, answers with that
    same configuration and does not read Edge Config. *)
Theorem config_POST_then_GET (w1 w2 : World) document logs config timestamp :
  fst (POST w1 document logs) = Fulfilled (JsonConfig config timestamp) ->
  w_select w2 = Fulfilled tt ->
  (forall d, w_column w2 d = d) ->
  let stored := snd (POST w1 document logs) in
  fst (GET w2 (proxy_config stored) (proxy_logs stored)) =
    Fulfilled (JsonConfig config (w_now w2 0)) /\
  ~ In EdgeConfigGet
      (trace (snd (GET w2 (proxy_config stored) (proxy_logs stored)))).
Proof.
  intros Hpost Hselect Hcolumn stored.
  assert (Hstored : proxy_config stored = Some config).
  { subst stored. revert Hpost.
    config_POST_paths w1 updates v; try discriminate; now intros [= <- <-]. }
  rewrite Hstored. run. rewrite Hselect. step. rewrite Hcolumn.
  split; [reflexivity|]. cbn. intuition discriminate.
Qed.

End ConfigFacts.

(** * The logs route *)

Section LogsFacts.
Import Json LogsRoute.
Variable parseInt : string -> Number.

Ltac step :=
  cbv beta iota delta [bind emit modify await ret return_ throw get_state
                       try_catch call first_row];
  cbn [negb trace proxy_logs log_event store_row start app fst snd].

(** ** The queries of GET *)

Lemma add_filter_given condition value (f : Filters) :
  add_filter condition value f =
    if given value
    then {| whereClause := whereClause f +:+ " AND " +:+ condition +:+ " $" +:+
                           pretty (paramIndex f);
            params := params f ++ [PString (default "" value)];
            paramIndex := S (paramIndex f) |}
    else f.
Proof.
  unfold add_filter, given. destruct value as [v|]; [|reflexivity].
  destruct (String.eqb v ""); reflexivity.
Qed.

Lemma filters_index (q : Query) :
  paramIndex (filters q) = S (length (params (filters q))).
Proof.
  unfold filters. rewrite !add_filter_given.
  destruct (given (q_level q)), (given (q_startDate q)), (given (q_endDate q));
    reflexivity.
Qed.

(** X26: the page query of GET binds its two numbers the wrong way
    round.  In the text it sends, the placeholder after LIMIT is the one
    bound to the request's offset and the placeholder after OFFSET is the
    one bound to the limit (at most 1000): the database is asked for
    [offset] rows after skipping [limit]. *)
Theorem logs_GET_binds_limit_to_offset (w : World) q logs text parameters :
  trace (snd (GET parseInt w q logs)) !! 1%nat = Some (SqlQuery text parameters) ->
  let limit := Math_min (parseInt (or_default (q_limit q) "100")) 1000 in
  let offset := parseInt (or_default (q_offset q) "0") in
  exists head l o,
    text = head +:+ "LIMIT $" +:+ pretty l +:+ " OFFSET $" +:+ pretty o +:+
           newline +:+ "    " /\
    bound parameters l = Some (PNumber offset) /\
    bound parameters o = Some (PNumber limit) /\
    length parameters = l.
Proof.
  intros Hsent limit offset.
  assert (Hpage : text = logsQuery q /\
    parameters = (params (filters q) ++ [PNumber limit; PNumber offset])%list).
  { revert Hsent. unfold GET, GET_try, GET_catch. step.
    rewrite filters_index. cbn [Nat.sub]. rewrite Nat.sub_0_r, firstn_all.
    destruct (w_count w _ _) as [[|row rows]|e]; step; try discriminate.
    destruct (is_zero (parseInt row)); step; try discriminate.
    fold limit offset.
    destruct (w_logs w _ _) as [found|e]; step; cbn; now intros [= <- <-]. }
  destruct Hpage as [-> ->].
  exists (newline +:+
          "      SELECT timestamp, level, message, url, ip, userAgent, responseTime, statusCode" +:+
          newline +:+ "      FROM proxy_logs" +:+ newline +:+
          "      " +:+ whereClause (filters q) +:+ newline +:+
          "      ORDER BY timestamp DESC" +:+ newline +:+ "      "),
         (S (paramIndex (filters q))), (paramIndex (filters q)).
  rewrite filters_index. split; [|split; [|split]].
  - unfold logsQuery. rewrite filters_index.
    rewrite !append_assoc. reflexivity.
  - cbn [bound]. rewrite lookup_app_r by lia.
    now replace (S (length (params (filters q))) - length (params (filters q)))%nat
      with 1%nat by lia.
  - cbn [bound]. rewrite lookup_app_r by lia.
    now rewrite Nat.sub_diag.
  - rewrite length_app. cbn [length]. lia.
Qed.

(** X27: no value of the request is ever part of the SQL text.  The text
    of both queries depends only on which of [level], [startDate] and
    [endDate] are given, not on what they are nor on [limit] and
    [offset]; the values given travel as parameters, in that order. *)
Theorem logs_GET_queries_carry_no_values (q q' : Query) :
  given (q_level q) = given (q_level q') ->
  given (q_startDate q) = given (q_startDate q') ->
  given (q_endDate q) = given (q_endDate q') ->
  countQuery q = countQuery q' /\
  logsQuery q = logsQuery q' /\
  params (filters q) = List.map PString (given_values q).
Proof.
  intros Hlevel Hstart Hend.
  assert (Htext : whereClause (filters q) = whereClause (filters q') /\
                  paramIndex (filters q) = paramIndex (filters q')).
  { unfold filters. rewrite !add_filter_given, Hlevel, Hstart, Hend.
    destruct (given (q_level q')), (given (q_startDate q')),
      (given (q_endDate q')); split; reflexivity. }
  destruct Htext as [Hwhere Hindex].
  split; [|split].
  - unfold countQuery. now rewrite Hwhere.
  - unfold logsQuery. now rewrite Hwhere, Hindex.
  - unfold filters, given_values, add_filter.
    destruct (q_level q) as [a|]; [destruct (String.eqb a "") eqn:Ha|];
      (destruct (q_startDate q) as [b|]; [destruct (String.eqb b "") eqn:Hb|]);
      (destruct (q_endDate q) as [c|]; [destruct (String.eqb c "") eqn:Hc|]);
      cbn; rewrite ?Ha, ?Hb, ?Hc; reflexivity.
Qed.

(** ** New entries *)

(** POST on a body that is an object, path by path. *)
Lemma logs_POST_run (w : World) logs fields :
  w_json w = Fulfilled (JObject fields) ->
  POST w logs =
    let level := fields !! "level" in
    let message := fields !! "message" in
    let row := entry_of w fields in
    let failed e events table :=
      (Fulfilled (JsonError "Failed to create log entry" 500),
       {| trace := (events ++ [ConsoleError "Error creating log entry:" e])%list;
          proxy_logs := table |}) in
    let said := ConsoleLog ("[" +:+ upper_level level +:+ "]") message in
    if negb (truthy level) || negb (truthy message)
    then (Fulfilled (JsonError "Level and message are required" 400),
          {| trace := [RequestJson]; proxy_logs := logs |})
    else if negb (is_level level)
    then (Fulfilled (JsonError "Invalid log level" 400),
          {| trace := [RequestJson]; proxy_logs := logs |})
    else
      match w_insert w row with
      | Rejected e => failed e [RequestJson; SqlInsert row] logs
      | Fulfilled [] =>
          failed TypeError [RequestJson; SqlInsert row; said]
            (logs ++ [row])%list
      | Fulfilled (inserted :: _) =>
          match property inserted "id" with
          | Rejected e =>
              failed e [RequestJson; SqlInsert row; said] (logs ++ [row])%list
          | Fulfilled logId =>
              (Fulfilled (JsonCreated logId (row_timestamp row)),
               {| trace := [RequestJson; SqlInsert row; said];
                  proxy_logs := (logs ++ [row])%list |})
          end
      end.
Proof.
  intros Hjson. unfold POST, POST_try, POST_catch. step. rewrite Hjson.
  cbn [property spread]. step.
  destruct (negb (truthy (fields !! "level")) ||
            negb (truthy (fields !! "message"))); step; [reflexivity|].
  destruct (negb (is_level (fields !! "level"))); step; [reflexivity|].
  fold (entry_of w fields).
  destruct (w_insert w (entry_of w fields)) as [[|inserted rest]|e]; step;
    try reflexivity.
  destruct (property inserted "id"); reflexivity.
Qed.

(** X28: what POST asks of a body.  [null] is answered 500, not 400:
    reading its [level] throws.  Any other body that is not an object is
    answered 400 'Level and message are required'.  An object is answered
    that when its [level] or its [message] is missing or falsy, and 400
    'Invalid log level' when both are truthy but [level] is not one of the
    strings info, warn and error; [message] may be any truthy value, not
    only a string. *)
Theorem logs_POST_requirements (w : World) logs body :
  w_json w = Fulfilled body ->
  (body = JNull ->
   fst (POST w logs) = Fulfilled (JsonError "Failed to create log entry" 500)) /\
  (body <> JNull -> (forall fields, body <> JObject fields) ->
   fst (POST w logs) =
     Fulfilled (JsonError "Level and message are required" 400)) /\
  (forall fields, body = JObject fields ->
   (fst (POST w logs) =
      Fulfilled (JsonError "Level and message are required" 400) <->
    truthy (fields !! "level") = false \/
    truthy (fields !! "message") = false) /\
   (fst (POST w logs) = Fulfilled (JsonError "Invalid log level" 400) <->
    truthy (fields !! "level") = true /\
    truthy (fields !! "message") = true /\
    forall s, fields !! "level" = Some (JString s) ->
              ~ In s ["info"; "warn"; "error"])).
Proof.
  intros Hjson. split; [|split].
  - intros ->. unfold POST, POST_try, POST_catch. step. rewrite Hjson.
    reflexivity.
  - intros Hnull Hobject. unfold POST, POST_try, POST_catch. step.
    rewrite Hjson.
    destruct body as [|b|n|t|items|fields]; try reflexivity.
    + now destruct Hnull.
    + now destruct (Hobject fields).
  - intros fields ->. rewrite (logs_POST_run w logs fields Hjson). cbn zeta.
    assert (Hlevel : is_level (fields !! "level") = false <->
      forall s, fields !! "level" = Some (JString s) ->
                ~ In s ["info"; "warn"; "error"]).
    { unfold is_level.
      destruct (fields !! "level") as [[|b|n|t|items|inner]|];
        try (split; [intros _ s [=] | reflexivity]).
      split.
      - intros Hno s [= <-] Hin.
        assert (existsb (String.eqb t) ["info"; "warn"; "error"] = true);
          [|congruence].
        apply existsb_exists. exists t. split; [exact Hin|].
        apply String.eqb_refl.
      - intros Hno.
        destruct (existsb (String.eqb t) ["info"; "warn"; "error"]) eqn:Hex;
          [|reflexivity].
        apply existsb_exists in Hex as [x [Hin Heq]].
        apply String.eqb_eq in Heq as <-. now destruct (Hno t eq_refl). }
    destruct (truthy (fields !! "level")), (truthy (fields !! "message"));
      cbn [negb orb fst].
    + destruct (is_level (fields !! "level")) eqn:Hvalid; cbn [negb fst].
      * split; split; try (intros [H | H]; discriminate H).
        -- destruct (w_insert w _) as [[|inserted rest]|e];
             [| destruct (property inserted "id") |]; discriminate.
        -- destruct (w_insert w _) as [[|inserted rest]|e];
             [| destruct (property inserted "id") |]; discriminate.
        -- intros [_ [_ Hno]]. apply Hlevel in Hno. discriminate Hno.
      * split; split; try discriminate; try (intros [H | H]; discriminate H).
        -- intros _. repeat split. now apply Hlevel.
        -- reflexivity.
    + split; split; try reflexivity; try discriminate; auto.
      intros [_ [H _]]. discriminate H.
    + split; split; try reflexivity; try discriminate; auto.
      intros [H _]. discriminate H.
    + split; split; try reflexivity; try discriminate; auto.
      intros [H _]. discriminate H.
Qed.

(** X29: a client chooses the time of its entry.  When the body carries
    a [timestamp] field, its value -- any JSON value -- is what POST
    inserts as the entry's timestamp and what it answers with; the
    server's clock is used only for a body without that field.  Whenever
    POST answers with an id, the entry is in the table. *)
Theorem logs_POST_client_timestamp (w : World) logs fields row :
  w_json w = Fulfilled (JObject fields) ->
  In (SqlInsert row) (trace (snd (POST w logs))) ->
  row_timestamp row =
    Some (default (JString (w_now w)) (fields !! "timestamp")) /\
  (forall logId timestamp,
     fst (POST w logs) = Fulfilled (JsonCreated logId timestamp) ->
     timestamp = row_timestamp row /\
     proxy_logs (snd (POST w logs)) = (logs ++ [row])%list).
Proof.
  intros Hjson. rewrite (logs_POST_run w logs fields Hjson). cbn zeta.
  assert (Htime : row_timestamp (entry_of w fields) =
                  Some (default (JString (w_now w)) (fields !! "timestamp"))).
  { cbn [entry_of row_timestamp]. rewrite lookup_union.
    destruct (fields !! "timestamp"); cbn; [reflexivity|].
    now rewrite lookup_singleton_eq. }
  destruct (negb (truthy (fields !! "level")) ||
            negb (truthy (fields !! "message")));
    [cbn; intuition discriminate|].
  destruct (negb (is_level (fields !! "level")));
    [cbn; intuition discriminate|].
  assert (Hrow : forall events,
    In (SqlInsert row)
       (RequestJson :: SqlInsert (entry_of w fields) :: events) ->
    (forall e, In e events -> forall r, e <> SqlInsert r) ->
    row = entry_of w fields).
  { intros events [H | [H | H]] Hevents; [discriminate H | now injection H|].
    now destruct (Hevents _ H row). }
  destruct (w_insert w (entry_of w fields)) as [[|inserted rest]|e];
    [| destruct (property inserted "id") |];
    cbn [fst snd trace proxy_logs app]; intros Hin;
    apply Hrow in Hin as ->;
    try (intros e0 He0 r; cbn in He0;
         repeat destruct He0 as [<- | He0]; try discriminate; destruct He0);
    (split; [exact Htime|]); intros logId timestamp H; try discriminate H.
  injection H as <- <-. split; reflexivity.
Qed.

End LogsFacts.

(** * From the page to the origin *)

Section EndToEnd.
Context `{RT : Runtime} `{CA : SW.CacheAPI}.

Lemma forwarded_by_worker (w : SW.World) request storage fw :
  In fw (SW.forwarded (SW.trace (snd (SW.handleProxyRequest w request storage)))) ->
  exists requestBody, fw = SW.proxyRequest_for w request requestBody.
Proof.
  pose proof (try_case_complete w request storage) as Hcase.
  rewrite (handleProxyRequest_of_try w request storage _ _ (surjective_pairing _)).
  destruct (after_read_effect request storage) as [_ [Hnone _]].
  assert (Htry : forall o s1,
    SW.try_case w request storage o s1 ->
    forall fw, In fw (SW.forwarded (SW.trace s1)) ->
    exists requestBody, fw = SW.proxyRequest_for w request requestBody).
  { destruct 1; intros fw' Hin; revert Hin;
      cbn [SW.trace SW.log_event SW.put_entry SW.after_fetch];
      rewrite ?forwarded_app, ?Hnone; cbn [SW.forwarded flat_map app In];
      first [ intros [<- | []]; eauto | intros [] ]. }
  destruct (SW.handleProxyRequest_try w request (SW.init storage)) as [o s1].
  cbn [fst snd] in Hcase. specialize (Htry o s1 Hcase).
  destruct o as [r|r|e]; cbn [fst snd]; try apply Htry.
  destruct (catch_effect request e s1) as [_ [said ->]].
  rewrite forwarded_app. cbn [SW.forwarded flat_map app].
  fold (SW.forwarded (List.map SW.ConsoleLog said)).
  rewrite forwarded_said, app_nil_r. apply Htry.
Qed.

(** X30: a request that comes through the service worker takes no
    cookie, referer or origin header to the origin, however these names
    are written.  The worker forwards the headers under the names its
    [Headers] object lists them by, which are in lower case, and the edge
    function removes exactly the lower-case names: when the body POST
    reads is the one the worker sent, no header of the request it fetches
    has a name that lower-cases to cookie, referer or origin. *)
Theorem worker_requests_are_sanitized (sw : SW.World) request storage fw
    (edge : Route.World) table req k :
  (forall name, is_Some (SW.headers request !! name) -> toLowerCase name = name) ->
  In fw (SW.forwarded (SW.trace (snd (SW.handleProxyRequest sw request storage)))) ->
  Route.w_body edge = Fulfilled (SW.pr_body fw) ->
  In req (Route.fetches (Route.trace (snd (Route.POST edge table)))) ->
  In (toLowerCase k) ["cookie"; "referer"; "origin"] ->
  Route.req_headers req !! k = None.
Proof.
  intros Hlower Hfw Hbody Hin Hname.
  apply forwarded_by_worker in Hfw as [requestBody ->].
  cbn [SW.pr_body SW.proxyRequest_for] in Hbody.
  destruct (POST_fetches edge table)
    as [Hnone | [config [u [req' [s1 [Hprep Hone]]]]]].
  - rewrite Hnone in Hin. destruct Hin.
  - rewrite Hone in Hin. destruct Hin as [<- | []].
    inversion Hprep
      as [ | | | | | | | | v b' u' target req0 s1' Hc He Hb Hu Hp Hbl Hal Hreq];
      subst.
    rewrite Hbody in Hb. injection Hb as <-.
    inversion Hreq as [ | | u1 sa h' sb Hrw Hsan Hvalid]; subst.
    cbn [Route.req_headers Route.pb_headers] in *.
    change (default ∅ (Some (SW.headers request))) with (SW.headers request)
      in Hsan.
    destruct (sanitizeHeaders_exact_keys edge (SW.headers request) sa)
      as [h'' [s'' [Hrun [Hcookie [Hreferer [Horigin [_ [_ [_ Hother]]]]]]]]].
    rewrite Hsan in Hrun. injection Hrun as <- _.
    destruct (decide (In k ["cookie"; "referer"; "origin"; "user-agent";
                            "x-forwarded-for"; "x-proxy-engine"])) as [Hk | Hk].
    + cbn in Hk.
      destruct Hk as [<- | [<- | [<- | [<- | [<- | [<- | []]]]]]];
        try assumption;
        cbn in Hname; intuition discriminate.
    + rewrite (Hother k Hk).
      destruct (SW.headers request !! k) as [x|] eqn:Hx; [|reflexivity].
      rewrite (Hlower k) in Hname by (rewrite Hx; eauto).
      destruct Hk. cbn in Hname |- *. tauto.
Qed.

End EndToEnd.

(** * The further properties at concrete inputs *)

Section FurtherRouteEvaluations.
Import Route Fragment Scenario.

(** A request without URL, under the default configuration. *)
Lemma POST_url_validation_witness :
  POST (world (Fulfilled CUndefined) "" (Rejected TimeoutError)) [] =
    (Fulfilled (JsonError "URL is required" 400),
     {| trace := [EdgeConfigGet; RequestJson]; proxy_cache := []; draws := 0 |}).
Proof.
  refine (proj1 (POST_url_validation
                   (world (Fulfilled CUndefined) "" (Rejected TimeoutError))
                   [] CUndefined
                   {| pb_url := Some ""; pb_method := None;
                      pb_headers := None; pb_body := None |} _ _ _) _);
    try reflexivity.
  right. reflexivity.
Defined.

(** A host that is not blocked and not on the allow-list. *)
Lemma POST_forbidden_iff_witness :
  POST (world (Fulfilled (CObject (config true 1048576 ["example.com"] [] [])))
          blocked_site (Rejected TimeoutError)) [] =
    (Fulfilled (JsonError "Domain is not allowed" 403),
     {| trace := [EdgeConfigGet; RequestJson]; proxy_cache := []; draws := 0 |}).
Proof.
  refine (proj2 (POST_forbidden_iff
                   (world (Fulfilled (CObject (config true 1048576 ["example.com"] [] [])))
                      blocked_site (Rejected TimeoutError))
                   [] (CObject (config true 1048576 ["example.com"] [] []))
                   {| pb_url := Some blocked_site; pb_method := None;
                      pb_headers := None; pb_body := None |}
                   blocked_site {| hostname := "blocked-site.com" |}
                   _ _ _ _ _) _ _);
    reflexivity.
Defined.

(** The origin times out. *)
Lemma POST_origin_unreachable_witness :
  fst (POST (world (Fulfilled CUndefined) example_site (Rejected TimeoutError)) []) =
    Fulfilled (JsonError "Proxy request failed" 500) /\
  In (ConsoleError TimeoutError)
     (trace (snd (POST (world (Fulfilled CUndefined) example_site
                          (Rejected TimeoutError)) []))).
Proof.
  pose proof (fun cfg u req s1 Hprep =>
    POST_origin_unreachable
      (world (Fulfilled CUndefined) example_site (Rejected TimeoutError))
      [] cfg u req s1 TimeoutError Hprep eq_refl) as H.
  edestruct H as [message Hm]; [vm_compute; reflexivity|].
  rewrite Hm. cbn. auto 10.
Defined.

(** C7 at a cacheable page under the default configuration: the INSERT is
    sent with the key and the TTL among its seven values; its text has
    [$7] inside the literal and six placeholders outside; the request is
    answered 500 and the table stays empty. *)
Lemma POST_insert_is_refused_witness :
  let w := world (Fulfilled CUndefined) example_site
             (Fulfilled (page "text/html" "hello")) in
  isCacheableResponse (page "text/html" "hello") = true /\
  fst (POST w []) = Fulfilled (JsonError "Proxy request failed" 500) /\
  proxy_cache (snd (POST w [])) = [] /\
  exists statement,
    inserts (trace (snd (POST w []))) = [statement] /\
    includes (st_text statement) "NOW() + INTERVAL '$7 seconds'" = true /\
    placeholders (st_text statement) = 6%nat /\
    length (st_values statement) = 7%nat /\
    st_values statement !! 0%nat =
      Some (SqlText "proxy:https://example.com/:1700000000000") /\
    st_values statement !! 1%nat = Some (SqlText "hello") /\
    st_values statement !! 6%nat = Some (SqlNumber 3600).
Proof.
  cbv zeta.
  pose proof (POST_insert_is_refused
                (world (Fulfilled CUndefined) example_site
                   (Fulfilled (page "text/html" "hello"))) [])
    as [Htable [_ [Hsent _]]].
  assert (Hin : exists statement,
    In statement
      (inserts (trace (snd (POST (world (Fulfilled CUndefined) example_site
                                    (Fulfilled (page "text/html" "hello"))) [])))))
    by (eexists; vm_compute; left; reflexivity).
  destruct Hin as [statement Hin].
  destruct (Hsent statement Hin)
    as [Hone [_ [Hsix [Hseven [_ [Hanswer _]]]]]].
  split; [vm_compute; reflexivity|].
  split; [exact Hanswer|]. split; [exact Htable|].
  exists statement. split; [exact Hone|].
  revert Hone Hsix Hseven. vm_compute. intros [= <-] _ _.
  repeat split; vm_compute; reflexivity.
Defined.

(** The database refuses every insert. *)
Lemma POST_cache_write_failure_witness :
  let w := read_only (world (Fulfilled CUndefined) example_site
                        (Fulfilled (page "text/html" "hello"))) in
  fst (POST w []) = Fulfilled (JsonError "Proxy request failed" 500) /\
  proxy_cache (snd (POST w [])) = [].
Proof.
  cbv zeta.
  eapply (fun cfg u req s1 Hprep Hfits =>
    POST_cache_write_failure
      (read_only (world (Fulfilled CUndefined) example_site
                    (Fulfilled (page "text/html" "hello"))))
      [] cfg u req s1 (page "text/html" "hello")
      DatabaseError Hprep eq_refl Hfits eq_refl (fun _ => eq_refl)).
  - vm_compute. reflexivity.
  - intros [buffer [Hbody Hlarge]]. injection Hbody as <-.
    vm_compute in Hlarge. now apply Hlarge.
Defined.

(** A page that is not to be stored, sets a cookie and sends a header
    named [__proto__]. *)
Lemma POST_payload_reports_origin_witness :
  let origin := {| resp_status := 200; resp_statusText := "OK";
                   resp_headers := {[ "content-type" := "text/html";
                                      "cache-control" := "no-store";
                                      "set-cookie" := "sid=1";
                                      "__proto__" := "x" ]};
                   resp_body := Some (Fulfilled "hello") |} in
  let w := world (Fulfilled CUndefined) example_site (Fulfilled origin) in
  exists p,
    fst (POST w []) = Fulfilled (JsonPayload p) /\
    p_status p = 200 /\
    p_cacheable p = false /\
    p_headers p !! "set-cookie" = None /\
    p_headers p !! "__proto__" = None /\
    p_headers p !! "content-type" = Some "text/html" /\
    p_headers p !! "x-proxied-by" = Some "edgeflow".
Proof.
  cbv zeta.
  assert (Hanswer : exists p,
    fst (POST (world (Fulfilled CUndefined) example_site
                 (Fulfilled {| resp_status := 200; resp_statusText := "OK";
                               resp_headers := {[ "content-type" := "text/html";
                                                  "cache-control" := "no-store";
                                                  "set-cookie" := "sid=1";
                                                  "__proto__" := "x" ]};
                               resp_body := Some (Fulfilled "hello") |})) []) =
      Fulfilled (JsonPayload p)).
  { eexists. vm_compute. reflexivity. }
  destruct Hanswer as [p Hanswer]. exists p. split; [exact Hanswer|].
  destruct (POST_payload_reports_origin _ _ _ Hanswer)
    as [req [response [_ [Hfetch [Hstatus [_ [_ [_ [Hfalse Hheaders]]]]]]]]].
  injection Hfetch as <-.
  rewrite Hstatus, Hfalse, !Hheaders. repeat split; vm_compute; reflexivity.
Defined.


(** A censored URL under the default configuration. *)
Lemma fronting_feeds_itself_witness :
  let w := world (Fulfilled CUndefined) blocked_site (Rejected TimeoutError) in
  exists u1,
    rewriteUrl w DEFAULT_CONFIG blocked_site (start []) =
      (Val u1, next_draw (start [])) /\
    startsWith u1 "https://" = true /\
    shouldApplyDomainFronting u1 = true /\
    (String.length blocked_site < String.length u1)%nat.
Proof.
  cbv zeta.
  apply (fronting_feeds_itself
           (world (Fulfilled CUndefined) blocked_site (Rejected TimeoutError))
           DEFAULT_CONFIG blocked_site (start [])).
  - intros H. apply Exists_nil in H. exact H.
  - intros rule re [].
  - reflexivity.
  - reflexivity.
Defined.

End FurtherRouteEvaluations.

Section FurtherWorkerEvaluations.
Import SW Fragment Scenario.

(** A page is served and cached; then the edge function times out. *)
Lemma handleProxyRequest_offline_witness :
  let d := {| Route.p_content := "hello"; Route.p_contentType := "text/html";
              Route.p_status := 200; Route.p_statusText := "OK";
              Route.p_headers := {[ "content-type" := "text/html" ]};
              Route.p_cacheable := true |} in
  let online := edge (Fulfilled {| reply_status := 200; reply_json := Fulfilled d |}) in
  let offline := edge (Rejected TimeoutError) in
  exists proxied,
    fst (handleProxyRequest online page_request ∅) = Fulfilled proxied /\
    fst (handleProxyRequest offline page_request
           (caches (snd (handleProxyRequest online page_request ∅)))) =
      Fulfilled proxied /\
    body proxied = "hello".
Proof.
  cbv zeta.
  edestruct (handleProxyRequest_offline
    (edge (Fulfilled {| reply_status := 200;
                        reply_json := Fulfilled
                          {| Route.p_content := "hello";
                             Route.p_contentType := "text/html";
                             Route.p_status := 200; Route.p_statusText := "OK";
                             Route.p_headers := {[ "content-type" := "text/html" ]};
                             Route.p_cacheable := true |} |}))
    (edge (Rejected TimeoutError)) page_request ∅ None) as [Hfirst Hsecond].
  1-4: reflexivity.
  - vm_compute. reflexivity.
  - reflexivity.
  - reflexivity.
  - vm_compute. reflexivity.
  - exact I.
  - eexists. split; [exact Hfirst|]. split; [exact Hsecond | reflexivity].
Defined.

(** The origin answered 304 Not Modified. *)
Lemma handleProxyRequest_unbuildable_witness :
  let d := {| Route.p_content := ""; Route.p_contentType := "text/plain";
              Route.p_status := 304; Route.p_statusText := "Not Modified";
              Route.p_headers := ∅; Route.p_cacheable := true |} in
  let w := edge (Fulfilled {| reply_status := 200; reply_json := Fulfilled d |}) in
  fst (handleProxyRequest w page_request ∅) = Fulfilled unavailable /\
  caches (snd (handleProxyRequest w page_request ∅)) = ∅.
Proof.
  cbv zeta.
  refine (handleProxyRequest_unbuildable _ page_request ∅ None _ _ _ _ _ _ _);
    try reflexivity.
  right. right. cbn. auto 10.
Defined.

End FurtherWorkerEvaluations.

Section ConfigEvaluations.
Import Json ConfigRoute ConfigScenario.

(** The row holds a string, not a configuration. *)
Lemma config_GET_database_first_witness :
  GET (world (Rejected EdgeConfigError) (Rejected SyntaxError) (Fulfilled tt))
      (Some (JString "off")) [] =
    (Fulfilled (JsonConfig (JString "off") "2024-01-01T00:00:00.000Z"),
     {| trace := [SqlSelect]; proxy_config := Some (JString "off");
        proxy_logs := []; edge_reads := 0; clock := 1 |}).
Proof.
  apply (config_GET_database_first
           (world (Rejected EdgeConfigError) (Rejected SyntaxError) (Fulfilled tt))
           (JString "off") []).
  reflexivity.
Defined.

(** The table is empty and Edge Config holds an array. *)
Lemma config_GET_edge_fallback_witness :
  exists timestamp,
    fst (GET (world (Fulfilled (Some (JArray []))) (Rejected SyntaxError)
                (Fulfilled tt)) None []) =
      Fulfilled (JsonConfig (JObject DEFAULT_CONFIG) timestamp).
Proof.
  destruct (config_GET_edge_fallback
              (world (Fulfilled (Some (JArray []))) (Rejected SyntaxError)
                 (Fulfilled tt))
              None [] (Some (JArray [])) (or_intror eq_refl) eq_refl)
    as [timestamp [Hanswer _]].
  exists timestamp. exact Hanswer.
Defined.

(** A string where a number belongs. *)
Lemma config_POST_validation_witness :
  fst (POST (world (Fulfilled None) (Fulfilled quoted_ttl) (Fulfilled tt)) None []) =
    Fulfilled (JsonError "Invalid configuration structure" 400).
Proof.
  apply (proj2 (proj2 (config_POST_validation
                  (world (Fulfilled None) (Fulfilled quoted_ttl) (Fulfilled tt))
                  None [] quoted_ttl None eq_refl eq_refl eq_refl))).
  split; [discriminate|]. split; [reflexivity|].
  exists "cacheTTL", (JString "60"). split; [vm_compute; reflexivity | reflexivity].
Defined.

(** The log table refuses the row of a valid update. *)
Lemma config_POST_logging_is_best_effort_witness :
  let w := world (Fulfilled None) (Fulfilled shorter_ttl) (Rejected DatabaseError) in
  exists config timestamp,
    fst (POST w None []) = Fulfilled (JsonConfig config timestamp) /\
    proxy_config (snd (POST w None [])) = Some config /\
    proxy_logs (snd (POST w None [])) = [].
Proof.
  cbv zeta.
  assert (Hlogged : exists row,
    In (SqlInsertLog row)
       (trace (snd (POST (world (Fulfilled None) (Fulfilled shorter_ttl)
                            (Rejected DatabaseError)) None [])))).
  { eexists. vm_compute. right. right. right. left. reflexivity. }
  destruct Hlogged as [row Hin].
  destruct (config_POST_logging_is_best_effort _ _ _ _ Hin)
    as [config [timestamp [Hanswer [Hstored [_ Hrefused]]]]].
  exists config, timestamp. split; [exact Hanswer|]. split; [exact Hstored|].
  exact (Hrefused DatabaseError eq_refl).
Defined.

(** An update, then a read. *)
Lemma config_POST_then_GET_witness :
  let w := world (Fulfilled None) (Fulfilled shorter_ttl) (Fulfilled tt) in
  exists config,
    fst (POST w None []) = Fulfilled (JsonConfig config "2024-01-01T00:00:01.000Z") /\
    fst (GET w (proxy_config (snd (POST w None [])))
               (proxy_logs (snd (POST w None [])))) =
      Fulfilled (JsonConfig config "2024-01-01T00:00:00.000Z") /\
    exists fields, config = JObject fields /\
                   fields !! "cacheTTL" = Some (JNumber 60) /\
                   fields !! "enabled" = Some (JBoolean true).
Proof.
  cbv zeta.
  assert (Hanswer : exists config,
    fst (POST (world (Fulfilled None) (Fulfilled shorter_ttl) (Fulfilled tt))
           None []) =
      Fulfilled (JsonConfig config "2024-01-01T00:00:01.000Z") /\
    exists fields, config = JObject fields /\
                   fields !! "cacheTTL" = Some (JNumber 60) /\
                   fields !! "enabled" = Some (JBoolean true)).
  { eexists. split; [vm_compute; reflexivity|].
    eexists. split; [reflexivity|]. split; vm_compute; reflexivity. }
  destruct Hanswer as [config [Hanswer Hfields]].
  exists config. split; [exact Hanswer|]. split; [|exact Hfields].
  exact (proj1 (config_POST_then_GET
                  (world (Fulfilled None) (Fulfilled shorter_ttl) (Fulfilled tt))
                  (world (Fulfilled None) (Fulfilled shorter_ttl) (Fulfilled tt))
                  None [] config _ Hanswer eq_refl (fun _ => eq_refl))).
Defined.

End ConfigEvaluations.

Section LogsEvaluations.
Import Json LogsRoute LogsScenario.

(** The third page of the errors, ten to a page. *)
Lemma logs_GET_binds_limit_to_offset_witness :
  let parameters := [PString "error"; PNumber (Some 10); PNumber (Some 20)] in
  trace (snd (GET parse_decimal (world "57" [] (Rejected SyntaxError) (Fulfilled []))
                errors_page [])) !! 1%nat =
    Some (SqlQuery (logsQuery errors_page) parameters) /\
  exists head l o,
    logsQuery errors_page =
      head +:+ "LIMIT $" +:+ pretty l +:+ " OFFSET $" +:+ pretty o +:+
      newline +:+ "    " /\
    bound parameters l = Some (PNumber (Some 20)) /\
    bound parameters o = Some (PNumber (Some 10)) /\
    length parameters = l.
Proof.
  cbv zeta.
  assert (Hsent :
    trace (snd (GET parse_decimal
                  (world "57" [] (Rejected SyntaxError) (Fulfilled []))
                  errors_page [])) !! 1%nat =
      Some (SqlQuery (logsQuery errors_page)
              [PString "error"; PNumber (Some 10); PNumber (Some 20)])).
  { vm_compute. reflexivity. }
  split; [exact Hsent|].
  exact (logs_GET_binds_limit_to_offset parse_decimal _ _ _ _ _ Hsent).
Defined.

(** A level written to break out of the query. *)
Lemma logs_GET_queries_carry_no_values_witness :
  countQuery hostile_page = countQuery errors_page /\
  logsQuery hostile_page = logsQuery errors_page /\
  params (filters hostile_page) = [PString "x' OR 1=1; --"].
Proof.
  apply (logs_GET_queries_carry_no_values hostile_page errors_page);
    reflexivity.
Defined.

(** The body [null]. *)
Lemma logs_POST_requirements_witness :
  fst (POST (world "0" [] (Fulfilled JNull) (Fulfilled [])) []) =
    Fulfilled (JsonError "Failed to create log entry" 500).
Proof.
  apply (proj1 (logs_POST_requirements
                  (world "0" [] (Fulfilled JNull) (Fulfilled [])) [] JNull eq_refl)).
  reflexivity.
Defined.

(** An entry dated 1999. *)
Lemma logs_POST_client_timestamp_witness :
  let w := world "0" [] (Fulfilled (JObject backdated))
             (Fulfilled [JObject {[ "id" := JNumber 7 ]}]) in
  exists row,
    In (SqlInsert row) (trace (snd (POST w []))) /\
    row_timestamp row = Some (JString "1999-12-31T23:59:59.000Z") /\
    fst (POST w []) =
      Fulfilled (JsonCreated (Some (JNumber 7))
                   (Some (JString "1999-12-31T23:59:59.000Z"))) /\
    proxy_logs (snd (POST w [])) = [row].
Proof.
  cbv zeta.
  match goal with
  | |- exists row, In (SqlInsert row) ?events /\ _ =>
      assert (Hsent : exists row, In (SqlInsert row) events)
        by (eexists; vm_compute; right; left; reflexivity)
  end.
  destruct Hsent as [row Hin]. exists row. split; [exact Hin|].
  destruct (logs_POST_client_timestamp
              (world "0" [] (Fulfilled (JObject backdated))
                 (Fulfilled [JObject {[ "id" := JNumber 7 ]}]))
              [] backdated row eq_refl Hin) as [Htime Hanswer].
  assert (Hstamp : row_timestamp row = Some (JString "1999-12-31T23:59:59.000Z")).
  { rewrite Htime. vm_compute. reflexivity. }
  split; [exact Hstamp|].
  assert (Hcreated :
    fst (POST (world "0" [] (Fulfilled (JObject backdated))
                 (Fulfilled [JObject {[ "id" := JNumber 7 ]}])) []) =
      Fulfilled (JsonCreated (Some (JNumber 7)) (row_timestamp row))).
  { rewrite Hstamp. vm_compute. reflexivity. }
  split; [now rewrite Hcreated, Hstamp|].
  exact (proj2 (Hanswer _ _ Hcreated)).
Defined.

End LogsEvaluations.

Section EndToEndEvaluations.
Import Fragment Scenario.

(** A page request that carries a cookie, forwarded by the worker to the
    edge function and from there to the origin. *)
Lemma worker_requests_are_sanitized_witness :
  let request := {| SW.url := "https://example.com/page"; SW.method := "GET";
                    SW.headers := {[ "cookie" := "sid=1" ]};
                    SW.text := Fulfilled "" |} in
  let fw := SW.proxyRequest_for (edge (Rejected TimeoutError)) request None in
  let w := {|
    Route.w_config := Fulfilled Route.CUndefined;
    Route.w_body := Fulfilled (SW.pr_body fw);
    Route.w_fetch := fun _ => Rejected TimeoutError;
    Route.w_now := 0;
    Route.w_insert := fun _ => Fulfilled tt;
    Route.w_random := fun _ => 0%nat |} in
  exists req,
    In fw (SW.forwarded
             (SW.trace (snd (SW.handleProxyRequest (edge (Rejected TimeoutError))
                               request ∅)))) /\
    In req (Route.fetches (Route.trace (snd (Route.POST w [])))) /\
    Route.req_headers req !! "cookie" = None.
Proof.
  cbv zeta.
  match goal with
  | |- exists req, ?sent /\ In req ?fetched /\ _ =>
      assert (Hsent : sent) by (vm_compute; left; reflexivity);
      assert (Hfetched : exists req, In req fetched)
        by (eexists; vm_compute; left; reflexivity)
  end.
  destruct Hfetched as [req Hin]. exists req.
  split; [exact Hsent|]. split; [exact Hin|].
  refine ((fun Hlower Hbody Hname =>
             worker_requests_are_sanitized _ _ _ _ _ _ req "cookie"
               Hlower Hsent Hbody Hin Hname) _ _ _).
  - intros name [x Hx]. cbn [SW.headers] in Hx.
    apply lookup_singleton_Some in Hx as [<- _]. reflexivity.
  - reflexivity.
  - left. reflexivity.
Defined.

End EndToEndEvaluations.
